(** * Architecture overview generator: the structural extractor

    A shallow embedding of [agent-tools/architecture-overview.py].  The
    extractor is a sequence of [re.finditer] passes over the text of a file,
    so the development starts with the part of Python's [re] engine the
    patterns of the script use (a backtracking matcher with ordered choice,
    greedy and lazy single-character repetition and capture groups), then
    transcribes the script function by function. *)

From Stdlib Require Import String Ascii DecimalString List NArith Arith Bool Lia.
Import ListNotations.

(** ** Text

    A Python [str] is a sequence of code points. *)

Definition char := N.
Definition str := list char.

(** The text of an ASCII literal of the script. *)
Definition lit (s : string) : str := map N_of_ascii (list_ascii_of_string s).

(** The double quote (not writable inside a literal here) and friends. *)
Definition dquote : char := 34%N.
Definition squote : char := 39%N.
Definition newline : char := 10%N.

Fixpoint str_eqb (a b : str) : bool :=
  match a, b with
  | [], [] => true
  | x :: a', y :: b' => N.eqb x y && str_eqb a' b'
  | _, _ => false
  end.

(** [s[a:b]] for [0 <= a]: a slice never fails, it is cut at the end of [s]. *)
Definition slice (s : str) (a b : nat) : str := firstn (b - a) (skipn a s).

(** [s.startswith(p)], and the rest of [s] after [p]. *)
Fixpoint strip_prefix (p s : str) : option str :=
  match p with
  | [] => Some s
  | x :: p' =>
      match s with
      | y :: s' => if N.eqb x y then strip_prefix p' s' else None
      | [] => None
      end
  end.

Definition startswith (s p : str) : bool :=
  match strip_prefix p s with Some _ => true | None => false end.

(** [p in s] for two strings. *)
Fixpoint contains (s p : str) : bool :=
  startswith s p || match s with [] => false | _ :: s' => contains s' p end.

(** [Py_UNICODE_ISSPACE]: what [\s] matches and [str.strip()] removes. *)
Definition is_space (c : char) : bool :=
  ((9 <=? c) && (c <=? 13) || (28 <=? c) && (c <=? 32) || (c =? 133) || (c =? 160)
   || (c =? 5760) || (8192 <=? c) && (c <=? 8202) || (c =? 8232) || (c =? 8233)
   || (c =? 8239) || (c =? 8287) || (c =? 12288))%N.

Fixpoint lstrip (s : str) : str :=
  match s with
  | c :: s' => if is_space c then lstrip s' else s
  | [] => []
  end.

(** [s.strip()] *)
Definition strip (s : str) : str := rev (lstrip (rev (lstrip s))).

Definition ascii_alnum (c : char) : bool :=
  ((48 <=? c) && (c <=? 57) || (65 <=? c) && (c <=? 90) || (97 <=? c) && (c <=? 122))%N.

Definition ascii_lower (c : char) : char :=
  if ((65 <=? c) && (c <=? 90))%N then (c + 32)%N else c.

(** The character database restricted to Latin-1, as CPython has it there
    (nothing beyond U+00FF is alphanumeric or cased in this instance): the
    database the closed examples at the end are stated with. *)
Definition latin1_alnum (c : char) : bool :=
  ((c =? 170) || (c =? 178) || (c =? 179) || (c =? 181) || (c =? 185) || (c =? 186)
   || (188 <=? c) && (c <=? 190) || (192 <=? c) && (c <=? 214)
   || (216 <=? c) && (c <=? 246) || (248 <=? c) && (c <=? 255))%N.

Definition latin1_lower (c : char) : str :=
  if ((192 <=? c) && (c <=? 214) || (216 <=? c) && (c <=? 222))%N
  then [(c + 32)%N] else [c].

(** ** Values and exceptions

    A value that is a [str] or [None] ([match.group(k)] of a group that took
    no part in the match is [None]). *)
Definition pyval := option str.

Definition is_not_None (v : pyval) : bool :=
  match v with Some _ => true | None => false end.

(** Truth value: [None] and the empty string are false. *)
Definition truthy (v : pyval) : bool :=
  match v with Some (_ :: _) => true | _ => false end.

Definition pyval_eqb (a b : pyval) : bool :=
  match a, b with
  | Some x, Some y => str_eqb x y
  | None, None => true
  | _, _ => false
  end.

(** [v in l] *)
Definition pyval_in (v : pyval) (l : list pyval) : bool := existsb (pyval_eqb v) l.

(** [f"{v}"] *)
Definition fmt (v : pyval) : str :=
  match v with Some s => s | None => lit "None" end.

Inductive pyexn : Type :=
| AttributeError   (* a method called on [None] *)
| ValueError       (* [with_suffix] on a path with an empty name *)
| PermissionError. (* [exists] on a path that may not be looked at *)

Inductive exc (A : Type) : Type :=
| Ok (a : A)
| Raise (e : pyexn).
Arguments Ok {A} a.
Arguments Raise {A} e.

Definition bind {A B} (m : exc A) (f : A -> exc B) : exc B :=
  match m with Ok a => f a | Raise e => Raise e end.

Notation "x <- m ;; k" := (bind m (fun x => k))
  (at level 61, m at next level, right associativity).

(** A [for] loop whose body may raise, threading the loop's state. *)
Fixpoint for_each {A S} (l : list A) (body : S -> A -> exc S) (s : S) : exc S :=
  match l with
  | [] => Ok s
  | x :: l' => s' <- body s x ;; for_each l' body s'
  end.

(** [v.strip()], an [AttributeError] on [None]. *)
Definition strip_of (v : pyval) : exc str :=
  match v with Some s => Ok (strip s) | None => Raise AttributeError end.

(** [v.startswith(p)], likewise. *)
Definition startswith_of (v : pyval) (p : str) : exc bool :=
  match v with Some s => Ok (startswith s p) | None => Raise AttributeError end.

(** [v.strip() if v else ''] *)
Definition strip_or_empty (v : pyval) : exc str :=
  if truthy v then strip_of v else Ok [].

(** ** Regular expressions

    The fragment of [re] syntax the script's patterns are written in.
    Repetition is only ever applied to a one-character class there
    ([\s+], [\w+], [.*?], [[^)]*] ...), optionality to a group. *)

Inductive citem : Type :=
| CChar (c : char)
| CSpace              (* \s *)
| CWord.              (* \w *)

Inductive cset : Type :=
| OneOf (l : list citem)     (* [...] , \s , \w , a character *)
| NoneOf (l : list citem).   (* [^...] , and [.] = [^\n] *)

Inductive regex : Type :=
| Lit (l : str)                               (* literal text *)
| One (c : cset)                              (* one character of a class *)
| Rep (c : cset) (lo : nat) (greedy : bool)   (* c* c+ (lo = 0, 1), c*? *)
| Seq (r1 r2 : regex)
| Alt (r1 r2 : regex)                         (* r1|r2 *)
| Opt (r : regex)                             (* (?:r)? *)
| Grp (n : nat) (r : regex).                  (* the n-th capture group *)

Fixpoint cat (l : list regex) : regex :=
  match l with
  | [] => Lit []
  | [r] => r
  | r :: l' => Seq r (cat l')
  end.

Fixpoint alt (l : list regex) : regex :=
  match l with
  | [] => Lit []
  | [r] => r
  | r :: l' => Alt r (alt l')
  end.

Definition space := OneOf [CSpace].
Definition word := OneOf [CWord].
Definition dot := NoneOf [CChar newline].
Definition star c := Rep c 0 true.
Definition plus c := Rep c 1 true.
Definition lazy_star c := Rep c 0 false.
Definition chr (c : string) := Lit (lit c).

(** [len(match.groups())]: the number of capture groups of a pattern. *)
Fixpoint ngroups (r : regex) : nat :=
  match r with
  | Lit _ | One _ | Rep _ _ _ => 0
  | Seq r1 r2 | Alt r1 r2 => ngroups r1 + ngroups r2
  | Opt r1 => ngroups r1
  | Grp _ r1 => S (ngroups r1)
  end.

(** Group spans, relative to the start of the match; the latest binding of a
    group is the first in the list. *)
Definition caps := list (nat * (nat * nat)).

Fixpoint span_of (n : nat) (g : caps) : option (nat * nat) :=
  match g with
  | [] => None
  | (m, sp) :: g' => if Nat.eqb n m then Some sp else span_of n g'
  end.

(** A match object: where it starts, the subject from there on, its length
    and its group spans. *)
Record Match : Type := mkMatch {
  m_start : nat;
  m_subject : str;
  m_len : nat;
  m_regs : caps
}.

(** [m.end()] *)
Definition m_end (m : Match) : nat := m_start m + m_len m.

(** [m.group(0)] *)
Definition group0 (m : Match) : str := firstn (m_len m) (m_subject m).

(** [m.group(n)] for [n >= 1] *)
Definition group (n : nat) (m : Match) : pyval :=
  match span_of n (m_regs m) with
  | Some (a, b) => Some (slice (m_subject m) a b)
  | None => None
  end.

(** ** The data model of the script *)

Record FunctionInfo : Type := mkFunctionInfo {
  fn_name : pyval;
  fn_signature : str;
  fn_is_async : bool;
  fn_is_exported : bool
}.

Record ClassInfo : Type := mkClassInfo {
  cl_name : pyval;
  cl_methods : list FunctionInfo;
  cl_is_exported : bool
}.

Inductive type_kind : Type := KInterface | KType | KEnum.

Record TypeInfo : Type := mkTypeInfo {
  ty_name : pyval;
  ty_kind : type_kind;
  ty_is_exported : bool
}.

Record FileAnalysis : Type := mkFileAnalysis {
  imports : list pyval;
  exports : list pyval;
  classes : list ClassInfo;
  functions : list FunctionInfo;
  types : list TypeInfo;
  has_tests : bool
}.

(** [FileAnalysis()]: every list is a fresh empty list ([default_factory]). *)
Definition FileAnalysis_new : FileAnalysis := mkFileAnalysis [] [] [] [] [] false.

(** [analysis.imports.append(p)] and its siblings. *)
Definition append_import (a : FileAnalysis) (p : pyval) : FileAnalysis :=
  mkFileAnalysis (imports a ++ [p]) (exports a) (classes a) (functions a) (types a) (has_tests a).
Definition append_export (a : FileAnalysis) (e : pyval) : FileAnalysis :=
  mkFileAnalysis (imports a) (exports a ++ [e]) (classes a) (functions a) (types a) (has_tests a).
Definition append_class (a : FileAnalysis) (c : ClassInfo) : FileAnalysis :=
  mkFileAnalysis (imports a) (exports a) (classes a ++ [c]) (functions a) (types a) (has_tests a).
Definition append_function (a : FileAnalysis) (f : FunctionInfo) : FileAnalysis :=
  mkFileAnalysis (imports a) (exports a) (classes a) (functions a ++ [f]) (types a) (has_tests a).
Definition append_type (a : FileAnalysis) (t : TypeInfo) : FileAnalysis :=
  mkFileAnalysis (imports a) (exports a) (classes a) (functions a) (types a ++ [t]) (has_tests a).
Definition set_has_tests (a : FileAnalysis) (b : bool) : FileAnalysis :=
  mkFileAnalysis (imports a) (exports a) (classes a) (functions a) (types a) b.

(** ** Paths and the file system

    A path is its parent directory and its final component.  The file system
    is what the script observes of it: what [path.exists()] answers (before
    Python 3.13 it raises when [stat] fails for another reason than a missing
    file), and what reading a file gives. *)

Record Path : Type := mkPath {
  p_parent : list str;
  p_name : str
}.

Inductive read_result : Type :=
| ReadFails                       (* [open] or [read] raises *)
| ReadBytes (b : list Byte.byte).

Record FS : Type := mkFS {
  fs_exists : Path -> exc bool;
  fs_read : Path -> read_result
}.

(** ** Sample inputs

    The inputs of the closed instances at the end: a file system without
    files, one whose files all exist and hold a byte that is no UTF-8 before
    a function definition, two paths, and a few texts. *)

Definition no_files : FS := mkFS (fun _ => Ok false) (fun _ => ReadFails).

Definition a_ts : Path := mkPath [lit "src"] (lit "a.ts").
Definition a_py : Path := mkPath [lit "src"] (lit "a.py").

Definition sample_module : str :=
  lit "class A:
    def __init__(self): pass
    def __str__(self): pass
    async def run(self, x) -> int: pass
def top(async_mode): pass
def run(): pass
".

Definition sample_imports : str :=
  lit "import {a, b} from './util';
import x from 'package';
".

Definition eleven_methods : str :=
  lit "class A { a(){} b(){} c(){} d(){} e(){} f(){} g(){} h(){} i(){} j(){} k(){} }".

Definition undecodable_py : FS :=
  mkFS (fun _ => Ok true)
       (fun _ => ReadBytes (Byte.xff :: list_byte_of_string "def f(): pass")).

From Stdlib Require Import Sorted Permutation.

(** ** Directory trees and the names left out

    An entry of a directory as the script sees it: its name and, for a
    directory, what [iterdir()] gives ([None] when it raises
    [PermissionError]); for any other entry, whether [is_file()] holds and
    its [st_size] (the script asks [is_dir()] and [stat()] of every entry it
    lists; they are taken to answer). *)

#[warnings="-register-all"]
Inductive Entry : Type :=
| EFile (name : str) (regular : bool) (size : nat)
| EDir (name : str) (listing : option (list Entry)).

Definition entry_name (e : Entry) : str :=
  match e with EFile name _ _ => name | EDir name _ => name end.

Definition is_dir (e : Entry) : bool :=
  match e with EFile _ _ _ => false | EDir _ _ => true end.

Definition is_file (e : Entry) : bool :=
  match e with EFile _ regular _ => regular | EDir _ _ => false end.

Definition EXCLUDE_DIRS : list str :=
  map lit ["node_modules"; ".git"; ".next"; "dist"; "build"; ".cache"; "__pycache__";
           ".pytest_cache"; "coverage"; ".nyc_output"; "venv"; "env"; ".venv"]%string.

Definition EXCLUDE_FILES : list str :=
  map lit [".DS_Store"; "package-lock.json"; "npm-debug.log"; "yarn-error.log";
           ".env"; ".env.local"]%string.

Definition should_exclude (name : str) (is_dir : bool) : bool :=
  if is_dir then
    if startswith name (lit ".") then true
    else existsb (str_eqb name) EXCLUDE_DIRS
  else existsb (str_eqb name) EXCLUDE_FILES.

(** [a <= b] for two strings: by code points, a prefix first. *)
Fixpoint str_leb (a b : str) : bool :=
  match a, b with
  | [], _ => true
  | _ :: _, [] => false
  | x :: a', y :: b' =>
      if N.ltb x y then true else if N.eqb x y then str_leb a' b' else false
  end.

(** [k1 <= k2] for two keys [(bool, str)]: [False] before [True], then by the
    strings. *)
Definition key_leb (k1 k2 : bool * str) : bool :=
  match fst k1, fst k2 with
  | false, true => true
  | true, false => false
  | _, _ => str_leb (snd k1) (snd k2)
  end.

(** [key x <= key y] *)
Definition key_le {A} (key : A -> bool * str) (x y : A) : Prop :=
  key_leb (key x) (key y) = true.

(** [sorted(l, key=key)]: the stable sort, each element put before the first
    of those after it whose key is not smaller. *)
Fixpoint insert_sorted {A} (key : A -> bool * str) (x : A) (l : list A) : list A :=
  match l with
  | [] => [x]
  | y :: l' => if key_leb (key x) (key y) then x :: l else y :: insert_sorted key x l'
  end.

Fixpoint sorted {A} (key : A -> bool * str) (l : list A) : list A :=
  match l with
  | [] => []
  | x :: l' => insert_sorted key x (sorted key l')
  end.

(** Paths as their parts, the root [/] the first part of an absolute one. *)
Fixpoint join (sep : str) (parts : list str) : str :=
  match parts with
  | [] => []
  | [p] => p
  | p :: rest => p ++ sep ++ join sep rest
  end.

(** [str(path)] *)
Definition path_str (parts : list str) : str :=
  match parts with
  | [] => lit "."
  | root :: rest =>
      if str_eqb root (lit "/") then lit "/" ++ join (lit "/") rest
      else join (lit "/") parts
  end.

(** [path.relative_to(root)]: [None] is its [ValueError]. *)
Fixpoint relative_to (path root : list str) : option (list str) :=
  match root with
  | [] => Some path
  | r :: root' =>
      match path with
      | p :: path' => if str_eqb p r then relative_to path' root' else None
      | [] => None
      end
  end.

(** [count_items]: the totals [(total_files, total_dirs)] after the body of
    the loop of [count_recursive] for an entry; at a directory that cannot be
    listed the [PermissionError] is passed over. *)
Fixpoint count_entry (totals : nat * nat) (entry : Entry) : nat * nat :=
  if should_exclude (entry_name entry) (is_dir entry) then totals
  else
    match entry with
    | EFile _ regular _ =>
        if regular then (S (fst totals), snd totals) else totals
    | EDir _ listing =>
        let totals := (fst totals, S (snd totals)) in
        match listing with
        | Some children => fold_left count_entry children totals
        | None => totals
        end
    end.

Definition count_recursive (totals : nat * nat) (listing : option (list Entry))
    : nat * nat :=
  match listing with
  | Some children => fold_left count_entry children totals
  | None => totals
  end.

Definition count_items (listing : option (list Entry)) : nat * nat :=
  count_recursive (0, 0) listing.

(** A sample tree: a source directory with a file and its test, a hidden
    directory, a directory that cannot be listed, and two files. *)
Definition sample_tree : list Entry :=
  [EFile (lit "README.md") true 120;
   EDir (lit "src")
     (Some [EFile (lit "b.ts") true 42; EFile (lit "b.test.ts") true 10;
            EDir (lit "Locked") None]);
   EDir (lit ".git") (Some [EFile (lit "config") true 5]);
   EFile (lit ".env") true 7;
   EDir (lit "node_modules") (Some [EFile (lit "x.js") true 1])].

(** More sample inputs: a text with exports, types and a class; a file
    system where the paths under a directory [__tests__] exist; one where
    [exists()] raises but for [b.test.ts]; one whose files hold [a], a
    carriage return, a line feed and [b]; one where [exists()] always
    raises; and a directory of three files. *)
Definition sample_declarations : str :=
  lit "export const a = 1;
export interface Props {}
type T = number;
export enum E {}
export default App;
export class Foo { constructor(x) {} bar(y) {} }
".

Definition under_tests_dir (p : Path) : bool :=
  existsb (str_eqb (lit "__tests__")) (p_parent p).

Definition tests_dir_fs : FS :=
  mkFS (fun p => Ok (under_tests_dir p)) (fun _ => ReadBytes []).

Definition guarded_fs : FS :=
  mkFS (fun p => if str_eqb (p_name p) (lit "b.test.ts") then Ok true
                 else Raise PermissionError)
       (fun _ => ReadBytes []).

Definition crlf_bytes : list Byte.byte := [Byte.x61; Byte.x0d; Byte.x0a; Byte.x62].

Definition crlf_file : FS := mkFS (fun _ => Ok false) (fun _ => ReadBytes crlf_bytes).

Definition locked_probe : FS :=
  mkFS (fun _ => Raise PermissionError) (fun _ => ReadBytes []).

Definition three_files : list Entry :=
  [EFile (lit "c.ts") true 3; EFile (lit "b.ts") true 2; EFile (lit "a.md") true 1].

Section Extractor.

(** The Unicode character database of the Python runtime is not part of the
    script: outside ASCII, which code points are alphanumeric and what
    [str.lower()] maps a code point to are parameters. *)
Variable unicode_alnum : char -> bool.
Variable unicode_lower : char -> str.

(** What [\w] matches. *)
Definition is_word (c : char) : bool :=
  if (c <? 128)%N then ascii_alnum c || (c =? 95)%N else unicode_alnum c.

(** [s.lower()] *)
Definition lower (s : str) : str :=
  flat_map (fun c => if (c <? 128)%N then [ascii_lower c] else unicode_lower c) s.

(** ** The matcher *)

Definition item_matches (x : char) (it : citem) : bool :=
  match it with
  | CChar c => N.eqb x c
  | CSpace => is_space x
  | CWord => is_word x
  end.

Definition cmatch (c : cset) (x : char) : bool :=
  match c with
  | OneOf l => existsb (item_matches x) l
  | NoneOf l => negb (existsb (item_matches x) l)
  end.

Section Backtracking.
Variable R : Type.

(** Greedy repetition of a class: take as many characters as match, then
    give them back one at a time until the rest of the pattern matches. *)
Fixpoint rep_greedy (c : cset) (lo i : nat) (s : str)
    (k : nat -> str -> option R) : option R :=
  let stop := match lo with 0 => k i s | S _ => None end in
  match s with
  | x :: s' =>
      if cmatch c x then
        match rep_greedy c (pred lo) (S i) s' k with
        | Some r => Some r
        | None => stop
        end
      else stop
  | [] => stop
  end.

(** Lazy repetition: try the rest of the pattern first, take one more
    character when it fails. *)
Fixpoint rep_lazy (c : cset) (lo i : nat) (s : str)
    (k : nat -> str -> option R) : option R :=
  let more :=
    match s with
    | x :: s' => if cmatch c x then rep_lazy c (pred lo) (S i) s' k else None
    | [] => None
    end in
  match lo with
  | 0 => match k i s with Some r => Some r | None => more end
  | S _ => more
  end.

(** [exec r i s g k]: match [r] against [s], which stands at offset [i] of
    the match, with the groups [g] set so far; on success go on with [k],
    and on its failure come back for the next alternative. *)
Fixpoint exec (r : regex) (i : nat) (s : str) (g : caps)
    (k : nat -> str -> caps -> option R) : option R :=
  match r with
  | Lit l =>
      match strip_prefix l s with
      | Some s' => k (i + length l) s' g
      | None => None
      end
  | One c =>
      match s with
      | x :: s' => if cmatch c x then k (S i) s' g else None
      | [] => None
      end
  | Rep c lo true => rep_greedy c lo i s (fun i' s' => k i' s' g)
  | Rep c lo false => rep_lazy c lo i s (fun i' s' => k i' s' g)
  | Seq r1 r2 => exec r1 i s g (fun i' s' g' => exec r2 i' s' g' k)
  | Alt r1 r2 =>
      match exec r1 i s g k with
      | Some x => Some x
      | None => exec r2 i s g k
      end
  | Opt r1 =>
      match exec r1 i s g k with
      | Some x => Some x
      | None => k i s g
      end
  | Grp n r1 => exec r1 i s g (fun i' s' g' => k i' s' ((n, (i, i')) :: g'))
  end.

End Backtracking.

Arguments rep_greedy {R}.
Arguments rep_lazy {R}.
Arguments exec {R}.

(** One attempt at the start of [s]: the length of the match and its groups. *)
Definition match_at (r : regex) (s : str) : option (nat * caps) :=
  exec r 0 s [] (fun i _ g => Some (i, g)).

(** [re.finditer(r, s)]: the matches from left to right, each search starting
    where the last match ended.  [skip] counts the characters of the last
    match still to step over.  (After an empty match this steps to the next
    character; no pattern of the script matches the empty string, see
    [script_patterns_consume].) *)
Fixpoint finditer_from (r : regex) (pos skip : nat) (s : str) : list Match :=
  match skip with
  | S n =>
      match s with
      | _ :: s' => finditer_from r (S pos) n s'
      | [] => []
      end
  | 0 =>
      match match_at r s with
      | Some (len, g) =>
          mkMatch pos s len g ::
          match s with
          | _ :: s' => finditer_from r (S pos) (pred len) s'
          | [] => []
          end
      | None =>
          match s with
          | _ :: s' => finditer_from r (S pos) 0 s'
          | [] => []
          end
      end
  end.

Definition finditer (r : regex) (s : str) : list Match := finditer_from r 0 0 s.

(** ** The patterns of the script

    Each pattern is quoted above its transcription, with [{0,}] for a star
    that stands before a closing parenthesis. *)

Definition quote := OneOf [CChar squote; CChar dquote].
Definition not_quote := NoneOf [CChar squote; CChar dquote].
Definition not_rparen := NoneOf [CChar 41%N].
Definition not_lbrace := NoneOf [CChar 123%N].
Definition not_eq_gt := NoneOf [CChar 61%N; CChar 62%N].
Definition not_colon := NoneOf [CChar 58%N].
Definition not_space := NoneOf [CSpace].

(** [import\s+.*?\s+from\s+['\x22](\.[^'\x22]+)['\x22]], writing [\x22] for
    the double quote *)
Definition ts_import_pattern : regex :=
  cat [chr "import"; plus space; lazy_star dot; plus space; chr "from"; plus space;
       One quote; Grp 1 (cat [chr "."; plus not_quote]); One quote].

(** [export\s+(?:const|let|var|function|class|interface|type|enum)\s+(\w+)] *)
Definition export_pattern : regex :=
  cat [chr "export"; plus space;
       alt [chr "const"; chr "let"; chr "var"; chr "function"; chr "class";
            chr "interface"; chr "type"; chr "enum"];
       plus space; Grp 1 (plus word)].

(** [export\s+default\s+(\w+)] *)
Definition default_export_pattern : regex :=
  cat [chr "export"; plus space; chr "default"; plus space; Grp 1 (plus word)].

(** [(export\s+)?KEYWORD\s+(\w+)], for [interface], [type], [enum], [class] *)
Definition decl_pattern (keyword : string) : regex :=
  cat [Opt (Grp 1 (cat [chr "export"; plus space])); chr keyword; plus space;
       Grp 2 (plus word)].

Definition interface_pattern := decl_pattern "interface".
Definition type_pattern := decl_pattern "type".
Definition enum_pattern := decl_pattern "enum".
Definition ts_class_pattern := decl_pattern "class".

(** [(?:public|private|protected)?\s*(async\s+)?(\w+)\s*\(([^)]{0,})\)(?:\s*:\s*([^\{]+))?\s*\{] *)
Definition ts_method_pattern : regex :=
  cat [Opt (alt [chr "public"; chr "private"; chr "protected"]); star space;
       Opt (Grp 1 (cat [chr "async"; plus space])); Grp 2 (plus word); star space;
       chr "("; Grp 3 (star not_rparen); chr ")";
       Opt (cat [star space; chr ":"; star space; Grp 4 (plus not_lbrace)]);
       star space; chr "{"].

(** [(export\s+)?(async\s+)?function\s+(\w+)\s*\(([^)]{0,})\)(?:\s*:\s*([^\{]+))?\s*\{] *)
Definition function_pattern : regex :=
  cat [Opt (Grp 1 (cat [chr "export"; plus space]));
       Opt (Grp 2 (cat [chr "async"; plus space]));
       chr "function"; plus space; Grp 3 (plus word); star space;
       chr "("; Grp 4 (star not_rparen); chr ")";
       Opt (cat [star space; chr ":"; star space; Grp 5 (plus not_lbrace)]);
       star space; chr "{"].

(** [(export\s+)?(?:const|let|var)\s+(\w+)\s*=\s*(async\s+)?\(([^)]{0,})\)(?:\s*:\s*([^\=\>]+))?\s*=>] *)
Definition arrow_pattern : regex :=
  cat [Opt (Grp 1 (cat [chr "export"; plus space]));
       alt [chr "const"; chr "let"; chr "var"]; plus space; Grp 2 (plus word);
       star space; chr "="; star space;
       Opt (Grp 3 (cat [chr "async"; plus space]));
       chr "("; Grp 4 (star not_rparen); chr ")";
       Opt (cat [star space; chr ":"; star space; Grp 5 (plus not_eq_gt)]);
       star space; chr "=>"].

Definition func_patterns : list regex := [function_pattern; arrow_pattern].

(** [from\s+(\.[^\s]+)\s+import] *)
Definition py_import_pattern : regex :=
  cat [chr "from"; plus space; Grp 1 (cat [chr "."; plus not_space]); plus space;
       chr "import"].

(** [class\s+(\w+)] *)
Definition py_class_pattern : regex :=
  cat [chr "class"; plus space; Grp 1 (plus word)].

(** [(?:async\s+)?def\s+(\w+)\s*\(([^)]{0,})\)(?:\s*->\s*([^:]+))?:], the method
    pattern and the function pattern alike *)
Definition def_pattern : regex :=
  cat [Opt (cat [chr "async"; plus space]); chr "def"; plus space;
       Grp 1 (plus word); star space; chr "("; Grp 2 (star not_rparen); chr ")";
       Opt (cat [star space; chr "->"; star space; Grp 3 (plus not_colon)]);
       chr ":"].

(** ** The test-existence probe *)

(** [s.rfind(c)] *)
Fixpoint rfind (c : char) (s : str) : option nat :=
  match s with
  | [] => None
  | x :: s' =>
      match rfind c s' with
      | Some i => Some (S i)
      | None => if N.eqb x c then Some 0 else None
      end
  end.

(** [path.suffix]: the name from its last dot on, when that dot is neither
    the first nor the last character of the name. *)
Definition suffix (p : Path) : str :=
  match rfind 46%N (p_name p) with
  | Some i =>
      if Nat.ltb 0 i && Nat.ltb i (length (p_name p) - 1)
      then skipn i (p_name p) else []
  | None => []
  end.

(** [path.with_suffix(sfx)].  The suffixes the script passes begin with a dot
    and are cut from a path component, so of pathlib's checks only the one of
    the name can fail. *)
Definition with_suffix (p : Path) (sfx : str) : exc Path :=
  match p_name p with
  | [] => Raise ValueError
  | _ :: _ =>
      let old_suffix := suffix p in
      Ok (mkPath (p_parent p)
            (firstn (length (p_name p) - length old_suffix) (p_name p) ++ sfx))
  end.

(** [path.parent / '__tests__' / name] *)
Definition in_tests_dir (p : Path) (name : str) : Path :=
  mkPath (p_parent p ++ [lit "__tests__"]) name.

(** [any(p.exists() for p in patterns)]: the paths are asked in order, up to
    the first that exists. *)
Fixpoint any_exists (fs : FS) (patterns : list Path) : exc bool :=
  match patterns with
  | [] => Ok false
  | p :: rest =>
      found <- fs_exists fs p ;;
      if found then Ok true else any_exists fs rest
  end.

Definition check_has_tests (fs : FS) (file_path : Path) : exc bool :=
  p1 <- with_suffix file_path (lit ".test" ++ suffix file_path) ;;
  p2 <- with_suffix file_path (lit ".spec" ++ suffix file_path) ;;
  let p3 := in_tests_dir file_path (p_name file_path) in
  t <- with_suffix file_path (lit ".test" ++ suffix file_path) ;;
  let p4 := in_tests_dir file_path (p_name t) in
  s <- with_suffix file_path (lit ".spec" ++ suffix file_path) ;;
  let p5 := in_tests_dir file_path (p_name s) in
  any_exists fs [p1; p2; p3; p4; p5].

(** ** [analyze_typescript_file] *)

(** The signature of a declaration: [f"({params})"], then the return type
    after [sep] when there is one. *)
Definition render_signature (sep params return_type : str) : str :=
  let signature := lit "(" ++ params ++ lit ")" in
  match return_type with
  | [] => signature
  | _ :: _ => signature ++ sep ++ return_type
  end.

(** The body of the loop over the method matches of a class section. *)
Definition ts_method_step (class_name : pyval) (methods : list FunctionInfo)
    (method_match : Match) : exc (list FunctionInfo) :=
  let is_async := is_not_None (group 1 method_match) in
  let method_name := group 2 method_match in
  params <- strip_of (group 3 method_match) ;;
  return_type <- strip_or_empty (group 4 method_match) ;;
  if pyval_in method_name [Some (lit "constructor"); class_name]
  then Ok methods
  else
    let signature := render_signature (lit ": ") params return_type in
    Ok (methods ++ [mkFunctionInfo method_name signature is_async false]).

Definition ts_class_step (content : str) (analysis : FileAnalysis) (m : Match)
    : exc FileAnalysis :=
  let is_exported := is_not_None (group 1 m) in
  let class_name := group 2 m in
  let class_pos := m_end m in
  let class_section := slice content class_pos (class_pos + 2000) in
  methods <- for_each (finditer ts_method_pattern class_section)
               (ts_method_step class_name) [] ;;
  Ok (append_class analysis (mkClassInfo class_name methods is_exported)).

(** The body of the loop over the matches of one of [func_patterns].  Both
    patterns have five groups, so the script's test [len(groups) == 5] sends
    the matches of both through its first branch. *)
Definition ts_function_step (pattern : regex) (analysis : FileAnalysis) (m : Match)
    : exc FileAnalysis :=
  fields <-
    (if Nat.eqb (ngroups pattern) 5 then
       let is_exported := is_not_None (group 1 m) in
       let is_async := is_not_None (group 2 m) in
       let func_name := group 3 m in
       params <- strip_of (group 4 m) ;;
       return_type <- strip_or_empty (group 5 m) ;;
       Ok (is_exported, is_async, func_name, params, return_type)
     else
       let is_exported := is_not_None (group 1 m) in
       let func_name := group 2 m in
       let is_async := is_not_None (group 3 m) in
       params <- strip_of (group 4 m) ;;
       return_type <- strip_or_empty (group 5 m) ;;
       Ok (is_exported, is_async, func_name, params, return_type)) ;;
  let '(is_exported, is_async, func_name, params, return_type) := fields in
  let signature := render_signature (lit ": ") params return_type in
  Ok (append_function analysis
        (mkFunctionInfo func_name signature is_async is_exported)).

Definition type_step (kind : type_kind) (analysis : FileAnalysis) (m : Match)
    : FileAnalysis :=
  let is_exported := is_not_None (group 1 m) in
  append_type analysis (mkTypeInfo (group 2 m) kind is_exported).

Definition analyze_typescript_file (fs : FS) (content : str) (file_path : Path)
    : exc FileAnalysis :=
  let analysis := FileAnalysis_new in
  let analysis :=
    fold_left (fun a m => append_import a (group 1 m))
      (finditer ts_import_pattern content) analysis in
  let analysis :=
    fold_left (fun a m => append_export a (group 1 m))
      (finditer export_pattern content) analysis in
  let analysis :=
    fold_left (fun a m => append_export a (Some (lit "default: " ++ fmt (group 1 m))))
      (finditer default_export_pattern content) analysis in
  let analysis :=
    fold_left (type_step KInterface) (finditer interface_pattern content) analysis in
  let analysis :=
    fold_left (type_step KType) (finditer type_pattern content) analysis in
  let analysis :=
    fold_left (type_step KEnum) (finditer enum_pattern content) analysis in
  analysis <-
    for_each (finditer ts_class_pattern content) (ts_class_step content) analysis ;;
  analysis <-
    for_each func_patterns
      (fun a pattern => for_each (finditer pattern content) (ts_function_step pattern) a)
      analysis ;;
  has <- check_has_tests fs file_path ;;
  Ok (set_has_tests analysis has).

(** ** [analyze_python_file] *)

Definition py_method_step (methods : list FunctionInfo) (method_match : Match)
    : exc (list FunctionInfo) :=
  let is_async := contains (group0 method_match) (lit "async") in
  let method_name := group 1 method_match in
  params <- strip_of (group 2 method_match) ;;
  return_type <- strip_or_empty (group 3 method_match) ;;
  dunder <- startswith_of method_name (lit "__") ;;
  if dunder && negb (pyval_eqb method_name (Some (lit "__init__")))
  then Ok methods
  else
    let signature := render_signature (lit " -> ") params return_type in
    Ok (methods ++ [mkFunctionInfo method_name signature is_async false]).

Definition py_class_step (content : str) (analysis : FileAnalysis) (m : Match)
    : exc FileAnalysis :=
  let class_name := group 1 m in
  let class_pos := m_end m in
  let class_section := slice content class_pos (class_pos + 2000) in
  methods <- for_each (finditer def_pattern class_section) py_method_step [] ;;
  Ok (append_class analysis (mkClassInfo class_name methods false)).

(** [[m.name for c in analysis.classes for m in c.methods]] *)
Definition method_names (analysis : FileAnalysis) : list pyval :=
  flat_map (fun c => map fn_name (cl_methods c)) (classes analysis).

Definition py_function_step (analysis : FileAnalysis) (m : Match) : exc FileAnalysis :=
  let is_async := contains (group0 m) (lit "async") in
  let func_name := group 1 m in
  params <- strip_of (group 2 m) ;;
  return_type <- strip_or_empty (group 3 m) ;;
  if pyval_in func_name (method_names analysis)
  then Ok analysis
  else
    let signature := render_signature (lit " -> ") params return_type in
    Ok (append_function analysis (mkFunctionInfo func_name signature is_async false)).

Definition analyze_python_file (fs : FS) (content : str) (file_path : Path)
    : exc FileAnalysis :=
  let analysis := FileAnalysis_new in
  let analysis :=
    fold_left (fun a m => append_import a (group 1 m))
      (finditer py_import_pattern content) analysis in
  analysis <-
    for_each (finditer py_class_pattern content) (py_class_step content) analysis ;;
  analysis <- for_each (finditer def_pattern content) py_function_step analysis ;;
  has <- check_has_tests fs file_path ;;
  Ok (set_has_tests analysis has).

(** ** [analyze_file] *)

Definition CODE_EXTENSIONS : list str :=
  map lit [".ts"; ".tsx"; ".js"; ".jsx"; ".py"; ".java"; ".go"; ".rs";
           ".c"; ".cpp"; ".h"; ".hpp"]%string.

Definition str_in (s : str) (l : list str) : bool := existsb (str_eqb s) l.

(** How a decoder treats bytes that are not UTF-8: [errors='strict'] raises,
    [errors='ignore'] drops them and goes on. *)
Inductive error_handler : Type := Strict | Ignore.

Definition continuation (b : N) : bool := ((128 <=? b) && (b <=? 191))%N.

(** The range of the second byte of a three-byte and of a four-byte sequence
    (no overlong forms, no surrogates, nothing above U+10FFFF). *)
Definition second_of_3 (b0 b1 : N) : bool :=
  (if b0 =? 224 then (160 <=? b1) && (b1 <=? 191)
   else if b0 =? 237 then (128 <=? b1) && (b1 <=? 159)
   else continuation b1)%N.
Definition second_of_4 (b0 b1 : N) : bool :=
  (if b0 =? 240 then (144 <=? b1) && (b1 <=? 191)
   else if b0 =? 244 then (128 <=? b1) && (b1 <=? 143)
   else continuation b1)%N.

(** [bytes.decode('utf-8', errors)]; [None] is the [UnicodeDecodeError] of the
    strict handler.  At an error the ignoring handler drops the bytes of the
    sequence read so far and resumes at the offending byte; a sequence cut
    off by the end of the data is dropped whole. *)
Fixpoint utf8_decode (errors : error_handler) (bs : list Byte.byte) : option str :=
  let resume (rest : option str) : option str :=
    match errors with Strict => None | Ignore => rest end in
  let emit (c : N) (rest : option str) : option str :=
    match rest with Some s => Some (c :: s) | None => None end in
  match bs with
  | [] => Some []
  | x0 :: t0 =>
      let b0 := Byte.to_N x0 in
      if (b0 <? 128)%N then emit b0 (utf8_decode errors t0)
      else if ((194 <=? b0) && (b0 <=? 223))%N then
        match t0 with
        | [] => resume (Some [])
        | x1 :: t1 =>
            let b1 := Byte.to_N x1 in
            if continuation b1
            then emit ((b0 - 192) * 64 + (b1 - 128))%N (utf8_decode errors t1)
            else resume (utf8_decode errors t0)
        end
      else if ((224 <=? b0) && (b0 <=? 239))%N then
        match t0 with
        | [] => resume (Some [])
        | x1 :: t1 =>
            let b1 := Byte.to_N x1 in
            if second_of_3 b0 b1 then
              match t1 with
              | [] => resume (Some [])
              | x2 :: t2 =>
                  let b2 := Byte.to_N x2 in
                  if continuation b2
                  then emit ((b0 - 224) * 4096 + (b1 - 128) * 64 + (b2 - 128))%N
                         (utf8_decode errors t2)
                  else resume (utf8_decode errors t1)
              end
            else resume (utf8_decode errors t0)
        end
      else if ((240 <=? b0) && (b0 <=? 244))%N then
        match t0 with
        | [] => resume (Some [])
        | x1 :: t1 =>
            let b1 := Byte.to_N x1 in
            if second_of_4 b0 b1 then
              match t1 with
              | [] => resume (Some [])
              | x2 :: t2 =>
                  let b2 := Byte.to_N x2 in
                  if continuation b2 then
                    match t2 with
                    | [] => resume (Some [])
                    | x3 :: t3 =>
                        let b3 := Byte.to_N x3 in
                        if continuation b3
                        then emit ((b0 - 240) * 262144 + (b1 - 128) * 4096
                                   + (b2 - 128) * 64 + (b3 - 128))%N
                               (utf8_decode errors t3)
                        else resume (utf8_decode errors t2)
                    end
                  else resume (utf8_decode errors t1)
              end
            else resume (utf8_decode errors t0)
        end
      else resume (utf8_decode errors t0)
  end.

(** Text mode with the default [newline=None]: [\r\n] and [\r] are read as
    [\n]. *)
Fixpoint universal_newlines (s : str) : str :=
  match s with
  | [] => []
  | c :: s' =>
      if (c =? 13)%N then
        match s' with
        | d :: s'' => if (d =? 10)%N then newline :: universal_newlines s''
                      else newline :: universal_newlines s'
        | [] => [newline]
        end
      else c :: universal_newlines s'
  end.

(** [open(file_path, 'r', encoding='utf-8', errors='ignore').read()], inside
    the [try] of [analyze_file]: [None] when it raises. *)
Definition read_text (fs : FS) (file_path : Path) : option str :=
  match fs_read fs file_path with
  | ReadFails => None
  | ReadBytes b =>
      match utf8_decode Ignore b with
      | Some s => Some (universal_newlines s)
      | None => None
      end
  end.

(** [analyze_file]: [Ok None] is the script's [return None]. *)
Definition analyze_file (fs : FS) (file_path : Path) : exc (option FileAnalysis) :=
  let ext := lower (suffix file_path) in
  if negb (str_in ext CODE_EXTENSIONS) then Ok None
  else
    match read_text fs file_path with
    | None => Ok None
    | Some content =>
        if str_in ext (map lit [".ts"; ".tsx"; ".js"; ".jsx"]%string) then
          a <- analyze_typescript_file fs content file_path ;; Ok (Some a)
        else if str_eqb ext (lit ".py") then
          a <- analyze_python_file fs content file_path ;; Ok (Some a)
        else
          has <- check_has_tests fs file_path ;;
          Ok (Some (set_has_tests FileAnalysis_new has))
    end.

(** ** The lines written for one file by [generate_compact_index] *)

Inductive Line : Type :=
| FILE (rel_path : str) (size : nat) (has_tests : bool)
| IMPORT (rel_path : str) (import_path : pyval)
| EXPORT (rel_path : str) (export_name : pyval)
| TYPE (rel_path : str) (name : pyval) (kind : type_kind) (is_exported : bool)
| CLASS (rel_path : str) (name : pyval) (is_exported : bool)
| METHOD (rel_path : str) (class_name method_name : pyval) (is_async : bool)
| FUNC (rel_path : str) (name : pyval) (is_async is_exported : bool).

Definition class_lines (rel_path : str) (class_info : ClassInfo) : list Line :=
  CLASS rel_path (cl_name class_info) (cl_is_exported class_info) ::
  map (fun method => METHOD rel_path (cl_name class_info) (fn_name method)
                       (fn_is_async method))
    (firstn 10 (cl_methods class_info)).

Definition analysis_lines (rel_path : str) (analysis : FileAnalysis) : list Line :=
  map (IMPORT rel_path) (firstn 5 (imports analysis))
  ++ map (EXPORT rel_path) (firstn 10 (exports analysis))
  ++ map (fun t => TYPE rel_path (ty_name t) (ty_kind t) (ty_is_exported t))
       (types analysis)
  ++ flat_map (class_lines rel_path) (classes analysis)
  ++ map (fun f => FUNC rel_path (fn_name f) (fn_is_async f) (fn_is_exported f))
       (firstn 15 (functions analysis)).

(** What the loop body of [generate_compact_index] writes for a file entry,
    from the [FILE] line on. *)
Definition file_lines (rel_path : str) (size : nat) (analysis : option FileAnalysis)
    : list Line :=
  let has_tests :=
    match analysis with Some a => has_tests a | None => false end in
  FILE rel_path size has_tests ::
  match analysis with
  | Some a => analysis_lines rel_path a
  | None => []
  end.

Definition index_file (fs : FS) (entry : Path) (rel_path : str) (size : nat)
    : exc (list Line) :=
  analysis <- analyze_file fs entry ;;
  Ok (file_lines rel_path size analysis).

(** The text of a line, as the [write] calls format it. *)
Definition kind_text (k : type_kind) : str :=
  match k with
  | KInterface => lit "interface"
  | KType => lit "type"
  | KEnum => lit "enum"
  end.

Definition flag (b : bool) : str := if b then lit "1" else lit "0".

Definition decimal (n : nat) : str := lit (NilEmpty.string_of_uint (Nat.to_uint n)).

Definition bar : str := lit "|".

Definition render (l : Line) : str :=
  match l with
  | FILE p size ht =>
      lit "FILE|" ++ p ++ bar ++ decimal size ++ bar
      ++ (if ht then lit "true" else lit "false") ++ [newline]
  | IMPORT p i => lit "IMPORT|" ++ p ++ bar ++ fmt i ++ [newline]
  | EXPORT p e => lit "EXPORT|" ++ p ++ bar ++ fmt e ++ [newline]
  | TYPE p n k e =>
      lit "TYPE|" ++ p ++ bar ++ fmt n ++ bar ++ kind_text k ++ bar ++ flag e ++ [newline]
  | CLASS p n e => lit "CLASS|" ++ p ++ bar ++ fmt n ++ bar ++ flag e ++ [newline]
  | METHOD p c m a =>
      lit "METHOD|" ++ p ++ bar ++ fmt c ++ bar ++ fmt m ++ bar ++ flag a ++ [newline]
  | FUNC p n a e =>
      lit "FUNC|" ++ p ++ bar ++ fmt n ++ bar ++ flag a ++ bar ++ flag e ++ [newline]
  end.

(** The kind of a line: its first field. *)
Inductive tag : Type := TFILE | TIMPORT | TEXPORT | TTYPE | TCLASS | TMETHOD | TFUNC.

Definition tag_of (l : Line) : tag :=
  match l with
  | FILE _ _ _ => TFILE
  | IMPORT _ _ => TIMPORT
  | EXPORT _ _ => TEXPORT
  | TYPE _ _ _ _ => TTYPE
  | CLASS _ _ _ => TCLASS
  | METHOD _ _ _ _ => TMETHOD
  | FUNC _ _ _ _ => TFUNC
  end.

Definition tag_text (t : tag) : str :=
  match t with
  | TFILE => lit "FILE"
  | TIMPORT => lit "IMPORT"
  | TEXPORT => lit "EXPORT"
  | TTYPE => lit "TYPE"
  | TCLASS => lit "CLASS"
  | TMETHOD => lit "METHOD"
  | TFUNC => lit "FUNC"
  end.

Definition tag_eqb (a b : tag) : bool :=
  match a, b with
  | TFILE, TFILE | TIMPORT, TIMPORT | TEXPORT, TEXPORT | TTYPE, TTYPE
  | TCLASS, TCLASS | TMETHOD, TMETHOD | TFUNC, TFUNC => true
  | _, _ => false
  end.

(** How many lines of a kind a list of lines has. *)
Definition count_lines (t : tag) (ls : list Line) : nat :=
  length (filter (fun l => tag_eqb (tag_of l) t) ls).

(** ** What the records say of the matches

    The vocabulary of the statements below. *)

Definition is_quote (c : char) : bool := N.eqb c squote || N.eqb c dquote.

(** The return type a declaration is rendered with: the stripped text of the
    group, nothing when the group is [None]. *)
Definition return_type_of (v : pyval) : str :=
  match v with Some t => strip t | None => [] end.

(** [f] is the declaration the script records for the match [m] of
    [def_pattern]. *)
Definition py_def_describes (f : FunctionInfo) (m : Match) : Prop :=
  fn_name f = group 1 m /\
  fn_is_async f = contains (group0 m) (lit "async") /\
  fn_is_exported f = false /\
  exists params, group 2 m = Some params /\
    fn_signature f = render_signature (lit " -> ") (strip params) (return_type_of (group 3 m)).

(** The methods kept of a kind-B class section: those whose name does not
    begin with two underscores, and [__init__]. *)
Definition py_keeps (name : pyval) : bool :=
  match name with
  | Some n => negb (startswith n (lit "__") && negb (str_eqb n (lit "__init__")))
  | None => false
  end.

(** [f] is the method the script records for the match [mm] of
    [ts_method_pattern]. *)
Definition ts_method_describes (f : FunctionInfo) (mm : Match) : Prop :=
  fn_name f = group 2 mm /\
  fn_is_async f = is_not_None (group 1 mm) /\
  fn_is_exported f = false /\
  exists params, group 3 mm = Some params /\
    fn_signature f = render_signature (lit ": ") (strip params) (return_type_of (group 4 mm)).

(** The methods kept of a kind-A class section: all but the constructor. *)
Definition ts_keeps (class_name : pyval) (mm : Match) : bool :=
  negb (pyval_in (group 2 mm) [Some (lit "constructor"); class_name]).

(** [f] is the function the script records for a match [m] of one of
    [func_patterns], read through the branch for five groups. *)
Definition ts_function_describes (f : FunctionInfo) (m : Match) : Prop :=
  fn_name f = group 3 m /\
  fn_is_async f = is_not_None (group 2 m) /\
  fn_is_exported f = is_not_None (group 1 m) /\
  exists params, group 4 m = Some params /\
    fn_signature f = render_signature (lit ": ") (strip params) (return_type_of (group 5 m)).

(** The section of the text searched for the methods of a class match. *)
Definition class_section (content : str) (m : Match) : str :=
  slice content (m_end m) (m_end m + 2000).

(** The declaration of the spec's example, and the function it describes. *)
Definition foo_declaration : str := lit "export function foo(a: number): string {}".

Definition foo_info : FunctionInfo :=
  mkFunctionInfo (Some (lit "foo")) (lit "(a: number): string") false true.

(** ** What a match is

    The matcher finds the first match in the order of its choices; [matches]
    says what any match of a pattern looks like: [matches r i w g g'] when
    [r] matches exactly the text [w], standing at offset [i], and turns the
    groups [g] into [g']. *)

Inductive matches : regex -> nat -> str -> caps -> caps -> Prop :=
| MLit l i g : matches (Lit l) i l g g
| MOne c x i g : cmatch c x = true -> matches (One c) i [x] g g
| MRep c lo greedy w i g :
    Forall (fun x => cmatch c x = true) w -> lo <= length w ->
    matches (Rep c lo greedy) i w g g
| MSeq r1 r2 w1 w2 i g g1 g2 :
    matches r1 i w1 g g1 -> matches r2 (i + length w1) w2 g1 g2 ->
    matches (Seq r1 r2) i (w1 ++ w2) g g2
| MAltL r1 r2 w i g g' : matches r1 i w g g' -> matches (Alt r1 r2) i w g g'
| MAltR r1 r2 w i g g' : matches r2 i w g g' -> matches (Alt r1 r2) i w g g'
| MOptSome r w i g g' : matches r i w g g' -> matches (Opt r) i w g g'
| MOptNone r i g : matches (Opt r) i [] g g
| MGrp n r w i g g' :
    matches r i w g g' -> matches (Grp n r) i w g ((n, (i, i + length w)) :: g').

(** Whether group [n] is set by every match of a pattern. *)
Fixpoint binds (n : nat) (r : regex) : bool :=
  match r with
  | Lit _ | One _ | Rep _ _ _ | Opt _ => false
  | Seq r1 r2 => binds n r1 || binds n r2
  | Alt r1 r2 => binds n r1 && binds n r2
  | Grp m r1 => Nat.eqb n m || binds n r1
  end.

(** The least length of a match of a pattern. *)
Fixpoint min_len (r : regex) : nat :=
  match r with
  | Lit l => length l
  | One _ => 1
  | Rep _ lo _ => lo
  | Seq r1 r2 => min_len r1 + min_len r2
  | Alt r1 r2 => Nat.min (min_len r1) (min_len r2)
  | Opt _ => 0
  | Grp _ r1 => min_len r1
  end.

(** The patterns inside the capture groups numbered [n]. *)
Fixpoint group_bodies (n : nat) (r : regex) : list regex :=
  match r with
  | Lit _ | One _ | Rep _ _ _ => []
  | Seq r1 r2 | Alt r1 r2 => group_bodies n r1 ++ group_bodies n r2
  | Opt r1 => group_bodies n r1
  | Grp m r1 => (if Nat.eqb n m then [r1] else []) ++ group_bodies n r1
  end.

(** ** More vocabulary: identifiers and white space *)

(** An identifier: a non-empty text of [\w] characters. *)
Definition identifier (w : str) : Prop :=
  w <> [] /\ Forall (fun c => is_word c = true) w.

(** White space: a non-empty text of [\s] characters. *)
Definition white (w : str) : Prop :=
  w <> [] /\ Forall (fun c => is_space c = true) w.

(** The keyword of a kind of type declaration. *)
Definition kind_keyword (k : type_kind) : string :=
  match k with
  | KInterface => "interface"
  | KType => "type"
  | KEnum => "enum"
  end.

(** The type declaration the script records for the match [m] of the pattern
    of the keyword of [k]: its text is the keyword, white space and an
    identifier, after [export] and white space when it is exported. *)
Definition type_describes (k : type_kind) (t : TypeInfo) (m : Match) : Prop :=
  ty_kind t = k /\
  exists name ws,
    ty_name t = Some name /\ identifier name /\ white ws /\
    ((ty_is_exported t = false /\ group0 m = kind_text k ++ ws ++ name) \/
     (ty_is_exported t = true /\
      exists ws1, white ws1 /\
        group0 m = lit "export" ++ ws1 ++ kind_text k ++ ws ++ name)).

(** The place of a kind of line in the lines of a file. *)
Definition group_rank (t : tag) : nat :=
  match t with
  | TFILE => 0
  | TIMPORT => 1
  | TEXPORT => 2
  | TTYPE => 3
  | TCLASS | TMETHOD => 4
  | TFUNC => 5
  end.

(** ** [generate_compact_index]

    What a call wrote, and the exception it ends with when one leaves it. *)

Inductive Output : Type :=
| Written (l : Line)
| ERROR (directory : str).        (* [ERROR|directory|Permission Denied] *)

(** The key of [sorted] in [generate_compact_index]:
    [(not x.is_dir(), x.name.lower())]. *)
Definition sort_key (e : Entry) : bool * str := (negb (is_dir e), lower (entry_name e)).

(** The branch of the loop body for an entry that is no directory. *)
Definition visit_file (fs : FS) (project_root directory : list str) (name : str)
    (size : nat) : list Output * option pyexn :=
  let entry := directory ++ [name] in
  let rel_path :=
    match relative_to entry project_root with
    | Some rel => path_str rel
    | None => path_str entry
    end in
  match index_file fs (mkPath directory name) rel_path size with
  | Ok lines => (map Written lines, None)
  | Raise e => ([], Some e)
  end.

(** The loop over the entries, each given with what visiting it writes: an
    exception ends the loop. *)
Fixpoint run_entries (visits : list (list Output * option pyexn))
    : list Output * option pyexn :=
  match visits with
  | [] => ([], None)
  | (out, Some e) :: _ => (out, Some e)
  | (out, None) :: rest =>
      let (out', r) := run_entries rest in (out ++ out', r)
  end.

(** [except PermissionError: output_file.write(ERROR ...)] *)
Definition except_PermissionError (directory : list str)
    (res : list Output * option pyexn) : list Output * option pyexn :=
  match res with
  | (out, Some PermissionError) => (out ++ [ERROR (path_str directory)], None)
  | _ => res
  end.

(** The body of [generate_compact_index] for a directory, [visit] being the
    loop body for one entry.  Each entry carries what visiting it writes
    through the sort and the filter, so that the recursion is on the entries
    of the listing; an entry that is filtered out is not visited. *)
Definition index_listing (visit : Entry -> list Output * option pyexn)
    (directory : list str) (listing : option (list Entry))
    : list Output * option pyexn :=
  match listing with
  | None => ([ERROR (path_str directory)], None)
  | Some children =>
      let entries :=
        sorted (fun p => sort_key (fst p)) (map (fun e => (e, visit e)) children) in
      let entries :=
        filter (fun p => negb (should_exclude (entry_name (fst p)) (is_dir (fst p))))
          entries in
      except_PermissionError directory (run_entries (map snd entries))
  end.

Fixpoint visit_entry (fs : FS) (project_root directory : list str) (entry : Entry)
    : list Output * option pyexn :=
  match entry with
  | EDir name listing =>
      index_listing (visit_entry fs project_root (directory ++ [name]))
        (directory ++ [name]) listing
  | EFile name _ size => visit_file fs project_root directory name size
  end.

Definition generate_compact_index (fs : FS) (project_root directory : list str)
    (listing : option (list Entry)) : list Output * option pyexn :=
  index_listing (visit_entry fs project_root directory) directory listing.

(** The entries of a listing that the walk visits, in the order it visits
    them. *)
Definition visited (children : list Entry) : list Entry :=
  filter (fun e => negb (should_exclude (entry_name e) (is_dir e)))
    (sorted sort_key children).

(** How many lines of a kind a walk wrote, and how many [ERROR] lines. *)
Definition count_written (t : tag) (out : list Output) : nat :=
  length (filter (fun o => match o with
                           | Written l => tag_eqb (tag_of l) t
                           | ERROR _ => false
                           end) out).

Definition count_errors (out : list Output) : nat :=
  length (filter (fun o => match o with Written _ => false | ERROR _ => true end) out).

(** Whether every entry of a tree that is no directory is a regular file. *)
Fixpoint all_regular (e : Entry) : bool :=
  match e with
  | EFile _ regular _ => regular
  | EDir _ None => true
  | EDir _ (Some children) => forallb all_regular children
  end.

(** The order of two entries by their names in lower case. *)
Definition by_name (a b : Entry) : Prop :=
  str_leb (lower (entry_name a)) (lower (entry_name b)) = true.

(** Whether the walk visits an entry of a listing. *)
Definition kept (e : Entry) : bool := negb (should_exclude (entry_name e) (is_dir e)).

(** The path a line carries: its second field. *)
Definition line_path (l : Line) : str :=
  match l with
  | FILE p _ _ | IMPORT p _ | EXPORT p _ | TYPE p _ _ _ | CLASS p _ _
  | METHOD p _ _ _ | FUNC p _ _ _ => p
  end.

(** Two lines in the order of their kinds. *)
Definition rank_le (a b : Line) : Prop :=
  group_rank (tag_of a) <= group_rank (tag_of b).

(** ** [main]: what is written to the output file *)

(** [path.name]: the last part, nothing for the root alone. *)
Definition path_name (parts : list str) : str :=
  match parts with
  | [root] => if str_eqb root (lit "/") then [] else root
  | _ => last parts []
  end.

(** The name of the output file in the project root. *)
Definition output_name : str := lit "PROJECT_MAP.txt".

(** The lines of the header. *)
Definition header (project_root : list str) (total_dirs total_files : nat) : list str :=
  [lit "# PROJECT_MAP: " ++ path_name project_root ++ [newline];
   lit "# Total Directories: " ++ decimal total_dirs ++ lit " | Total Files: "
     ++ decimal total_files ++ [newline];
   lit "# Excluded: Hidden dirs (.*" ++ lit "), node_modules, dist, build, etc."
     ++ [newline];
   lit "# Supported: TypeScript, JavaScript, Python" ++ [newline];
   lit "# Format: TYPE|field1|field2|..." ++ [newline];
   lit "#   FILE|path|size_bytes|has_tests" ++ [newline];
   lit "#   IMPORT|file|import_path" ++ [newline];
   lit "#   EXPORT|file|export_name" ++ [newline];
   lit "#   TYPE|file|name|kind|is_exported" ++ [newline];
   lit "#   CLASS|file|name|is_exported" ++ [newline];
   lit "#   METHOD|file|class|name|is_async" ++ [newline];
   lit "#   FUNC|file|name|is_async|is_exported" ++ [newline];
   lit "# ---" ++ [newline]].

(** [main], as far as the output file goes (the messages on the console are
    left out): the header with the counts, then the index.  The project root
    is listed twice, by [count_items] before the output file is opened and by
    [generate_compact_index] after: [before] and [during] are what the two
    find. *)
Definition main (fs : FS) (project_root : list str)
    (before during : option (list Entry))
    : list str * (list Output * option pyexn) :=
  let (total_files, total_dirs) := count_items before in
  (header project_root total_dirs total_files,
   generate_compact_index fs project_root project_root during).

(** * Properties of the matcher *)

Lemma strip_prefix_app p s s' : strip_prefix p s = Some s' -> s = p ++ s'.
Proof.
  revert s. induction p as [|x p IH]; intros s H; simpl in H.
  - now inversion H.
  - destruct s as [|y s]; [discriminate|].
    destruct (N.eqb_spec x y); [|discriminate].
    subst. simpl. f_equal. now apply IH.
Qed.

Lemma strip_prefix_complete p s : strip_prefix p (p ++ s) = Some s.
Proof.
  induction p as [|x p IH]; simpl; [reflexivity|].
  now rewrite N.eqb_refl.
Qed.

Lemma rep_greedy_sound R c lo i s k (x : R) :
  rep_greedy c lo i s k = Some x ->
  exists w s', s = w ++ s' /\ Forall (fun y => cmatch c y = true) w /\
               lo <= length w /\ k (i + length w) s' = Some x.
Proof.
  revert lo i. induction s as [|y s IH]; intros lo i H; simpl in H.
  - destruct lo; [|discriminate].
    exists [], []. rewrite Nat.add_0_r. auto.
  - assert (Hstop : match lo with 0 => k i (y :: s) | S _ => None end = Some x ->
                    exists w s', y :: s = w ++ s' /\
                      Forall (fun y => cmatch c y = true) w /\
                      lo <= length w /\ k (i + length w) s' = Some x).
    { destruct lo; [|discriminate]. intros Hk.
      exists [], (y :: s). rewrite Nat.add_0_r. auto. }
    destruct (cmatch c y) eqn:Hy; [|now apply Hstop].
    destruct (rep_greedy c (pred lo) (S i) s k) eqn:Hr; [|now apply Hstop].
    inversion H; subst. apply IH in Hr.
    destruct Hr as (w & s' & -> & Hw & Hlo & Hk).
    exists (y :: w), s'. simpl. repeat split; auto; try lia.
    now rewrite Nat.add_succ_r.
Qed.

Lemma rep_lazy_sound R c lo i s k (x : R) :
  rep_lazy c lo i s k = Some x ->
  exists w s', s = w ++ s' /\ Forall (fun y => cmatch c y = true) w /\
               lo <= length w /\ k (i + length w) s' = Some x.
Proof.
  revert lo i. induction s as [|y s IH]; intros lo i H.
  - destruct lo; simpl in H; [|discriminate].
    destruct (k i []) eqn:Hk; [|discriminate].
    exists [], []. rewrite Nat.add_0_r. inversion H; subst. auto.
  - assert (Hmore : (if cmatch c y then rep_lazy c (pred lo) (S i) s k else None) = Some x ->
                    exists w s', y :: s = w ++ s' /\
                      Forall (fun y => cmatch c y = true) w /\
                      lo <= length w /\ k (i + length w) s' = Some x).
    { destruct (cmatch c y) eqn:Hy; [|discriminate]. intros Hr.
      apply IH in Hr. destruct Hr as (w & s' & -> & Hw & Hlo & Hk).
      exists (y :: w), s'. simpl. repeat split; auto; try lia.
      now rewrite Nat.add_succ_r. }
    destruct lo; simpl in H; [|now apply Hmore].
    destruct (k i (y :: s)) eqn:Hk; [|now apply Hmore].
    inversion H; subst.
    exists [], (y :: s). rewrite Nat.add_0_r. auto using Nat.le_0_l.
Qed.

(** Whatever the matcher returns went through its continuation at the end of
    a match of the pattern. *)
Lemma exec_sound R r : forall i s g k (x : R),
  exec r i s g k = Some x ->
  exists w s' g', s = w ++ s' /\ matches r i w g g' /\ k (i + length w) s' g' = Some x.
Proof.
  induction r as [l|c|c lo gr|r1 IH1 r2 IH2|r1 IH1 r2 IH2|r1 IH1|n r1 IH1];
    intros i s g k x H; simpl in H.
  - destruct (strip_prefix l s) as [s'|] eqn:Hp; [|discriminate].
    apply strip_prefix_app in Hp. exists l, s', g. auto using MLit.
  - destruct s as [|y s]; [discriminate|].
    destruct (cmatch c y) eqn:Hy; [|discriminate].
    exists [y], s, g. simpl. rewrite Nat.add_1_r. auto using MOne.
  - destruct gr.
    + apply rep_greedy_sound in H. destruct H as (w & s' & -> & Hw & Hlo & Hk).
      exists w, s', g. auto using MRep.
    + apply rep_lazy_sound in H. destruct H as (w & s' & -> & Hw & Hlo & Hk).
      exists w, s', g. auto using MRep.
  - apply IH1 in H. destruct H as (w1 & s1 & g1 & -> & M1 & H).
    apply IH2 in H. destruct H as (w2 & s2 & g2 & -> & M2 & H).
    exists (w1 ++ w2), s2, g2. rewrite <- app_assoc, length_app, Nat.add_assoc.
    eauto using MSeq.
  - destruct (exec r1 i s g k) eqn:H1.
    + inversion H; subst. apply IH1 in H1.
      destruct H1 as (w & s' & g' & -> & M & Hk). exists w, s', g'. auto using MAltL.
    + apply IH2 in H. destruct H as (w & s' & g' & -> & M & Hk). exists w, s', g'. auto using MAltR.
  - destruct (exec r1 i s g k) eqn:H1.
    + inversion H; subst. apply IH1 in H1.
      destruct H1 as (w & s' & g' & -> & M & Hk). exists w, s', g'. auto using MOptSome.
    + exists [], s, g. rewrite Nat.add_0_r. auto using MOptNone.
  - apply IH1 in H. destruct H as (w & s' & g' & -> & M & Hk).
    exists w, s', ((n, (i, i + length w)) :: g'). auto using MGrp.
Qed.

Lemma match_at_sound r s len g :
  match_at r s = Some (len, g) ->
  exists w s', s = w ++ s' /\ len = length w /\ matches r 0 w [] g.
Proof.
  unfold match_at. intros H. apply exec_sound in H.
  destruct H as (w & s' & g' & -> & M & Hk). inversion Hk; subst. eauto.
Qed.

Lemma matches_binds n r i w g g' :
  matches r i w g g' ->
  span_of n g <> None \/ binds n r = true -> span_of n g' <> None.
Proof.
  induction 1; simpl; intros [Hg|Hb]; auto; try discriminate.
  - apply orb_true_iff in Hb. destruct Hb; auto.
  - apply andb_true_iff in Hb. destruct Hb; auto.
  - apply andb_true_iff in Hb. destruct Hb; auto.
  - destruct (Nat.eqb n n0); [discriminate|auto].
  - destruct (Nat.eqb n n0) eqn:E; [discriminate|]. simpl in Hb. auto.
Qed.

Lemma matches_min_len r i w g g' : matches r i w g g' -> min_len r <= length w.
Proof.
  induction 1; simpl; try lia.
  rewrite length_app. lia.
Qed.

(** No pattern of the script matches the empty string. *)
Lemma script_patterns_consume :
  Forall (fun p => 1 <= min_len p)
    [ts_import_pattern; export_pattern; default_export_pattern; interface_pattern;
     type_pattern; enum_pattern; ts_class_pattern; ts_method_pattern;
     function_pattern; arrow_pattern; py_import_pattern; py_class_pattern;
     def_pattern].
Proof. repeat constructor; vm_compute; lia. Qed.

(** A group that every match of the pattern sets is not [None]. *)
Lemma match_at_group r m n :
  match_at r (m_subject m) = Some (m_len m, m_regs m) -> binds n r = true ->
  exists t, group n m = Some t.
Proof.
  intros H Hb. apply match_at_sound in H. destruct H as (w & s' & _ & _ & M).
  apply matches_binds with (n := n) in M; [|now right].
  unfold group. destruct (span_of n (m_regs m)) as [[a b]|]; [eauto|contradiction].
Qed.

Lemma match_at_length r s len g :
  match_at r s = Some (len, g) -> min_len r <= len <= length s.
Proof.
  intros H. apply match_at_sound in H. destruct H as (w & s' & -> & -> & M).
  apply matches_min_len in M. rewrite length_app. lia.
Qed.

(** Every match of [finditer] is a match of the pattern at some position of
    the text. *)
Lemma finditer_from_In r m : forall s pos skip,
  In m (finditer_from r pos skip s) ->
  exists pre, s = pre ++ m_subject m /\ m_start m = pos + length pre /\
              match_at r (m_subject m) = Some (m_len m, m_regs m).
Proof.
  induction s as [|y s IH]; intros pos skip H.
  - destruct skip; simpl in H; [|contradiction].
    destruct (match_at r []) as [[len g]|] eqn:E; [|contradiction].
    destruct H as [<-|[]]. exists []. simpl. rewrite Nat.add_0_r. auto.
  - assert (Hrec : forall k, In m (finditer_from r (S pos) k s) ->
              exists pre, y :: s = pre ++ m_subject m /\
                m_start m = pos + length pre /\
                match_at r (m_subject m) = Some (m_len m, m_regs m)).
    { intros k Hk. apply IH in Hk. destruct Hk as (pre & -> & Hs & Hm).
      exists (y :: pre). simpl. rewrite Hs. repeat split; auto. }
    destruct skip; simpl in H; [|eauto].
    destruct (match_at r (y :: s)) as [[len g]|] eqn:E; [|eauto].
    destruct H as [<-|H]; [|eauto].
    exists []. simpl. rewrite Nat.add_0_r. auto.
Qed.

Lemma finditer_In r s m :
  In m (finditer r s) ->
  exists pre, s = pre ++ m_subject m /\ m_start m = length pre /\
              match_at r (m_subject m) = Some (m_len m, m_regs m).
Proof. intros H. apply finditer_from_In in H. exact H. Qed.

Lemma finditer_group r s m n :
  In m (finditer r s) -> binds n r = true -> exists t, group n m = Some t.
Proof.
  intros H Hb. apply finditer_In in H. destruct H as (pre & _ & _ & H).
  eauto using match_at_group.
Qed.

(** * Properties of the loops *)

Lemma for_each_inv A S (Inv : list A -> S -> Prop) (body : S -> A -> exc S) l :
  (forall done x s s1, Inv done s -> In x l -> body s x = Ok s1 -> Inv (done ++ [x]) s1) ->
  forall s0 s', Inv [] s0 -> for_each l body s0 = Ok s' -> Inv l s'.
Proof.
  intros Hstep.
  assert (G : forall rest done s0 s', (forall x, In x rest -> In x l) ->
            Inv done s0 -> for_each rest body s0 = Ok s' -> Inv (done ++ rest) s').
  { induction rest as [|x rest IH]; intros done s0 s' Hin H0 H; simpl in H.
    - inversion H; subst. now rewrite app_nil_r.
    - destruct (body s0 x) as [s1|e] eqn:Hb; simpl in H; [|discriminate].
      replace (done ++ x :: rest) with ((done ++ [x]) ++ rest)
        by (rewrite <- app_assoc; reflexivity).
      apply IH with (s0 := s1); auto.
      + intros z Hz. apply Hin. now right.
      + apply Hstep with (s := s0); auto. apply Hin. now left. }
  intros s0 s' H0 H. apply (G l [] s0 s'); auto.
Qed.

Lemma for_each_ok A S (body : S -> A -> exc S) l :
  (forall s x, In x l -> exists s1, body s x = Ok s1) ->
  forall s0, exists s', for_each l body s0 = Ok s'.
Proof.
  induction l as [|x l IH]; intros Hb s0; simpl; [eauto|].
  destruct (Hb s0 x) as (s1 & ->); [now left|]. simpl.
  apply IH. intros s y Hy. apply Hb. now right.
Qed.

Lemma strip_or_empty_ok v : exists t, strip_or_empty v = Ok t.
Proof.
  destruct v as [[|c s]|]; unfold strip_or_empty; cbn [truthy strip_of]; eauto.
Qed.

Lemma ts_method_step_ok class_name section methods mm :
  In mm (finditer ts_method_pattern section) ->
  exists methods', ts_method_step class_name methods mm = Ok methods'.
Proof.
  intros H. unfold ts_method_step.
  destruct (finditer_group _ _ _ 3 H) as (t & ->); [reflexivity|]. cbn [bind strip_of startswith_of].
  destruct (strip_or_empty_ok (group 4 mm)) as (rt & ->). cbn [bind].
  destruct (pyval_in _ _); eauto.
Qed.

Lemma ts_class_step_ok content analysis m :
  exists analysis', ts_class_step content analysis m = Ok analysis'.
Proof.
  unfold ts_class_step. cbv zeta.
  edestruct (for_each_ok Match (list FunctionInfo) (ts_method_step (group 2 m)))
    as (methods & ->).
  - intros s x Hx. eapply ts_method_step_ok. exact Hx.
  - simpl. eauto.
Qed.

Lemma ts_function_step_ok pattern content analysis m :
  In pattern func_patterns -> In m (finditer pattern content) ->
  exists analysis', ts_function_step pattern analysis m = Ok analysis'.
Proof.
  intros Hp Hm. unfold ts_function_step.
  assert (H4 : exists t, group 4 m = Some t).
  { destruct Hp as [<-|[<-|[]]]; apply (finditer_group _ _ _ 4 Hm); reflexivity. }
  destruct H4 as (t & ->).
  destruct (strip_or_empty_ok (group 5 m)) as (rt & ->).
  destruct (Nat.eqb (ngroups pattern) 5); simpl; eauto.
Qed.

Lemma py_method_step_ok section methods mm :
  In mm (finditer def_pattern section) ->
  exists methods', py_method_step methods mm = Ok methods'.
Proof.
  intros H. unfold py_method_step.
  destruct (finditer_group _ _ _ 2 H) as (t & ->); [reflexivity|]. cbn [bind strip_of startswith_of].
  destruct (strip_or_empty_ok (group 3 mm)) as (rt & ->). cbn [bind].
  destruct (finditer_group _ _ _ 1 H) as (name & ->); [reflexivity|]. cbn [bind strip_of startswith_of].
  destruct (_ && _); eauto.
Qed.

Lemma py_class_step_ok content analysis m :
  exists analysis', py_class_step content analysis m = Ok analysis'.
Proof.
  unfold py_class_step. cbv zeta.
  edestruct (for_each_ok Match (list FunctionInfo) py_method_step) as (methods & ->).
  - intros s x Hx. eapply py_method_step_ok. exact Hx.
  - simpl. eauto.
Qed.

Lemma py_function_step_ok content analysis m :
  In m (finditer def_pattern content) ->
  exists analysis', py_function_step analysis m = Ok analysis'.
Proof.
  intros H. unfold py_function_step.
  destruct (finditer_group _ _ _ 2 H) as (t & ->); [reflexivity|]. cbn [bind strip_of startswith_of].
  destruct (strip_or_empty_ok (group 3 m)) as (rt & ->). cbn [bind].
  destruct (pyval_in _ _); eauto.
Qed.

(** The scan of a text never raises: each analysis is a record made from the
    text alone, completed by the answer of the probe. *)
Lemma analyze_typescript_file_ok content :
  exists a, forall fs file_path,
    analyze_typescript_file fs content file_path
    = (has <- check_has_tests fs file_path ;; Ok (set_has_tests a has)).
Proof.
  unfold analyze_typescript_file. cbv zeta.
  edestruct (for_each_ok Match FileAnalysis (ts_class_step content)) as (a1 & ->).
  { intros s x _. apply ts_class_step_ok. }
  cbn [bind].
  edestruct (for_each_ok regex FileAnalysis
               (fun a pattern => for_each (finditer pattern content)
                                   (ts_function_step pattern) a)) as (a2 & ->).
  { intros s pattern Hp. apply for_each_ok. intros s1 m Hm.
    eapply ts_function_step_ok; eauto. }
  cbn [bind]. exists a2. reflexivity.
Qed.

Lemma analyze_python_file_ok content :
  exists a, forall fs file_path,
    analyze_python_file fs content file_path
    = (has <- check_has_tests fs file_path ;; Ok (set_has_tests a has)).
Proof.
  unfold analyze_python_file. cbv zeta.
  edestruct (for_each_ok Match FileAnalysis (py_class_step content)) as (a1 & ->).
  { intros s x _. apply py_class_step_ok. }
  cbn [bind].
  edestruct (for_each_ok Match FileAnalysis py_function_step) as (a2 & ->).
  { intros s m Hm. eapply py_function_step_ok; eauto. }
  cbn [bind]. exists a2. reflexivity.
Qed.

(** ** The text of a group *)

Lemma slice_app_l (w s : str) a b : b <= length w -> slice (w ++ s) a b = slice w a b.
Proof.
  intros H. unfold slice. rewrite skipn_app, firstn_app, length_skipn.
  replace (b - a - (length w - a)) with 0 by lia.
  simpl. now rewrite app_nil_r.
Qed.

Lemma slice_app_r (w1 w2 : str) a b :
  length w1 <= a -> slice (w1 ++ w2) a b = slice w2 (a - length w1) (b - length w1).
Proof.
  intros H. unfold slice. rewrite skipn_app.
  rewrite (skipn_all2 w1) by lia. simpl. f_equal. lia.
Qed.

Lemma slice_all (w : str) : slice w 0 (length w) = w.
Proof. unfold slice. simpl. rewrite Nat.sub_0_r. apply firstn_all. Qed.

(** A group that is set holds a match of the pattern inside it: its span lies
    within the match, and the text of the span matches a body of the group. *)
Lemma matches_group n r i w g g' :
  matches r i w g g' ->
  forall a b, span_of n g' = Some (a, b) ->
  span_of n g = Some (a, b) \/
  (i <= a /\ a <= b /\ b <= i + length w /\
   exists rn ga gb, In rn (group_bodies n r) /\
     matches rn a (slice w (a - i) (b - i)) ga gb).
Proof.
  induction 1; intros a b Hs; auto.
  - (* Seq *)
    destruct (IHmatches2 a b Hs) as [Hmid|(Ha & Hab & Hb & rn & ga & gb & Hin & M)].
    + destruct (IHmatches1 a b Hmid) as [Hold|(Ha & Hab & Hb & rn & ga & gb & Hin & M)];
        [now left|right].
      rewrite length_app. repeat split; try lia.
      exists rn, ga, gb. split; [simpl; apply in_or_app; now left|].
      rewrite slice_app_l by lia. exact M.
    + right. rewrite length_app. repeat split; try lia.
      exists rn, ga, gb. split; [simpl; apply in_or_app; now right|].
      rewrite slice_app_r by lia.
      replace (a - i - length w1) with (a - (i + length w1)) by lia.
      replace (b - i - length w1) with (b - (i + length w1)) by lia.
      exact M.
  - destruct (IHmatches a b Hs) as [Hold|(Ha & Hab & Hb & rn & ga & gb & Hin & M)];
      [now left|right].
    repeat split; auto. exists rn, ga, gb. split; [simpl; apply in_or_app; now left|auto].
  - destruct (IHmatches a b Hs) as [Hold|(Ha & Hab & Hb & rn & ga & gb & Hin & M)];
      [now left|right].
    repeat split; auto. exists rn, ga, gb. split; [simpl; apply in_or_app; now right|auto].
  - cbn [span_of] in Hs. destruct (Nat.eqb n n0) eqn:E.
    + inversion Hs; subst. right. repeat split; try lia.
      exists r, g, g'. simpl. rewrite E. split; [now left|].
      replace (a - a) with 0 by lia. replace (a + length w - a) with (length w) by lia.
      now rewrite slice_all.
    + destruct (IHmatches a b Hs) as [Hold|(Ha & Hab & Hb & rn & ga & gb & Hin & M)];
        [now left|right].
      repeat split; auto. exists rn, ga, gb. simpl. rewrite E. split; auto.
Qed.

(** The value of a group of a match found by [finditer] is a match of a body
    of the group. *)
Lemma finditer_group_text r s m n t :
  In m (finditer r s) -> group n m = Some t ->
  exists rn a ga gb, In rn (group_bodies n r) /\ matches rn a t ga gb.
Proof.
  intros H Hg. apply finditer_In in H. destruct H as (pre & _ & _ & H).
  apply match_at_sound in H. destruct H as (w & s' & Hw & _ & M).
  unfold group in Hg. destruct (span_of n (m_regs m)) as [[a b]|] eqn:Hs; [|discriminate].
  inversion Hg; subst t.
  destruct (matches_group n _ _ _ _ _ M a b Hs) as [H0|(Ha & Hab & Hb & rn & ga & gb & Hin & Mn)];
    [discriminate|].
  exists rn, a, ga, gb. split; auto.
  rewrite Hw, slice_app_l by lia.
  now rewrite !Nat.sub_0_r in Mn.
Qed.

(** The text [m.group(0)] of a match found by [finditer] is a match of the
    pattern. *)
Lemma finditer_group0 r s m :
  In m (finditer r s) -> exists g, matches r 0 (group0 m) [] g.
Proof.
  intros H. apply finditer_In in H. destruct H as (pre & _ & _ & H).
  apply match_at_sound in H. destruct H as (w & s' & Hw & Hl & M).
  exists (m_regs m). unfold group0. rewrite Hw, Hl, firstn_app, Nat.sub_diag, firstn_all.
  simpl. now rewrite app_nil_r.
Qed.

(** ** Exceptions *)

Lemma bind_Ok A B (m : exc A) (f : A -> exc B) r :
  bind m f = Ok r -> exists a, m = Ok a /\ f a = Ok r.
Proof. destruct m; simpl; [eauto|discriminate]. Qed.

Lemma for_each_preserve A S B (proj : S -> B) (body : S -> A -> exc S) l :
  (forall s x s1, body s x = Ok s1 -> proj s1 = proj s) ->
  forall s0 s', for_each l body s0 = Ok s' -> proj s' = proj s0.
Proof.
  intros Hb s0 s' H.
  refine (for_each_inv A S (fun _ s => proj s = proj s0) body l _ s0 s' eq_refl H).
  intros done x s s1 Hs _ Hx. rewrite <- Hs. eauto.
Qed.

Lemma fold_left_preserve A S B (proj : S -> B) (f : S -> A -> S) l :
  (forall s x, proj (f s x) = proj s) ->
  forall s0, proj (fold_left f l s0) = proj s0.
Proof.
  intros Hf. induction l as [|x l IH]; intros s0; simpl; [reflexivity|].
  now rewrite IH.
Qed.

(** * The lines written for a file *)

Lemma count_lines_app t l1 l2 :
  count_lines t (l1 ++ l2) = count_lines t l1 + count_lines t l2.
Proof. unfold count_lines. now rewrite filter_app, length_app. Qed.

Lemma count_lines_map A t t0 (f : A -> Line) l :
  (forall x, tag_of (f x) = t0) ->
  count_lines t (map f l) = if tag_eqb t0 t then length l else 0.
Proof.
  intros Hf. unfold count_lines.
  induction l as [|x l IH]; simpl; [now destruct (tag_eqb t0 t)|].
  rewrite Hf. destruct (tag_eqb t0 t); simpl; now rewrite IH.
Qed.

Lemma count_methods_class_lines rel c :
  count_lines TMETHOD (class_lines rel c) = Nat.min 10 (length (cl_methods c)).
Proof.
  unfold class_lines. change (CLASS ?p ?n ?e :: ?l) with ([CLASS p n e] ++ l).
  rewrite count_lines_app, (count_lines_map _ TMETHOD TMETHOD) by reflexivity.
  now rewrite length_firstn.
Qed.

Lemma count_class_lines rel t c :
  t <> TMETHOD ->
  count_lines t (class_lines rel c) = if tag_eqb TCLASS t then 1 else 0.
Proof.
  intros Ht. unfold class_lines. change (CLASS ?p ?n ?e :: ?l) with ([CLASS p n e] ++ l).
  rewrite count_lines_app, (count_lines_map _ t TMETHOD) by reflexivity.
  destruct t; try reflexivity. contradiction.
Qed.

Lemma count_flat_map_class_lines rel t cs :
  t <> TMETHOD ->
  count_lines t (flat_map (class_lines rel) cs) = if tag_eqb TCLASS t then length cs else 0.
Proof.
  intros Ht. induction cs as [|c cs IH]; cbn [flat_map length];
    [now destruct (tag_eqb TCLASS t)|].
  rewrite count_lines_app, IH, count_class_lines by assumption.
  now destruct (tag_eqb TCLASS t).
Qed.

Lemma count_methods_flat_map rel cs :
  count_lines TMETHOD (flat_map (class_lines rel) cs)
  = list_sum (map (fun c => Nat.min 10 (length (cl_methods c))) cs).
Proof.
  induction cs as [|c cs IH]; cbn [flat_map map list_sum fold_right]; [reflexivity|].
  now rewrite count_lines_app, IH, count_methods_class_lines.
Qed.

Lemma count_lines_analysis t rel a :
  t <> TMETHOD ->
  count_lines t (analysis_lines rel a) =
  match t with
  | TIMPORT => Nat.min 5 (length (imports a))
  | TEXPORT => Nat.min 10 (length (exports a))
  | TTYPE => length (types a)
  | TCLASS => length (classes a)
  | TFUNC => Nat.min 15 (length (functions a))
  | _ => 0
  end.
Proof.
  intros Ht. unfold analysis_lines.
  rewrite !count_lines_app, count_flat_map_class_lines by assumption.
  rewrite (count_lines_map _ t TIMPORT), (count_lines_map _ t TEXPORT),
    (count_lines_map _ t TTYPE), (count_lines_map _ t TFUNC) by reflexivity.
  rewrite !length_firstn.
  destruct t; simpl; try lia; contradiction.
Qed.

(** C9: the lines written for one file hold at most 5 IMPORT lines, at most
    10 EXPORT lines, at most 10 METHOD lines for each class and at most 15
    FUNC lines (exactly the first 5, 10, 10 and 15 entries when there are
    more), and one TYPE line for each type and one CLASS line for each class,
    without a cap; a record with 20 functions gives min(15, 20) = 15 FUNC
    lines. *)
Theorem serialized_line_caps (rel : str) (size : nat) (a : FileAnalysis) :
  count_lines TIMPORT (file_lines rel size (Some a)) = Nat.min 5 (length (imports a)) /\
  count_lines TEXPORT (file_lines rel size (Some a)) = Nat.min 10 (length (exports a)) /\
  count_lines TFUNC (file_lines rel size (Some a)) = Nat.min 15 (length (functions a)) /\
  count_lines TTYPE (file_lines rel size (Some a)) = length (types a) /\
  count_lines TCLASS (file_lines rel size (Some a)) = length (classes a) /\
  count_lines TIMPORT (file_lines rel size (Some a)) <= 5 /\
  count_lines TEXPORT (file_lines rel size (Some a)) <= 10 /\
  count_lines TFUNC (file_lines rel size (Some a)) <= 15 /\
  (forall c, count_lines TMETHOD (class_lines rel c) = Nat.min 10 (length (cl_methods c)) /\
             count_lines TMETHOD (class_lines rel c) <= 10) /\
  count_lines TMETHOD (file_lines rel size (Some a))
    = list_sum (map (fun c => count_lines TMETHOD (class_lines rel c)) (classes a)).
Proof.
  assert (E : forall t, t <> TMETHOD -> t <> TFILE ->
            count_lines t (file_lines rel size (Some a)) = count_lines t (analysis_lines rel a)).
  { intros t H1 H2. unfold file_lines.
    change (FILE ?p ?n ?e :: ?l) with ([FILE p n e] ++ l).
    rewrite count_lines_app. destruct t; try reflexivity; contradiction. }
  rewrite !E by discriminate. rewrite !count_lines_analysis by discriminate.
  repeat split; try apply Nat.le_min_l.
  - apply count_methods_class_lines.
  - rewrite count_methods_class_lines. apply Nat.le_min_l.
  - unfold file_lines. change (FILE ?p ?n ?e :: ?l) with ([FILE p n e] ++ l).
    rewrite count_lines_app. unfold analysis_lines. rewrite !count_lines_app.
    rewrite (count_lines_map _ TMETHOD TIMPORT), (count_lines_map _ TMETHOD TEXPORT),
      (count_lines_map _ TMETHOD TTYPE), (count_lines_map _ TMETHOD TFUNC) by reflexivity.
    rewrite count_methods_flat_map. simpl.
    rewrite Nat.add_0_r. apply f_equal, map_ext. intros c.
    now rewrite count_methods_class_lines.
Qed.

(** The first field of the text of a line is its kind. *)
Lemma render_tag l : startswith (render l) (tag_text (tag_of l) ++ bar) = true.
Proof. destruct l; reflexivity. Qed.

(** * Determinism *)

(** C10: extraction is a function of the text and of the answer of the
    test-existence probe alone: two runs on the same text, on whatever file
    systems and paths, give the same record (or raise the same exception)
    as soon as the probe answers the same in both. *)
Theorem extraction_deterministic (fs1 fs2 : FS) (content : str) (path1 path2 : Path) :
  check_has_tests fs1 path1 = check_has_tests fs2 path2 ->
  analyze_typescript_file fs1 content path1 = analyze_typescript_file fs2 content path2 /\
  analyze_python_file fs1 content path1 = analyze_python_file fs2 content path2.
Proof.
  intros H. unfold analyze_typescript_file, analyze_python_file.
  rewrite H. split; reflexivity.
Qed.

(** * The records of the two analyses *)

Ltac inv_bind :=
  repeat match goal with
  | H : bind _ _ = Ok _ |- _ =>
      let a := fresh "a" in let E := fresh "E" in
      apply bind_Ok in H; destruct H as (a & E & H)
  | H : Ok _ = Ok _ |- _ => inversion H; subst; clear H
  end.

Ltac inv_matches :=
  repeat match goal with
  | H : matches (Seq _ _) _ _ _ _ |- _ => inversion H; subst; clear H
  | H : matches (Lit _) _ _ _ _ |- _ => inversion H; subst; clear H
  | H : matches (One _) _ _ _ _ |- _ => inversion H; subst; clear H
  | H : matches (Rep _ _ _) _ _ _ _ |- _ => inversion H; subst; clear H
  | H : matches (Grp _ _) _ _ _ _ |- _ => inversion H; subst; clear H
  | H : matches (Opt _) _ _ _ _ |- _ => inversion H; subst; clear H
  | H : matches (Alt _ _) _ _ _ _ |- _ => inversion H; subst; clear H
  end.

Lemma ts_class_step_fields content a m a' :
  ts_class_step content a m = Ok a' ->
  imports a' = imports a /\ exports a' = exports a /\ functions a' = functions a /\
  types a' = types a.
Proof. unfold ts_class_step. intros H. inv_bind. auto. Qed.

Lemma ts_function_step_fields pattern a m a' :
  ts_function_step pattern a m = Ok a' ->
  imports a' = imports a /\ exports a' = exports a /\ classes a' = classes a /\
  types a' = types a.
Proof.
  unfold ts_function_step. intros H. inv_bind.
  destruct a0 as [[[[e y] n] ps] rt]. inv_bind. auto.
Qed.

Lemma ts_functions_loop_fields content a a' :
  for_each func_patterns
    (fun a pattern => for_each (finditer pattern content) (ts_function_step pattern) a) a
  = Ok a' ->
  imports a' = imports a /\ exports a' = exports a /\ classes a' = classes a /\
  types a' = types a.
Proof.
  intros H.
  refine (for_each_inv regex FileAnalysis
            (fun _ s => imports s = imports a /\ exports s = exports a /\
                        classes s = classes a /\ types s = types a) _ _ _ a a' _ H); auto.
  intros done pattern s s1 (H1 & H2 & H3 & H4) _ Hs.
  rewrite <- H1, <- H2, <- H3, <- H4.
  refine (for_each_inv Match FileAnalysis
            (fun _ t => imports t = imports s /\ exports t = exports s /\
                        classes t = classes s /\ types t = types s) _ _ _ s s1 _ Hs); auto.
  intros done' m t t1 (G1 & G2 & G3 & G4) _ Ht.
  apply ts_function_step_fields in Ht. destruct Ht as (F1 & F2 & F3 & F4).
  rewrite F1, F2, F3, F4. auto.
Qed.

Lemma fold_left_append_import (f : Match -> pyval) l a :
  imports (fold_left (fun a m => append_import a (f m)) l a) = imports a ++ map f l.
Proof.
  revert a. induction l as [|m l IH]; intros a; simpl; [now rewrite app_nil_r|].
  rewrite IH. simpl. now rewrite <- app_assoc.
Qed.

Lemma fold_left_append_import_fields (f : Match -> pyval) l a :
  classes (fold_left (fun a m => append_import a (f m)) l a) = classes a /\
  functions (fold_left (fun a m => append_import a (f m)) l a) = functions a /\
  exports (fold_left (fun a m => append_import a (f m)) l a) = exports a /\
  types (fold_left (fun a m => append_import a (f m)) l a) = types a.
Proof.
  revert a. induction l as [|m l IH]; intros a; simpl; [auto|].
  destruct (IH (append_import a (f m))) as (-> & -> & -> & ->). auto.
Qed.

(** The imports of a kind-A record are the first groups of the matches of the
    import pattern, in the order of the text. *)
Lemma ts_imports fs content file_path r :
  analyze_typescript_file fs content file_path = Ok r ->
  imports r = map (group 1) (finditer ts_import_pattern content).
Proof.
  unfold analyze_typescript_file. cbv zeta. intros H. inv_bind.
  cbn [set_has_tests imports].
  apply ts_functions_loop_fields in E0. destruct E0 as (-> & _).
  rewrite (for_each_preserve Match FileAnalysis _ imports _ _
             (fun s x s1 Hs => proj1 (ts_class_step_fields content s x s1 Hs)) _ _ E).
  rewrite 3 (fold_left_preserve Match FileAnalysis _ imports (type_step _)) by reflexivity.
  rewrite 2 (fold_left_preserve Match FileAnalysis _ imports) by reflexivity.
  now rewrite fold_left_append_import.
Qed.

Lemma slice_mid (p x q : str) a b :
  a = length p -> b = a + length x -> slice (p ++ x ++ q) a b = x.
Proof.
  intros -> ->. unfold slice. rewrite skipn_app, skipn_all, Nat.sub_diag.
  simpl. replace (length p + length x - length p) with (length x) by lia.
  rewrite firstn_app, firstn_all, Nat.sub_diag. simpl. now rewrite app_nil_r.
Qed.

Lemma cmatch_space x : cmatch space x = is_space x.
Proof. simpl. apply orb_false_r. Qed.

Lemma cmatch_word x : cmatch word x = is_word x.
Proof. simpl. apply orb_false_r. Qed.

Lemma cmatch_quote x : cmatch quote x = is_quote x.
Proof. simpl. unfold is_quote. now rewrite orb_false_r. Qed.

Lemma cmatch_not_quote x : cmatch not_quote x = negb (is_quote x).
Proof. simpl. unfold is_quote. now rewrite orb_false_r. Qed.

Lemma cmatch_dot x : cmatch dot x = true -> x <> newline.
Proof.
  simpl. rewrite orb_false_r. intros H ->. now rewrite N.eqb_refl in H.
Qed.

Lemma Forall_space w :
  Forall (fun x => cmatch space x = true) w -> Forall (fun c => is_space c = true) w.
Proof. apply Forall_impl. intros x. now rewrite cmatch_space. Qed.

Lemma nonempty_of_length A (w : list A) : 1 <= length w -> w <> [].
Proof. destruct w; simpl; [lia|discriminate]. Qed.

(** What a match of the kind-A import pattern looks like in the text: the
    word [import], white space, anything without a line break, white space,
    [from], white space, a quote, a dot and at least one character that is
    no quote, and a quote again; its first group is the text between the
    quotes. *)
Lemma ts_import_match_shape content m :
  In m (finditer ts_import_pattern content) ->
  exists pre ws1 binding ws2 ws3 q1 rest q2 post,
    content = pre ++ lit "import" ++ ws1 ++ binding ++ ws2 ++ lit "from" ++ ws3
              ++ [q1] ++ (lit "." ++ rest) ++ [q2] ++ post /\
    m_start m = length pre /\
    group 1 m = Some (lit "." ++ rest) /\
    rest <> [] /\ Forall (fun c => is_quote c = false) rest /\
    is_quote q1 = true /\ is_quote q2 = true /\
    ws1 <> [] /\ Forall (fun c => is_space c = true) ws1 /\
    Forall (fun c => c <> newline) binding /\
    ws2 <> [] /\ Forall (fun c => is_space c = true) ws2 /\
    ws3 <> [] /\ Forall (fun c => is_space c = true) ws3.
Proof.
  intros H. apply finditer_In in H. destruct H as (pre & Hc & Hs & H).
  apply match_at_sound in H. destruct H as (w & post & Hw & _ & M).
  cbv [ts_import_pattern cat chr plus lazy_star] in M.
  remember (m_regs m) as regs eqn:Hr. inv_matches.
  match goal with
  | Hw : m_subject m = (_ ++ ?ws1 ++ ?b ++ ?ws2 ++ _ ++ ?ws3 ++ [?q1] ++ (_ ++ ?rest) ++ [?q2]) ++ _ |- _ =>
      exists pre, ws1, b, ws2, ws3, q1, rest, q2, post;
      assert (Hsub : m_subject m =
                (lit "import" ++ ws1 ++ b ++ ws2 ++ lit "from" ++ ws3 ++ [q1])
                ++ (lit "." ++ rest) ++ ([q2] ++ post))
        by (rewrite Hw; repeat rewrite <- app_assoc; reflexivity)
  end.
  split; [rewrite Hw; repeat rewrite <- app_assoc; reflexivity|].
  split; [exact Hs|].
  split.
  { unfold group.
    match goal with H : _ = m_regs m |- _ => rewrite <- H end.
    cbn [span_of Nat.eqb]. f_equal.
    rewrite Hsub. apply slice_mid; rewrite ?length_app; simpl; lia. }
  repeat match goal with
  | H : cmatch quote _ = true |- _ => rewrite cmatch_quote in H
  | H : Forall (fun x => cmatch space x = true) _ |- _ => apply Forall_space in H
  end.
  repeat split; auto using nonempty_of_length.
  - match goal with H : Forall (fun x => cmatch not_quote x = true) _ |- _ =>
      revert H; apply Forall_impl end.
    intros c. rewrite cmatch_not_quote. now destruct (is_quote c).
  - match goal with H : Forall (fun x => cmatch dot x = true) _ |- _ =>
      revert H; apply Forall_impl end.
    apply cmatch_dot.
Qed.

(** A loop that appends one entry for each element it keeps collects, in
    order, an entry for every kept element. *)
Lemma for_each_collect A S F (proj : S -> list F) (Q : S -> Prop) (keep : A -> bool)
    (R : F -> A -> Prop) (body : S -> A -> exc S) l :
  (forall s x s1, Q s -> In x l -> body s x = Ok s1 ->
     Q s1 /\ if keep x then exists f, proj s1 = proj s ++ [f] /\ R f x
             else proj s1 = proj s) ->
  forall s0 s', Q s0 -> for_each l body s0 = Ok s' ->
  Q s' /\ exists fs, proj s' = proj s0 ++ fs /\ Forall2 R fs (filter keep l).
Proof.
  intros Hstep s0 s' H0 H.
  refine (for_each_inv A S
            (fun done s => Q s /\ exists fs, proj s = proj s0 ++ fs /\
                                     Forall2 R fs (filter keep done))
            body l _ s0 s' _ H).
  - intros done x s s1 (HQ & fs & Hp & HF) Hin Hb.
    destruct (Hstep s x s1 HQ Hin Hb) as (HQ1 & Hk). split; [exact HQ1|].
    rewrite filter_app. simpl. destruct (keep x).
    + destruct Hk as (f & Hf & HR). exists (fs ++ [f]). split.
      * now rewrite Hf, Hp, app_assoc.
      * apply Forall2_app; auto.
    + exists fs. rewrite app_nil_r. split; [congruence|assumption].
  - split; [exact H0|]. exists []. rewrite app_nil_r. split; [reflexivity|constructor].
Qed.

Lemma strip_or_empty_spec v rt : strip_or_empty v = Ok rt -> rt = return_type_of v.
Proof.
  destruct v as [[|c t]|]; unfold strip_or_empty; cbn [truthy strip_of return_type_of];
    intros H; inversion H; reflexivity.
Qed.

Lemma strip_of_spec v t : strip_of v = Ok t -> exists raw, v = Some raw /\ t = strip raw.
Proof. destruct v; simpl; intros H; inversion H; eauto. Qed.

Lemma str_eqb_eq a b : str_eqb a b = true <-> a = b.
Proof.
  revert b. induction a as [|x a IH]; intros [|y b]; simpl; split; intros H;
    try reflexivity; try discriminate.
  - apply andb_true_iff in H. destruct H as (Hx & Hab).
    apply N.eqb_eq in Hx. apply IH in Hab. congruence.
  - inversion H; subst. rewrite N.eqb_refl. simpl. now apply IH.
Qed.

Lemma pyval_eqb_eq a b : pyval_eqb a b = true <-> a = b.
Proof.
  destruct a as [x|], b as [y|]; simpl; split; intros H;
    try reflexivity; try discriminate.
  - apply str_eqb_eq in H. congruence.
  - inversion H; subst. now apply str_eqb_eq.
Qed.

Lemma pyval_in_In v l : pyval_in v l = true <-> In v l.
Proof.
  unfold pyval_in. rewrite existsb_exists. split.
  - intros (x & Hx & E). apply pyval_eqb_eq in E. now subst.
  - intros H. exists v. split; [assumption|]. now apply pyval_eqb_eq.
Qed.

(** ** Kind B *)

Lemma py_method_step_spec methods mm methods' :
  py_method_step methods mm = Ok methods' ->
  if py_keeps (group 1 mm)
  then exists f, methods' = methods ++ [f] /\ py_def_describes f mm
  else methods' = methods.
Proof.
  unfold py_method_step. intros H. inv_bind.
  apply strip_of_spec in E. destruct E as (params & Hp & ->).
  apply strip_or_empty_spec in E0. subst a0.
  destruct (group 1 mm) as [name|] eqn:Hn; [|discriminate].
  simpl in E1. inversion E1; subst a1; clear E1.
  unfold py_keeps. cbn [pyval_eqb] in H.
  destruct (startswith name (lit "__") && negb (str_eqb name (lit "__init__")));
    cbn [negb]; inversion H; subst; [reflexivity|].
  eexists. split; [reflexivity|].
  unfold py_def_describes. cbn [fn_name fn_is_async fn_is_exported fn_signature].
  rewrite Hn. repeat split. exists params. now rewrite Hp.
Qed.

Lemma py_methods_loop section methods :
  for_each (finditer def_pattern section) py_method_step [] = Ok methods ->
  Forall2 py_def_describes methods
    (filter (fun mm => py_keeps (group 1 mm)) (finditer def_pattern section)).
Proof.
  intros H.
  destruct (for_each_collect Match (list FunctionInfo) FunctionInfo (fun s => s)
              (fun _ => True) (fun mm => py_keeps (group 1 mm)) py_def_describes
              py_method_step (finditer def_pattern section)) with (s0 := @nil FunctionInfo)
              (s' := methods) as (_ & fs & Hfs & HF); auto.
  - intros s x s1 _ _ Hb. split; [exact I|]. now apply py_method_step_spec.
  - simpl in Hfs. now subst.
Qed.

Lemma py_class_step_spec content a m a' :
  py_class_step content a m = Ok a' ->
  imports a' = imports a /\ functions a' = functions a /\
  exists c, classes a' = classes a ++ [c] /\
    cl_name c = group 1 m /\ cl_is_exported c = false /\
    Forall2 py_def_describes (cl_methods c)
      (filter (fun mm => py_keeps (group 1 mm))
         (finditer def_pattern (class_section content m))).
Proof.
  unfold py_class_step. intros H. inv_bind. cbn. repeat split.
  eexists. split; [reflexivity|]. cbn. repeat split.
  now apply py_methods_loop.
Qed.

Lemma py_function_step_spec a m a' :
  py_function_step a m = Ok a' ->
  imports a' = imports a /\ classes a' = classes a /\
  if negb (pyval_in (group 1 m) (method_names a))
  then exists f, functions a' = functions a ++ [f] /\ py_def_describes f m
  else functions a' = functions a.
Proof.
  unfold py_function_step. intros H. inv_bind.
  apply strip_of_spec in E. destruct E as (params & Hp & ->).
  apply strip_or_empty_spec in E0. subst a1.
  destruct (pyval_in (group 1 m) (method_names a)); cbn [negb];
    inversion H; subst; cbn; repeat split.
  eexists. split; [reflexivity|].
  unfold py_def_describes. cbn [fn_name fn_is_async fn_is_exported fn_signature].
  repeat split. exists params. now rewrite Hp.
Qed.

(** The record of a kind-B file, field by field. *)
Lemma analyze_python_file_spec fs content file_path r :
  analyze_python_file fs content file_path = Ok r ->
  imports r = map (group 1) (finditer py_import_pattern content) /\
  Forall2 (fun c m =>
             cl_name c = group 1 m /\ cl_is_exported c = false /\
             Forall2 py_def_describes (cl_methods c)
               (filter (fun mm => py_keeps (group 1 mm))
                  (finditer def_pattern (class_section content m))))
    (classes r) (finditer py_class_pattern content) /\
  Forall2 py_def_describes (functions r)
    (filter (fun m => negb (pyval_in (group 1 m) (method_names r)))
       (finditer def_pattern content)) /\
  exports r = [] /\ types r = [] /\
  check_has_tests fs file_path = Ok (has_tests r).
Proof.
  unfold analyze_python_file. cbv zeta. intros H. inv_bind.
  rename a into a1, a0 into a2, a1 into b.
  set (a0 := fold_left (fun a m => append_import a (group 1 m))
               (finditer py_import_pattern content) FileAnalysis_new) in *.
  assert (H0 : imports a0 = map (group 1) (finditer py_import_pattern content) /\
               classes a0 = [] /\ functions a0 = [] /\ exports a0 = [] /\ types a0 = []).
  { unfold a0. rewrite fold_left_append_import.
    destruct (fold_left_append_import_fields (group 1)
                (finditer py_import_pattern content) FileAnalysis_new)
      as (-> & -> & -> & ->). auto. }
  destruct H0 as (Hi & Hc & Hf & He & Ht).
  (* the loop over the classes *)
  destruct (for_each_collect Match FileAnalysis ClassInfo classes
              (fun s => imports s = imports a0 /\ functions s = functions a0 /\
                        exports s = exports a0 /\ types s = types a0)
              (fun _ => true)
              (fun c m =>
                 cl_name c = group 1 m /\ cl_is_exported c = false /\
                 Forall2 py_def_describes (cl_methods c)
                   (filter (fun mm => py_keeps (group 1 mm))
                      (finditer def_pattern (class_section content m))))
              (py_class_step content) (finditer py_class_pattern content))
    with (s0 := a0) (s' := a1) as ((Hi1 & Hf1 & He1 & Ht1) & cs & Hcs & HFc); auto.
  { intros s x s1 (Q1 & Q2 & Q3 & Q4) _ Hb.
    assert (Hx : exports s1 = exports s /\ types s1 = types s).
    { unfold py_class_step in Hb. inv_bind. auto. }
    apply py_class_step_spec in Hb. destruct Hb as (B1 & B2 & c & B3 & B4).
    destruct Hx as (B5 & B6). rewrite B1, B2, B5, B6. eauto 10. }
  rewrite Hc in Hcs. simpl in Hcs.
  assert (Hall : filter (fun _ : Match => true) (finditer py_class_pattern content)
                 = finditer py_class_pattern content).
  { apply forallb_filter_id. apply forallb_forall. reflexivity. }
  rewrite Hall in HFc.
  (* the loop over the functions *)
  destruct (for_each_collect Match FileAnalysis FunctionInfo functions
              (fun s => imports s = imports a1 /\ classes s = classes a1 /\
                        exports s = exports a1 /\ types s = types a1)
              (fun m => negb (pyval_in (group 1 m) (method_names a1)))
              py_def_describes py_function_step (finditer def_pattern content))
    with (s0 := a1) (s' := a2) as ((Hi2 & Hc2 & He2 & Ht2) & fs' & Hfs & HFf); auto.
  { intros s x s1 (Q1 & Q2 & Q3 & Q4) _ Hb.
    assert (Hx : exports s1 = exports s /\ types s1 = types s).
    { unfold py_function_step in Hb. inv_bind.
      destruct (pyval_in _ _); inversion Hb; subst; auto. }
    apply py_function_step_spec in Hb. destruct Hb as (B1 & B2 & B3).
    destruct Hx as (B5 & B6). rewrite B1, B2, B5, B6.
    replace (method_names s) with (method_names a1) in B3
      by (unfold method_names; now rewrite Q2).
    auto. }
  cbn [set_has_tests imports classes functions exports types has_tests].
  replace (method_names (set_has_tests a2 b)) with (method_names a1)
    by (unfold method_names; cbn; now rewrite Hc2).
  rewrite Hi2, Hi1, Hc2, Hcs, Hfs, Hf1, Hf, He2, He1, He, Ht2, Ht1, Ht. simpl.
  auto 10.
Qed.

Lemma Forall2_filter_In_r A B (R : A -> B -> Prop) (keep : B -> bool) l l' :
  Forall2 R l (filter keep l') ->
  forall x, In x l' -> keep x = true -> exists f, In f l /\ R f x.
Proof.
  intros H x Hx Hk.
  assert (Hin : In x (filter keep l')) by (apply filter_In; auto).
  clear Hx Hk. induction H as [|f y l fl Hfy HF IH]; [contradiction|].
  destruct Hin as [<-|Hin].
  - exists f. split; [now left|assumption].
  - destruct (IH Hin) as (f' & Hf' & HR). exists f'. split; [now right|assumption].
Qed.

Lemma Forall2_filter_In_l A B (R : A -> B -> Prop) (keep : B -> bool) l l' :
  Forall2 R l (filter keep l') ->
  forall f, In f l -> exists x, In x l' /\ keep x = true /\ R f x.
Proof.
  intros H f Hf.
  assert (G : exists x, In x (filter keep l') /\ R f x).
  { induction H as [|f' y l fl Hfy HF IH]; [contradiction|].
    destruct Hf as [->|Hf].
    - exists y. split; [now left|assumption].
    - destruct (IH Hf) as (x & Hx & HR). exists x. split; [now right|assumption]. }
  destruct G as (x & Hx & HR). apply filter_In in Hx. destruct Hx. eauto.
Qed.

Lemma Forall2_In_l A B (R : A -> B -> Prop) l l' :
  Forall2 R l l' -> forall f, In f l -> exists x, In x l' /\ R f x.
Proof.
  induction 1 as [|f' y l fl Hfy HF IH]; intros f Hf; [contradiction|].
  destruct Hf as [->|Hf].
  - exists y. split; [now left|assumption].
  - destruct (IH f Hf) as (x & Hx & HR). exists x. split; [now right|assumption].
Qed.

Lemma startswith_spec s p : startswith s p = true <-> exists b, s = p ++ b.
Proof.
  unfold startswith. split.
  - destruct (strip_prefix p s) as [b|] eqn:E; [|discriminate].
    intros _. exists b. now apply strip_prefix_app.
  - intros (b & ->). now rewrite strip_prefix_complete.
Qed.

(** [p in s] holds exactly when [p] occurs somewhere in [s]. *)
Lemma contains_spec s p : contains s p = true <-> exists a b, s = a ++ p ++ b.
Proof.
  induction s as [|x s IH].
  - simpl. rewrite orb_false_r, startswith_spec. split.
    + intros (b & H). exists [], b. exact H.
    + intros (a & b & H). destruct a; [now exists b|discriminate].
  - cbn [contains]. rewrite orb_true_iff, startswith_spec, IH. split.
    + intros [(b & H)|(a & b & H)].
      * exists [], b. exact H.
      * exists (x :: a), b. simpl. now rewrite H.
    + intros (a & b & H). destruct a as [|y a].
      * left. now exists b.
      * right. inversion H; subst. now exists a, b.
Qed.

(** C8: in the methods recorded for a kind-B class, a match of the class
    section named [__init__] is kept, and no other name that begins with two
    underscores (so no other dunder name, [__str__] for one) is among the
    methods. *)
Theorem py_init_kept_dunder_dropped (fs : FS) (content : str) (file_path : Path)
    (r : FileAnalysis) :
  analyze_python_file fs content file_path = Ok r ->
  Forall2 (fun c m =>
      (forall mm, In mm (finditer def_pattern (class_section content m)) ->
         group 1 mm = Some (lit "__init__") ->
         exists f, In f (cl_methods c) /\ py_def_describes f mm) /\
      (forall f name, In f (cl_methods c) -> fn_name f = Some name ->
         startswith name (lit "__") = true -> name = lit "__init__"))
    (classes r) (finditer py_class_pattern content).
Proof.
  intros H. apply analyze_python_file_spec in H. destruct H as (_ & Hc & _).
  revert Hc. apply Forall2_impl. intros c m (_ & _ & HF). split.
  - intros mm Hmm Hname.
    apply (Forall2_filter_In_r _ _ _ _ _ _ HF mm Hmm). now rewrite Hname.
  - intros f name Hf Hname Hdunder.
    destruct (Forall2_filter_In_l _ _ _ _ _ _ HF f Hf) as (mm & _ & Hk & Hd).
    destruct Hd as (Hn & _). rewrite <- Hn, Hname in Hk. unfold py_keeps in Hk.
    rewrite Hdunder in Hk. simpl in Hk.
    destruct (str_eqb name (lit "__init__")) eqn:E; [|discriminate].
    now apply str_eqb_eq.
Qed.

(** C5: the standalone functions of a kind-B record are, in the order of the
    text, the matches of the def pattern whose name is not the name of a
    method recorded for some class: a match whose name is such a name gives
    no function, whatever its scope, and every other match gives one. *)
Theorem py_functions_exclude_method_names (fs : FS) (content : str) (file_path : Path)
    (r : FileAnalysis) :
  analyze_python_file fs content file_path = Ok r ->
  Forall2 py_def_describes (functions r)
    (filter (fun m => negb (pyval_in (group 1 m) (method_names r)))
       (finditer def_pattern content)) /\
  (forall f, In f (functions r) -> ~ In (fn_name f) (method_names r)) /\
  (forall m, In m (finditer def_pattern content) ->
     ~ In (group 1 m) (method_names r) ->
     exists f, In f (functions r) /\ py_def_describes f m).
Proof.
  intros H. apply analyze_python_file_spec in H. destruct H as (_ & _ & HF & _).
  split; [exact HF|]. split.
  - intros f Hf Hin.
    destruct (Forall2_filter_In_l _ _ _ _ _ _ HF f Hf) as (m & _ & Hk & Hd).
    destruct Hd as (Hn & _). rewrite <- Hn in Hk.
    apply pyval_in_In in Hin. now rewrite Hin in Hk.
  - intros m Hm Hnot. apply (Forall2_filter_In_r _ _ _ _ _ _ HF m Hm).
    destruct (pyval_in (group 1 m) (method_names r)) eqn:E; [|reflexivity].
    apply pyval_in_In in E. contradiction.
Qed.

(** C3: the [is_async] flag of a recorded kind-B function or method is true
    exactly when the text [async] occurs somewhere in the text its match
    covers, parameters and return annotation included; the text
    [def run(async_mode): pass] has one match, without the keyword, whose
    text holds [async]. *)
Theorem py_is_async_by_substring (fs : FS) (content : str) (file_path : Path)
    (r : FileAnalysis) :
  analyze_python_file fs content file_path = Ok r ->
  (forall f, In f (functions r) ->
     exists m, In m (finditer def_pattern content) /\ fn_name f = group 1 m /\
       (fn_is_async f = true <-> exists a b, group0 m = a ++ lit "async" ++ b)) /\
  (forall c f, In c (classes r) -> In f (cl_methods c) ->
     exists cm mm, In cm (finditer py_class_pattern content) /\
       In mm (finditer def_pattern (class_section content cm)) /\
       fn_name f = group 1 mm /\
       (fn_is_async f = true <-> exists a b, group0 mm = a ++ lit "async" ++ b)) /\
  (exists m0, finditer def_pattern (lit "def run(async_mode): pass") = [m0] /\
     group0 m0 = lit "def run(async_mode):" /\
     contains (group0 m0) (lit "async") = true).
Proof.
  intros H. apply analyze_python_file_spec in H. destruct H as (_ & Hc & HF & _).
  split; [|split].
  - intros f Hf.
    destruct (Forall2_filter_In_l _ _ _ _ _ _ HF f Hf) as (m & Hm & _ & Hd).
    destruct Hd as (Hn & Ha & _). exists m. repeat split; auto.
    + rewrite Ha. apply contains_spec.
    + rewrite Ha. apply contains_spec.
  - intros c f Hcin Hf.
    destruct (Forall2_In_l _ _ _ _ _ Hc c Hcin) as (cm & Hcm & _ & _ & HM).
    destruct (Forall2_filter_In_l _ _ _ _ _ _ HM f Hf) as (mm & Hmm & _ & Hd).
    destruct Hd as (Hn & Ha & _). exists cm, mm. repeat split; auto.
    + rewrite Ha. apply contains_spec.
    + rewrite Ha. apply contains_spec.
  - eexists. split; [vm_compute; reflexivity|]. split; vm_compute; reflexivity.
Qed.

(** ** Kind A *)

Lemma ts_method_step_spec class_name methods mm methods' :
  ts_method_step class_name methods mm = Ok methods' ->
  if ts_keeps class_name mm
  then exists f, methods' = methods ++ [f] /\ ts_method_describes f mm
  else methods' = methods.
Proof.
  unfold ts_method_step, ts_keeps. intros H. inv_bind.
  apply strip_of_spec in E. destruct E as (params & Hp & ->).
  apply strip_or_empty_spec in E0. subst a0.
  destruct (pyval_in (group 2 mm) [Some (lit "constructor"); class_name]);
    cbn [negb]; inversion H; subst; [reflexivity|].
  eexists. split; [reflexivity|].
  unfold ts_method_describes. cbn [fn_name fn_is_async fn_is_exported fn_signature].
  repeat split. exists params. now rewrite Hp.
Qed.

Lemma ts_class_step_spec content a m a' :
  ts_class_step content a m = Ok a' ->
  exists c, classes a' = classes a ++ [c] /\
    cl_name c = group 2 m /\ cl_is_exported c = is_not_None (group 1 m) /\
    Forall2 ts_method_describes (cl_methods c)
      (filter (ts_keeps (group 2 m))
         (finditer ts_method_pattern (class_section content m))).
Proof.
  unfold ts_class_step. intros H. inv_bind. cbn.
  eexists. split; [reflexivity|]. cbn. repeat split.
  destruct (for_each_collect Match (list FunctionInfo) FunctionInfo (fun s => s)
              (fun _ => True) (ts_keeps (group 2 m)) ts_method_describes
              (ts_method_step (group 2 m))
              (finditer ts_method_pattern (class_section content m)))
    with (s0 := @nil FunctionInfo) (s' := a0) as (_ & fs & Hfs & HF); auto.
  - intros s x s1 _ _ Hb. split; [exact I|]. now apply ts_method_step_spec.
  - simpl in Hfs. now subst.
Qed.

Lemma ts_function_step_spec pattern a m a' :
  ngroups pattern = 5 ->
  ts_function_step pattern a m = Ok a' ->
  exists f, functions a' = functions a ++ [f] /\ ts_function_describes f m.
Proof.
  unfold ts_function_step. intros -> H. cbn [Nat.eqb] in H. inv_bind.
  apply strip_of_spec in E0. destruct E0 as (params & Hp & ->).
  apply strip_or_empty_spec in E1. subst a2. cbn.
  eexists. split; [reflexivity|].
  unfold ts_function_describes. cbn [fn_name fn_is_async fn_is_exported fn_signature].
  repeat split. exists params. now rewrite Hp.
Qed.

Lemma ts_functions_loop pattern content a a' :
  ngroups pattern = 5 ->
  for_each (finditer pattern content) (ts_function_step pattern) a = Ok a' ->
  exists fs, functions a' = functions a ++ fs /\
             Forall2 ts_function_describes fs (finditer pattern content).
Proof.
  intros Hn H.
  destruct (for_each_collect Match FileAnalysis FunctionInfo functions
              (fun _ => True) (fun _ => true) ts_function_describes
              (ts_function_step pattern) (finditer pattern content))
    with (s0 := a) (s' := a') as (_ & fs & Hfs & HF); auto.
  - intros s x s1 _ _ Hb. split; [exact I|].
    now apply (ts_function_step_spec pattern).
  - exists fs. split; [assumption|].
    rewrite forallb_filter_id in HF; [assumption|]. apply forallb_forall. reflexivity.
Qed.

(** The classes and the functions of a kind-A record. *)
Lemma analyze_typescript_file_spec fs content file_path r :
  analyze_typescript_file fs content file_path = Ok r ->
  Forall2 (fun c m =>
             cl_name c = group 2 m /\ cl_is_exported c = is_not_None (group 1 m) /\
             Forall2 ts_method_describes (cl_methods c)
               (filter (ts_keeps (group 2 m))
                  (finditer ts_method_pattern (class_section content m))))
    (classes r) (finditer ts_class_pattern content) /\
  Forall2 ts_function_describes (functions r)
    (finditer function_pattern content ++ finditer arrow_pattern content).
Proof.
  unfold analyze_typescript_file. cbv zeta. intros H. inv_bind.
  rename a into a1, a0 into a2, a1 into b.
  match type of E with for_each _ _ ?x = _ => set (a0 := x) in * end.
  assert (H0 : classes a0 = [] /\ functions a0 = []).
  { unfold a0.
    rewrite 3 (fold_left_preserve Match FileAnalysis _ classes (type_step _)) by reflexivity.
    rewrite 2 (fold_left_preserve Match FileAnalysis _ classes) by reflexivity.
    rewrite 3 (fold_left_preserve Match FileAnalysis _ functions (type_step _)) by reflexivity.
    rewrite 2 (fold_left_preserve Match FileAnalysis _ functions) by reflexivity.
    destruct (fold_left_append_import_fields (group 1)
                (finditer ts_import_pattern content) FileAnalysis_new)
      as (-> & -> & _). auto. }
  destruct H0 as (Hc0 & Hf0).
  destruct (for_each_collect Match FileAnalysis ClassInfo classes
              (fun s => functions s = functions a0) (fun _ => true)
              (fun c m =>
                 cl_name c = group 2 m /\ cl_is_exported c = is_not_None (group 1 m) /\
                 Forall2 ts_method_describes (cl_methods c)
                   (filter (ts_keeps (group 2 m))
                      (finditer ts_method_pattern (class_section content m))))
              (ts_class_step content) (finditer ts_class_pattern content))
    with (s0 := a0) (s' := a1) as (Hf1 & cs & Hcs & HFc); auto.
  { intros s x s1 Q _ Hb.
    destruct (ts_class_step_fields _ _ _ _ Hb) as (_ & _ & B & _).
    apply ts_class_step_spec in Hb. destruct Hb as (c & B1 & B2).
    rewrite B. eauto. }
  rewrite forallb_filter_id in HFc by (apply forallb_forall; reflexivity).
  rewrite Hc0 in Hcs. simpl in Hcs.
  destruct (ts_functions_loop_fields _ _ _ E0) as (_ & _ & Hc2 & _).
  assert (Hcs' : classes a1 = cs) by exact Hcs. clear Hcs.
  simpl in E0.
  apply bind_Ok in E0. destruct E0 as (a3 & L1 & E0).
  apply bind_Ok in E0. destruct E0 as (a4 & L2 & E0).
  inversion E0; subst a4; clear E0.
  apply ts_functions_loop in L1; [|reflexivity]. destruct L1 as (fs1 & G1 & F1).
  apply ts_functions_loop in L2; [|reflexivity]. destruct L2 as (fs2 & G2 & F2).
  cbn [set_has_tests classes functions].
  rewrite Hc2, Hcs', G2, G1, Hf1, Hf0. simpl. split; [assumption|].
  now apply Forall2_app.
Qed.

(** ** How many matches, and where the search passes *)

Lemma finditer_from_count r : 1 <= min_len r ->
  forall s pos skip, skip <= length s ->
  length (finditer_from r pos skip s) * min_len r + skip <= length s.
Proof.
  intros HL. induction s as [|x s IH]; intros pos skip Hs.
  - simpl in Hs. destruct skip; [|lia]. simpl.
    destruct (match_at r []) as [[len g]|] eqn:E; [|simpl; lia].
    apply match_at_length in E. simpl in E. lia.
  - destruct skip as [|n]; cbn [finditer_from].
    + destruct (match_at r (x :: s)) as [[len g]|] eqn:E.
      * apply match_at_length in E. cbn [length] in E |- *.
        assert (Hp : pred len <= length s) by lia.
        specialize (IH (S pos) (pred len) Hp).
        rewrite Nat.mul_succ_l. lia.
      * specialize (IH (S pos) 0 (Nat.le_0_l _)). cbn [length]. lia.
    + cbn [length] in Hs |- *.
      assert (Hp : n <= length s) by lia.
      specialize (IH (S pos) n Hp). lia.
Qed.

Lemma finditer_count r s :
  1 <= min_len r -> length (finditer r s) * min_len r <= length s.
Proof.
  intros HL. pose proof (finditer_from_count r HL s 0 0 (Nat.le_0_l _)). unfold finditer. lia.
Qed.

(** When no match that begins in [pre] runs past the end of [pre], the search
    comes to the end of [pre] and goes on from there as on the rest alone. *)
Lemma finditer_from_reaches r t : forall pre pos skip,
  skip <= length pre ->
  (forall i len g, i < length pre ->
     match_at r (skipn i (pre ++ t)) = Some (len, g) -> i + len <= length pre) ->
  exists l, finditer_from r pos skip (pre ++ t)
            = l ++ finditer_from r (pos + length pre) 0 t.
Proof.
  induction pre as [|x pre IH]; intros pos skip Hs H.
  - simpl in Hs. assert (skip = 0) by lia. subst. exists []. simpl.
    now rewrite Nat.add_0_r.
  - assert (H' : forall i len g, i < length pre ->
              match_at r (skipn i (pre ++ t)) = Some (len, g) -> i + len <= length pre).
    { intros i len g Hi Hm.
      assert (S i + len <= length (x :: pre)) by (apply (H (S i) len g); simpl; [lia|exact Hm]).
      simpl in *. lia. }
    replace (pos + length (x :: pre)) with (S pos + length pre) by (simpl; lia).
    destruct skip as [|n]; cbn [finditer_from app].
    + destruct (match_at r (x :: pre ++ t)) as [[len g]|] eqn:E.
      * assert (0 + len <= length (x :: pre)) by (apply (H 0 len g); simpl; [lia|exact E]).
        simpl in *.
        destruct (IH (S pos) (pred len)) as (l & ->); [lia|assumption|].
        eexists (_ :: l). reflexivity.
      * destruct (IH (S pos) 0) as (l & ->); [lia|assumption|]. now exists l.
    + simpl in Hs. destruct (IH (S pos) n) as (l & ->); [lia|assumption|]. now exists l.
Qed.

Lemma finditer_from_first r pos s len g :
  match_at r s = Some (len, g) -> In (mkMatch pos s len g) (finditer_from r pos 0 s).
Proof.
  intros H. destruct s as [|x s]; cbn [finditer_from]; rewrite H; now left.
Qed.

Lemma Forall2_In_r A B (R : A -> B -> Prop) l l' :
  Forall2 R l l' -> forall x, In x l' -> exists f, In f l /\ R f x.
Proof.
  induction 1 as [|f' y l fl Hfy HF IH]; intros x Hx; [contradiction|].
  destruct Hx as [<-|Hx].
  - exists f'. split; [now left|assumption].
  - destruct (IH x Hx) as (f & Hf & HR). exists f. split; [now right|assumption].
Qed.

(** * Kind A: imports, methods and functions *)

(** C6: the imports of a kind-A record are exactly the first groups of the
    matches of the import pattern, in the order of the text; each is the
    text between the quotes of an [import ... from] statement of the text
    and begins with a dot (the bindings before [from] are no part of it);
    the text [import x from 'package'] has no match, so it gives no
    import. *)
Theorem ts_imports_are_relative_paths (fs : FS) (content : str) (file_path : Path)
    (r : FileAnalysis) :
  analyze_typescript_file fs content file_path = Ok r ->
  imports r = map (group 1) (finditer ts_import_pattern content) /\
  (forall p, In p (imports r) ->
     exists pre ws1 binding ws2 ws3 q1 rest q2 post,
       content = pre ++ lit "import" ++ ws1 ++ binding ++ ws2 ++ lit "from" ++ ws3
                 ++ [q1] ++ (lit "." ++ rest) ++ [q2] ++ post /\
       p = Some (lit "." ++ rest) /\
       rest <> [] /\ Forall (fun c => is_quote c = false) rest /\
       is_quote q1 = true /\ is_quote q2 = true) /\
  finditer ts_import_pattern (lit "import x from 'package'") = [].
Proof.
  intros H. apply ts_imports in H. split; [exact H|]. split; [|reflexivity].
  intros p Hp. rewrite H in Hp. apply in_map_iff in Hp. destruct Hp as (m & <- & Hm).
  apply ts_import_match_shape in Hm.
  destruct Hm as (pre & ws1 & b & ws2 & ws3 & q1 & rest & q2 & post & Hc & _ & Hg
                  & Hr & Hq & H1 & H2 & _).
  exists pre, ws1, b, ws2, ws3, q1, rest, q2, post. auto 10.
Qed.

(** C2, as the script has it: the methods of a class of a kind-A record are
    all the matches of the method pattern in the 2000 characters after the
    class match, but the constructor, in the order of the section and
    without a cap (at most 500, a match taking four characters or more);
    writing the lines is what keeps the first 10. *)
Theorem ts_class_methods_capped_when_written (fs : FS) (content : str)
    (file_path : Path) (r : FileAnalysis) :
  analyze_typescript_file fs content file_path = Ok r ->
  Forall2 (fun c m =>
      cl_name c = group 2 m /\
      Forall2 ts_method_describes (cl_methods c)
        (filter (ts_keeps (group 2 m))
           (finditer ts_method_pattern (class_section content m))) /\
      length (cl_methods c) <= 500 /\
      forall rel, count_lines TMETHOD (class_lines rel c)
                  = Nat.min 10 (length (cl_methods c)))
    (classes r) (finditer ts_class_pattern content).
Proof.
  intros H. apply analyze_typescript_file_spec in H. destruct H as (Hc & _).
  revert Hc. apply Forall2_impl. intros c m (Hn & _ & HF).
  split; [exact Hn|]. split; [exact HF|]. split.
  - apply Forall2_length in HF. rewrite HF.
    pose proof (filter_length_le (ts_keeps (group 2 m))
                  (finditer ts_method_pattern (class_section content m))) as Hle.
    assert (HL : 1 <= min_len ts_method_pattern) by (vm_compute; lia).
    pose proof (finditer_count ts_method_pattern (class_section content m) HL) as Hcnt.
    change (min_len ts_method_pattern) with 4 in Hcnt.
    assert (Hw : length (class_section content m) <= 2000).
    { unfold class_section, slice.
      replace (m_end m + 2000 - m_end m) with 2000 by lia. apply firstn_le_length. }
    lia.
  - intros rel. apply count_methods_class_lines.
Qed.

(** C7, as the script has it: when no match of the function pattern that
    begins before the declaration runs into it, the functions of the record
    hold the function [foo] with its signature, not async, exported. *)
Theorem ts_exported_function_recorded (fs : FS) (pre post : str) (file_path : Path)
    (r : FileAnalysis) :
  (forall i len g, i < length pre ->
     match_at function_pattern (skipn i (pre ++ foo_declaration ++ post)) = Some (len, g) ->
     i + len <= length pre) ->
  analyze_typescript_file fs (pre ++ foo_declaration ++ post) file_path = Ok r ->
  In foo_info (functions r).
Proof.
  intros Hpre H. apply analyze_typescript_file_spec in H. destruct H as (_ & HF).
  destruct (finditer_from_reaches function_pattern (foo_declaration ++ post) pre 0 0
              (Nat.le_0_l _) Hpre) as (l & Hl).
  set (regs := [(5, (32, 39)); (4, (20, 29)); (3, (16, 19)); (1, (0, 7))]).
  set (m0 := mkMatch (length pre) (foo_declaration ++ post) 40 regs).
  assert (E : match_at function_pattern (foo_declaration ++ post) = Some (40, regs))
    by (vm_compute; reflexivity).
  assert (Hin : In m0 (finditer function_pattern (pre ++ foo_declaration ++ post)
                       ++ finditer arrow_pattern (pre ++ foo_declaration ++ post))).
  { apply in_or_app. left. unfold finditer. rewrite Hl. apply in_or_app. right.
    apply finditer_from_first. exact E. }
  destruct (Forall2_In_r _ _ _ _ _ HF m0 Hin) as (f & Hf & Hn & Ha & He & params & Hp & Hs).
  assert (G1 : is_not_None (group 1 m0) = true) by (vm_compute; reflexivity).
  assert (G2 : is_not_None (group 2 m0) = false) by (vm_compute; reflexivity).
  assert (G3 : group 3 m0 = Some (lit "foo")) by (vm_compute; reflexivity).
  assert (G4 : group 4 m0 = Some (lit "a: number")) by (vm_compute; reflexivity).
  assert (G5 : return_type_of (group 5 m0) = lit "string") by (vm_compute; reflexivity).
  rewrite G4 in Hp. inversion Hp; subst params.
  rewrite G1 in He. rewrite G2 in Ha. rewrite G3 in Hn. rewrite G5 in Hs.
  assert (Hsig : fn_signature f = lit "(a: number): string")
    by (rewrite Hs; vm_compute; reflexivity).
  replace foo_info with f; [exact Hf|].
  destruct f as [name sig isasync isexp].
  cbn [fn_name fn_signature fn_is_async fn_is_exported] in Hn, Ha, He, Hsig.
  subst. reflexivity.
Qed.

Lemma Forall2_and_In_r A B (R : A -> B -> Prop) (P : B -> Prop) l l' :
  Forall2 R l l' -> (forall x, In x l' -> P x) -> Forall2 (fun f x => R f x /\ P x) l l'.
Proof.
  induction 1 as [|f y l fl Hfy HF IH]; intros HP; constructor.
  - split; [assumption|]. apply HP. now left.
  - apply IH. intros x Hx. apply HP. now right.
Qed.

(** X1: both patterns of [func_patterns] have five groups, so a match of the
    arrow pattern is read like a function declaration: its name is what the
    third group holds (the text [async] with its white space, or [None]),
    and it is async whenever the second group, the name bound, is set, which
    is always.  The functions of the record are those of the declarations,
    then those of the arrow bindings. *)
Theorem arrow_functions_read_as_declarations (fs : FS) (content : str)
    (file_path : Path) (r : FileAnalysis) :
  analyze_typescript_file fs content file_path = Ok r ->
  ngroups function_pattern = 5 /\ ngroups arrow_pattern = 5 /\
  exists declared bound,
    functions r = declared ++ bound /\
    Forall2 ts_function_describes declared (finditer function_pattern content) /\
    Forall2 (fun f m =>
               fn_name f = group 3 m /\ fn_is_async f = true /\
               (group 3 m = None \/ exists ws, group 3 m = Some (lit "async" ++ ws)))
      bound (finditer arrow_pattern content).
Proof.
  intros H. apply analyze_typescript_file_spec in H. destruct H as (_ & HF).
  split; [reflexivity|]. split; [reflexivity|].
  apply Forall2_app_inv_r in HF. destruct HF as (declared & bound & H1 & H2 & ->).
  exists declared, bound. split; [reflexivity|]. split; [exact H1|].
  apply Forall2_and_In_r with (P := fun m => In m (finditer arrow_pattern content)) in H2;
    [|auto].
  revert H2. apply Forall2_impl. intros f m ((Hn & Ha & _) & Hm).
  split; [exact Hn|]. split.
  - rewrite Ha. destruct (finditer_group arrow_pattern content m 2 Hm) as (t & ->);
      reflexivity.
  - destruct (group 3 m) as [t|] eqn:Ht; [right|now left].
    destruct (finditer_group_text arrow_pattern content m 3 t Hm Ht)
      as (rn & a & ga & gb & Hin & M).
    destruct Hin as [<-|[]]. cbv [cat chr plus] in M. inv_matches. eauto.
Qed.

(** * Never raising *)

(** C4: on every text, of whatever kind, the scan of the text returns a
    record and never raises: the result of each analysis is that record
    completed by the answer of the test-existence probe (so an analysis
    raises only what the probe raises); on the empty text, where nothing
    matches, the record has empty lists. *)
Theorem extractor_never_raises (content : str) :
  (exists a, forall fs file_path,
     analyze_typescript_file fs content file_path
     = (has <- check_has_tests fs file_path ;; Ok (set_has_tests a has))) /\
  (exists a, forall fs file_path,
     analyze_python_file fs content file_path
     = (has <- check_has_tests fs file_path ;; Ok (set_has_tests a has))) /\
  (forall fs file_path,
     analyze_typescript_file fs [] file_path
     = (has <- check_has_tests fs file_path ;; Ok (mkFileAnalysis [] [] [] [] [] has)) /\
     analyze_python_file fs [] file_path
     = (has <- check_has_tests fs file_path ;; Ok (mkFileAnalysis [] [] [] [] [] has))).
Proof.
  split; [apply analyze_typescript_file_ok|].
  split; [apply analyze_python_file_ok|].
  intros fs file_path.
  unfold analyze_typescript_file, analyze_python_file.
  change (finditer ?p []) with (finditer_from p 0 0 []). cbn [finditer_from].
  split.
  - assert (E : forall p, In p [ts_import_pattern; export_pattern; default_export_pattern;
                                interface_pattern; type_pattern; enum_pattern;
                                ts_class_pattern; function_pattern; arrow_pattern] ->
                match_at p [] = None).
    { intros p Hp. repeat (destruct Hp as [<-|Hp]; [reflexivity|]). contradiction. }
    rewrite !E by (simpl; auto 12). reflexivity.
  - assert (E : forall p, In p [py_import_pattern; py_class_pattern; def_pattern] ->
                match_at p [] = None).
    { intros p Hp. repeat (destruct Hp as [<-|Hp]; [reflexivity|]). contradiction. }
    rewrite !E by (simpl; auto 12). reflexivity.
Qed.

(** When the probe answers, so does the analysis. *)
Lemma analysis_returns_when_probe_does fs content file_path has :
  check_has_tests fs file_path = Ok has ->
  (exists r, analyze_typescript_file fs content file_path = Ok r /\ has_tests r = has) /\
  (exists r, analyze_python_file fs content file_path = Ok r /\ has_tests r = has).
Proof.
  intros H.
  destruct (analyze_typescript_file_ok content) as (a & Ha).
  destruct (analyze_python_file_ok content) as (b & Hb).
  rewrite Ha, Hb, H. cbn [bind]. split; eexists; split; reflexivity.
Qed.

(** * Files that cannot be read *)

Lemma utf8_ignore_total_upto n : forall b,
  length b <= n -> exists s, utf8_decode Ignore b = Some s.
Proof.
  induction n as [|n IH]; intros b Hb.
  - destruct b; [simpl; eauto|simpl in Hb; lia].
  - destruct b as [|x0 t0]; [simpl; eauto|]. simpl in Hb.
    assert (R0 : exists s, utf8_decode Ignore t0 = Some s) by (apply IH; lia).
    cbn [utf8_decode].
    destruct (Byte.to_N x0 <? 128)%N.
    { destruct R0 as (s & ->). eauto. }
    destruct ((194 <=? Byte.to_N x0) && (Byte.to_N x0 <=? 223))%N.
    { destruct t0 as [|x1 t1]; [eauto|]. simpl in Hb.
      destruct (continuation (Byte.to_N x1)); [|exact R0].
      destruct (IH t1) as (s & ->); [lia|eauto]. }
    destruct ((224 <=? Byte.to_N x0) && (Byte.to_N x0 <=? 239))%N.
    { destruct t0 as [|x1 t1]; [eauto|]. simpl in Hb.
      destruct (second_of_3 (Byte.to_N x0) (Byte.to_N x1)); [|exact R0].
      destruct t1 as [|x2 t2]; [eauto|]. simpl in Hb.
      destruct (continuation (Byte.to_N x2)); [|apply IH; simpl; lia].
      destruct (IH t2) as (s & ->); [lia|eauto]. }
    destruct ((240 <=? Byte.to_N x0) && (Byte.to_N x0 <=? 244))%N; [|exact R0].
    destruct t0 as [|x1 t1]; [eauto|]. simpl in Hb.
    destruct (second_of_4 (Byte.to_N x0) (Byte.to_N x1)); [|exact R0].
    destruct t1 as [|x2 t2]; [eauto|]. simpl in Hb.
    destruct (continuation (Byte.to_N x2)); [|apply IH; simpl; lia].
    destruct t2 as [|x3 t3]; [eauto|]. simpl in Hb.
    destruct (continuation (Byte.to_N x3)); [|apply IH; simpl; lia].
    destruct (IH t3) as (s & ->); [lia|eauto].
Qed.

(** Decoding with [errors='ignore'] never fails. *)
Lemma utf8_ignore_total b : exists s, utf8_decode Ignore b = Some s.
Proof. apply (utf8_ignore_total_upto (length b)). lia. Qed.

(** C1, as the script has it: a file whose read raises gets its FILE line,
    with [has_tests] false, and nothing else; bytes that are no UTF-8 do not
    make the read raise: the decoder drops them and the rest of the file is
    the text that is analysed. *)
Theorem unreadable_file_only_file_line (fs : FS) (entry : Path) (rel_path : str)
    (size : nat) :
  match fs_read fs entry with
  | ReadFails => index_file fs entry rel_path size = Ok [FILE rel_path size false]
  | ReadBytes b =>
      exists s, utf8_decode Ignore b = Some s /\
                read_text fs entry = Some (universal_newlines s)
  end.
Proof.
  destruct (fs_read fs entry) as [|b] eqn:E.
  - unfold index_file, analyze_file, read_text. rewrite E. cbv zeta.
    destruct (negb _); reflexivity.
  - destruct (utf8_ignore_total b) as (s & Hs). exists s. split; [exact Hs|].
    unfold read_text. now rewrite E, Hs.
Qed.

(** * More of the two analyses: exports, types, names *)

Lemma Forall_word w :
  Forall (fun x => cmatch word x = true) w -> Forall (fun c => is_word c = true) w.
Proof. apply Forall_impl. intros x. now rewrite cmatch_word. Qed.

(** A group whose pattern is [\w+] holds an identifier. *)
Lemma finditer_identifier r s m n :
  In m (finditer r s) -> binds n r = true -> group_bodies n r = [plus word] ->
  exists w, group n m = Some w /\ identifier w.
Proof.
  intros Hm Hb Hg. destruct (finditer_group r s m n Hm Hb) as (w & Hw).
  exists w. split; [exact Hw|].
  destruct (finditer_group_text r s m n w Hm Hw) as (rn & a & ga & gb & Hin & M).
  rewrite Hg in Hin. destruct Hin as [<-|[]]. cbv [plus] in M. inv_matches.
  split; [now apply nonempty_of_length|now apply Forall_word].
Qed.

Lemma map_group_identifiers r s n :
  binds n r = true -> group_bodies n r = [plus word] ->
  exists ws, map (group n) (finditer r s) = map Some ws /\ Forall identifier ws.
Proof.
  intros Hb Hg.
  assert (G : forall l, (forall m, In m l -> In m (finditer r s)) ->
            exists ws, map (group n) l = map Some ws /\ Forall identifier ws).
  { induction l as [|m l IH]; intros Hl; [exists []; split; [reflexivity|constructor]|].
    destruct IH as (ws & E & F); [intros x Hx; apply Hl; now right|].
    destruct (finditer_identifier r s m n (Hl m (or_introl eq_refl)) Hb Hg) as (w & Hw & Hi).
    exists (w :: ws). simpl. rewrite Hw, E. split; [reflexivity|now constructor]. }
  apply G. auto.
Qed.

Lemma fold_left_append_export (f : Match -> pyval) l a :
  exports (fold_left (fun a m => append_export a (f m)) l a) = exports a ++ map f l /\
  imports (fold_left (fun a m => append_export a (f m)) l a) = imports a /\
  types (fold_left (fun a m => append_export a (f m)) l a) = types a.
Proof.
  revert a. induction l as [|m l IH]; intros a; simpl; [now rewrite app_nil_r|].
  destruct (IH (append_export a (f m))) as (-> & -> & ->). simpl.
  now rewrite <- app_assoc.
Qed.

Lemma fold_left_type_step k l a :
  types (fold_left (type_step k) l a)
  = types a ++ map (fun m => mkTypeInfo (group 2 m) k (is_not_None (group 1 m))) l /\
  exports (fold_left (type_step k) l a) = exports a.
Proof.
  revert a. induction l as [|m l IH]; intros a; simpl; [now rewrite app_nil_r|].
  destruct (IH (type_step k a m)) as (-> & ->). simpl.
  now rewrite <- app_assoc.
Qed.

(** The exports and the types of a kind-A record, as lists of matches. *)
Lemma ts_exports_types fs content file_path r :
  analyze_typescript_file fs content file_path = Ok r ->
  exports r = map (group 1) (finditer export_pattern content)
              ++ map (fun m => Some (lit "default: " ++ fmt (group 1 m)))
                   (finditer default_export_pattern content) /\
  types r = map (fun m => mkTypeInfo (group 2 m) KInterface (is_not_None (group 1 m)))
              (finditer interface_pattern content)
            ++ map (fun m => mkTypeInfo (group 2 m) KType (is_not_None (group 1 m)))
                 (finditer type_pattern content)
            ++ map (fun m => mkTypeInfo (group 2 m) KEnum (is_not_None (group 1 m)))
                 (finditer enum_pattern content).
Proof.
  unfold analyze_typescript_file. cbv zeta. intros H. inv_bind.
  cbn [set_has_tests exports types].
  destruct (ts_functions_loop_fields _ _ _ E0) as (_ & -> & _ & ->).
  rewrite (for_each_preserve Match FileAnalysis _ exports _ _
             (fun s x s1 Hs => proj1 (proj2 (ts_class_step_fields content s x s1 Hs))) _ _ E).
  rewrite (for_each_preserve Match FileAnalysis _ types _ _
             (fun s x s1 Hs => proj2 (proj2 (proj2 (ts_class_step_fields content s x s1 Hs))))
             _ _ E).
  repeat match goal with
  | |- context [fold_left (type_step ?k) ?l ?a] =>
      let Ht := fresh "Ht" in let He := fresh "He" in
      destruct (fold_left_type_step k l a) as (Ht & He); rewrite Ht, He; clear Ht He
  end.
  repeat match goal with
  | |- context [fold_left (fun x m => append_export x (@?f m)) ?l ?a0] =>
      let H1 := fresh "H" in let H2 := fresh "H" in let H3 := fresh "H" in
      destruct (fold_left_append_export f l a0) as (H1 & H2 & H3);
      rewrite H1, H3; clear H1 H2 H3
  end.
  destruct (fold_left_append_import_fields (group 1)
              (finditer ts_import_pattern content) FileAnalysis_new) as (_ & _ & -> & ->).
  simpl. rewrite <- !app_assoc. auto.
Qed.

(** What a match of [(export\s+)?KEYWORD\s+(\w+)] looks like: the keyword,
    white space and an identifier, the second group; after [export] and
    white space exactly when the first group is set. *)
Lemma decl_match_shape keyword content m :
  In m (finditer (decl_pattern keyword) content) ->
  exists name ws,
    group 2 m = Some name /\ identifier name /\ white ws /\
    ((group 1 m = None /\ group0 m = lit keyword ++ ws ++ name) \/
     (exists ws1, white ws1 /\ group 1 m = Some (lit "export" ++ ws1) /\
        group0 m = lit "export" ++ ws1 ++ lit keyword ++ ws ++ name)).
Proof.
  intros H. apply finditer_In in H. destruct H as (pre & Hc & Hs & H).
  apply match_at_sound in H. destruct H as (w & post & Hw & Hl & M).
  cbv [decl_pattern cat chr plus] in M.
  remember (m_regs m) as regs eqn:Hr. unfold group0. rewrite Hl, Hw.
  rewrite firstn_app, Nat.sub_diag, firstn_all. cbn [firstn]. rewrite app_nil_r.
  inv_matches;
    repeat match goal with
    | H : Forall (fun x => cmatch space x = true) _ |- _ => apply Forall_space in H
    | H : Forall (fun x => cmatch word x = true) _ |- _ => apply Forall_word in H
    | H : 1 <= length _ |- _ => apply nonempty_of_length in H
    end.
  - (* exported *)
    match goal with
    | |- context [((_ ++ ?ws1) ++ _ ++ ?ws ++ ?name)] =>
        exists name, ws; split; [|split; [split; assumption|split; [split; assumption|]]]
    end.
    + unfold group. match goal with Hregs : _ = m_regs m |- _ => rewrite <- Hregs end. cbn [span_of Nat.eqb]. f_equal. rewrite Hw.
      match goal with
      | |- slice (((?e ++ ?ws1) ++ ?k ++ ?ws ++ ?name) ++ ?post) _ _ = _ =>
          replace (((e ++ ws1) ++ k ++ ws ++ name) ++ post)
            with ((e ++ ws1 ++ k ++ ws) ++ name ++ post)
            by (repeat rewrite <- app_assoc; reflexivity)
      end.
      apply slice_mid; rewrite ?length_app; simpl; lia.
    + right.
      match goal with
      | |- context [((_ ++ ?ws1) ++ _ ++ _ ++ _)] =>
          exists ws1; split; [split; assumption|split]
      end.
      * unfold group. match goal with Hregs : _ = m_regs m |- _ => rewrite <- Hregs end. cbn [span_of Nat.eqb]. f_equal. rewrite Hw.
        repeat rewrite <- app_assoc.
        match goal with
        | |- slice (?e ++ ?ws1 ++ ?rest) _ _ = _ =>
            change (slice ([] ++ (e ++ ws1) ++ rest) 0 (0 + length (e ++ ws1)) = e ++ ws1)
              || replace (e ++ ws1 ++ rest) with ([] ++ (e ++ ws1) ++ rest)
                   by (simpl; now rewrite <- app_assoc)
        end.
        apply slice_mid; simpl; lia.
      * now repeat rewrite <- app_assoc.
  - (* not exported *)
    match goal with
    | |- context [([] ++ _ ++ ?ws ++ ?name)] =>
        exists name, ws; split; [|split; [split; assumption|split; [split; assumption|]]]
    end.
    + unfold group. match goal with Hregs : _ = m_regs m |- _ => rewrite <- Hregs end. cbn [span_of Nat.eqb]. f_equal. rewrite Hw.
      cbn [app].
      match goal with
      | |- slice ((?k ++ ?ws ++ ?name) ++ ?post) _ _ = _ =>
          replace ((k ++ ws ++ name) ++ post) with ((k ++ ws) ++ name ++ post)
            by (repeat rewrite <- app_assoc; reflexivity)
      end.
      apply slice_mid; rewrite ?length_app; simpl; lia.
    + left. split; [|reflexivity].
      unfold group. match goal with Hregs : _ = m_regs m |- _ => rewrite <- Hregs end. reflexivity.
Qed.

(** X2: the exports of a kind-A record are the names of the named exports,
    each an identifier, in the order of the text, and after all of them the
    default exports, each the text [default: ] before an identifier; no entry
    is [None]. *)
Theorem ts_exports_named_then_default (fs : FS) (content : str) (file_path : Path)
    (r : FileAnalysis) :
  analyze_typescript_file fs content file_path = Ok r ->
  exists named defaults,
    exports r = map Some named ++ map (fun d => Some (lit "default: " ++ d)) defaults /\
    Forall identifier named /\ Forall identifier defaults /\
    map Some named = map (group 1) (finditer export_pattern content) /\
    map Some defaults = map (group 1) (finditer default_export_pattern content).
Proof.
  intros H. apply ts_exports_types in H. destruct H as (He & _).
  destruct (map_group_identifiers export_pattern content 1 eq_refl eq_refl)
    as (named & En & Fn).
  destruct (map_group_identifiers default_export_pattern content 1 eq_refl eq_refl)
    as (defaults & Ed & Fd).
  exists named, defaults. rewrite He, En. repeat split; auto.
  f_equal. clear - Ed. revert defaults Ed.
  induction (finditer default_export_pattern content) as [|m l IH];
    intros [|d defaults] Ed; try discriminate; [reflexivity|].
  simpl in Ed |- *. inversion Ed as [[Hm Hl]]. rewrite Hm. simpl. f_equal. now apply IH.
Qed.

Lemma map_type_describes k content :
  Forall2 (type_describes k)
    (map (fun m => mkTypeInfo (group 2 m) k (is_not_None (group 1 m)))
       (finditer (decl_pattern (kind_keyword k)) content))
    (finditer (decl_pattern (kind_keyword k)) content).
Proof.
  assert (Hkw : lit (kind_keyword k) = kind_text k) by (destruct k; reflexivity).
  assert (G : forall l,
            (forall m, In m l -> In m (finditer (decl_pattern (kind_keyword k)) content)) ->
            Forall2 (type_describes k)
              (map (fun m => mkTypeInfo (group 2 m) k (is_not_None (group 1 m))) l) l).
  { induction l as [|m l IH]; intros Hl; constructor.
    - destruct (decl_match_shape (kind_keyword k) content m (Hl m (or_introl eq_refl)))
        as (name & ws & Hn & Hi & Hws & Hcase).
      rewrite Hkw in Hcase.
      split; [reflexivity|]. exists name, ws. cbn [ty_name ty_is_exported].
      split; [exact Hn|]. split; [exact Hi|]. split; [exact Hws|].
      destruct Hcase as [(H1 & H0)|(ws1 & Hw1 & H1 & H0)]; rewrite H1.
      + left. auto.
      + right. split; [reflexivity|]. eauto.
    - apply IH. intros x Hx. apply Hl. now right. }
  apply G. auto.
Qed.

(** X3: the types of a kind-A record are grouped by kind, not by place in
    the text: the interfaces first, then the type aliases, then the enums,
    each group in the order of the text; each is named by an identifier and
    is exported exactly when its keyword stands after [export] and white
    space. *)
Theorem ts_types_grouped_by_kind (fs : FS) (content : str) (file_path : Path)
    (r : FileAnalysis) :
  analyze_typescript_file fs content file_path = Ok r ->
  exists interfaces aliases enums,
    types r = interfaces ++ aliases ++ enums /\
    Forall2 (type_describes KInterface) interfaces (finditer interface_pattern content) /\
    Forall2 (type_describes KType) aliases (finditer type_pattern content) /\
    Forall2 (type_describes KEnum) enums (finditer enum_pattern content).
Proof.
  intros H. apply ts_exports_types in H. destruct H as (_ & Ht).
  eexists. eexists. eexists. split; [exact Ht|].
  split; [|split].
  - apply (map_type_describes KInterface content).
  - apply (map_type_describes KType content).
  - apply (map_type_describes KEnum content).
Qed.

(** X4: in a kind-A record every class is named by an identifier and is
    exported exactly when [class] stands after [export] and white space; none
    of its methods is named [constructor] or like the class, every method is
    named by an identifier and none is exported. *)
Theorem ts_classes_without_constructor (fs : FS) (content : str) (file_path : Path)
    (r : FileAnalysis) :
  analyze_typescript_file fs content file_path = Ok r ->
  Forall2 (fun c m =>
      (exists name ws,
         cl_name c = Some name /\ identifier name /\ white ws /\
         ((cl_is_exported c = false /\ group0 m = lit "class" ++ ws ++ name) \/
          (cl_is_exported c = true /\
           exists ws1, white ws1 /\
             group0 m = lit "export" ++ ws1 ++ lit "class" ++ ws ++ name))) /\
      (forall f, In f (cl_methods c) ->
         fn_name f <> Some (lit "constructor") /\ fn_name f <> cl_name c /\
         fn_is_exported f = false /\
         exists name, fn_name f = Some name /\ identifier name))
    (classes r) (finditer ts_class_pattern content).
Proof.
  intros H. apply analyze_typescript_file_spec in H. destruct H as (Hc & _).
  apply Forall2_and_In_r with (P := fun m => In m (finditer ts_class_pattern content)) in Hc;
    [|auto].
  revert Hc. apply Forall2_impl. intros c m ((Hn & He & HF) & Hm). split.
  - destruct (decl_match_shape "class" content m Hm) as (name & ws & H2 & Hi & Hws & Hcase).
    exists name, ws. rewrite Hn, He. split; [exact H2|]. split; [exact Hi|].
    split; [exact Hws|].
    destruct Hcase as [(H1 & H0)|(ws1 & Hw1 & H1 & H0)]; rewrite H1.
    + left. auto.
    + right. split; [reflexivity|]. eauto.
  - intros f Hf.
    destruct (Forall2_filter_In_l _ _ _ _ _ _ HF f Hf) as (mm & Hmm & Hk & Hd).
    destruct Hd as (Hfn & _ & Hfe & _).
    unfold ts_keeps in Hk. rewrite <- Hfn, <- Hn in Hk.
    assert (Hnot : ~ In (fn_name f) [Some (lit "constructor"); cl_name c]).
    { intros Hin. apply pyval_in_In in Hin. now rewrite Hin in Hk. }
    split; [intros E; apply Hnot; rewrite E; now left|].
    split; [intros E; apply Hnot; rewrite E; right; now left|].
    split; [exact Hfe|].
    destruct (finditer_identifier ts_method_pattern _ mm 2 Hmm eq_refl eq_refl)
      as (name & Hname & Hi).
    exists name. now rewrite Hfn.
Qed.

Lemma cmatch_not_space x : cmatch not_space x = negb (is_space x).
Proof. simpl. now rewrite orb_false_r. Qed.

(** X5: a kind-B record has no exports and no types, and nothing in it is
    exported; its imports begin with a dot followed by at least one more
    character and hold no white space (so [from . import x] gives none), and
    its classes, methods and functions are named by identifiers. *)
Theorem py_record_shape (fs : FS) (content : str) (file_path : Path) (r : FileAnalysis) :
  analyze_python_file fs content file_path = Ok r ->
  exports r = [] /\ types r = [] /\
  (forall p, In p (imports r) ->
     exists rest, p = Some (lit "." ++ rest) /\ rest <> [] /\
                  Forall (fun c => is_space c = false) rest) /\
  (forall c, In c (classes r) ->
     cl_is_exported c = false /\ (exists name, cl_name c = Some name /\ identifier name) /\
     forall f, In f (cl_methods c) ->
       fn_is_exported f = false /\ exists name, fn_name f = Some name /\ identifier name) /\
  (forall f, In f (functions r) ->
     fn_is_exported f = false /\ exists name, fn_name f = Some name /\ identifier name) /\
  finditer py_import_pattern (lit "from . import x") = [].
Proof.
  intros H. apply analyze_python_file_spec in H.
  destruct H as (Hi & Hc & Hf & He & Ht & _).
  split; [exact He|]. split; [exact Ht|]. split; [|split; [|split; [|reflexivity]]].
  - intros p Hp. rewrite Hi in Hp. apply in_map_iff in Hp. destruct Hp as (m & <- & Hm).
    destruct (finditer_group py_import_pattern content m 1 Hm eq_refl) as (t & Ht1).
    destruct (finditer_group_text py_import_pattern content m 1 t Hm Ht1)
      as (rn & a & ga & gb & Hin & M).
    destruct Hin as [<-|[]]. cbv [cat chr plus] in M. inv_matches.
    eexists. split; [exact Ht1|]. split; [now apply nonempty_of_length|].
    match goal with H : Forall (fun x => cmatch not_space x = true) _ |- _ =>
      revert H; apply Forall_impl end.
    intros c. rewrite cmatch_not_space. now destruct (is_space c).
  - intros c Hcin.
    destruct (Forall2_In_l _ _ _ _ _ Hc c Hcin) as (cm & Hcm & Hn & Hex & HM).
    split; [exact Hex|]. split.
    + destruct (finditer_identifier py_class_pattern content cm 1 Hcm eq_refl eq_refl)
        as (name & Hname & Hid).
      exists name. now rewrite Hn.
    + intros f Hfin.
      destruct (Forall2_filter_In_l _ _ _ _ _ _ HM f Hfin) as (mm & Hmm & _ & Hd).
      destruct Hd as (Hfn & _ & Hfe & _). split; [exact Hfe|].
      destruct (finditer_identifier def_pattern _ mm 1 Hmm eq_refl eq_refl)
        as (name & Hname & Hid).
      exists name. now rewrite Hfn.
  - intros f Hfin.
    destruct (Forall2_filter_In_l _ _ _ _ _ _ Hf f Hfin) as (m & Hm & _ & Hd).
    destruct Hd as (Hfn & _ & Hfe & _). split; [exact Hfe|].
    destruct (finditer_identifier def_pattern _ m 1 Hm eq_refl eq_refl)
      as (name & Hname & Hid).
    exists name. now rewrite Hfn.
Qed.

(** * More of the probe and of [analyze_file] *)

Lemma rfind_none (c : char) (s : str) :
  Forall (fun x : char => x <> c) s -> rfind c s = None.
Proof.
  induction 1 as [|x s Hx _ IH]; simpl; [reflexivity|].
  rewrite IH. destruct (N.eqb_spec x c); [contradiction|reflexivity].
Qed.

Lemma rfind_last (c : char) (stem e : str) :
  Forall (fun x : char => x <> c) e -> rfind c (stem ++ [c] ++ e) = Some (length stem).
Proof.
  intros He. induction stem as [|x stem IH]; simpl.
  - rewrite (rfind_none c e He). now rewrite N.eqb_refl.
  - simpl in IH. now rewrite IH.
Qed.

(** The suffix of [stem.e] is [.e]. *)
Lemma suffix_of_dotted (parent : list str) (stem e : str) :
  stem <> [] -> e <> [] -> Forall (fun x : char => x <> 46%N) e ->
  suffix (mkPath parent (stem ++ lit "." ++ e)) = lit "." ++ e.
Proof.
  intros Hs He Hd. unfold suffix. cbn [p_name].
  assert (R : rfind 46%N (stem ++ lit "." ++ e) = Some (length stem))
    by (apply (rfind_last 46%N stem e Hd)).
  rewrite R.
  assert (L1 : 0 < length stem) by (destruct stem; [contradiction|simpl; lia]).
  assert (L2 : 0 < length e) by (destruct e; [contradiction|simpl; lia]).
  replace (Nat.ltb 0 (length stem)) with true by (symmetry; apply Nat.ltb_lt; lia).
  replace (Nat.ltb (length stem) (length (stem ++ lit "." ++ e) - 1)) with true
    by (symmetry; apply Nat.ltb_lt; rewrite !length_app; simpl; lia).
  cbn [andb]. rewrite skipn_app, skipn_all, Nat.sub_diag. reflexivity.
Qed.

Lemma with_suffix_of_dotted (parent : list str) (stem e sfx : str) :
  stem <> [] -> e <> [] -> Forall (fun x : char => x <> 46%N) e ->
  with_suffix (mkPath parent (stem ++ lit "." ++ e)) sfx = Ok (mkPath parent (stem ++ sfx)).
Proof.
  intros Hs He Hd. unfold with_suffix.
  rewrite (suffix_of_dotted parent stem e Hs He Hd). cbn [p_name p_parent].
  destruct (stem ++ lit "." ++ e) eqn:E.
  - destruct stem; [contradiction|discriminate].
  - rewrite <- E. rewrite !length_app.
    replace (length stem + (length (lit ".") + length e) - (length (lit ".") + length e))
      with (length stem) by lia.
    rewrite firstn_app, firstn_all, Nat.sub_diag. cbn [firstn]. now rewrite app_nil_r.
Qed.

Lemma any_exists_total fs (present : Path -> bool) ps :
  (forall p, fs_exists fs p = Ok (present p)) -> any_exists fs ps = Ok (existsb present ps).
Proof.
  intros H. induction ps as [|p ps IH]; simpl; [reflexivity|].
  rewrite H. simpl. destruct (present p); [reflexivity|exact IH].
Qed.

(** X6: for a file [stem.e] of a directory, when [exists()] answers for every
    path, the probe says whether one of five paths exists: [stem.test.e] and
    [stem.spec.e] beside the file, and [stem.e], [stem.test.e] and
    [stem.spec.e] in the directory [__tests__] beside it. *)
Theorem probe_candidates (fs : FS) (present : Path -> bool) (parent : list str)
    (stem e : str) :
  stem <> [] -> e <> [] -> Forall (fun x : char => x <> 46%N) e ->
  (forall p, fs_exists fs p = Ok (present p)) ->
  check_has_tests fs (mkPath parent (stem ++ lit "." ++ e))
  = Ok (present (mkPath parent (stem ++ lit ".test." ++ e))
        || present (mkPath parent (stem ++ lit ".spec." ++ e))
        || present (mkPath (parent ++ [lit "__tests__"]) (stem ++ lit "." ++ e))
        || present (mkPath (parent ++ [lit "__tests__"]) (stem ++ lit ".test." ++ e))
        || present (mkPath (parent ++ [lit "__tests__"]) (stem ++ lit ".spec." ++ e))).
Proof.
  intros Hs He Hd Hex. unfold check_has_tests.
  rewrite !(with_suffix_of_dotted parent stem e _ Hs He Hd).
  rewrite (suffix_of_dotted parent stem e Hs He Hd). cbn [bind p_name].
  rewrite (any_exists_total fs present _ Hex). unfold in_tests_dir. cbn [existsb p_parent p_name].
  rewrite orb_false_r, !orb_assoc.
  change (lit ".test" ++ lit "." ++ e) with (lit ".test." ++ e).
  change (lit ".spec" ++ lit "." ++ e) with (lit ".spec." ++ e).
  reflexivity.
Qed.

(** X7: the probe asks its paths in order and stops at the first that
    exists: when [stem.test.e] exists beside the file the answer is true,
    whatever [exists()] does on the other paths; and for a path without a
    name the probe raises [ValueError] before it asks anything. *)
Theorem probe_stops_at_first (fs : FS) (parent : list str) (stem e : str) :
  stem <> [] -> e <> [] -> Forall (fun x : char => x <> 46%N) e ->
  fs_exists fs (mkPath parent (stem ++ lit ".test." ++ e)) = Ok true ->
  check_has_tests fs (mkPath parent (stem ++ lit "." ++ e)) = Ok true /\
  check_has_tests fs (mkPath parent []) = Raise ValueError.
Proof.
  intros Hs He Hd Hex. split; [|reflexivity]. unfold check_has_tests.
  rewrite !(with_suffix_of_dotted parent stem e _ Hs He Hd).
  rewrite (suffix_of_dotted parent stem e Hs He Hd). cbn [bind any_exists].
  change (lit ".test" ++ lit "." ++ e) with (lit ".test." ++ e).
  rewrite Hex. reflexivity.
Qed.

Lemma lower_ascii (s : str) :
  Forall (fun c : char => (c < 128)%N) s -> lower s = map ascii_lower s.
Proof.
  induction 1 as [|c s Hc _ IH]; [reflexivity|].
  unfold lower in *. cbn [flat_map map]. rewrite IH.
  apply N.ltb_lt in Hc. now rewrite Hc.
Qed.

Lemma str_in_dotted ext l :
  str_in (lit "." ++ ext) (map (fun x => lit "." ++ x) l) = str_in ext l.
Proof.
  unfold str_in. induction l as [|x l IH]; [reflexivity|].
  cbn [map existsb]. rewrite IH. reflexivity.
Qed.

(** X8: [analyze_file] goes by the text after the last dot of the name, in
    lower case: [ts], [tsx], [js], [jsx] give the kind-A analysis of the text
    read, [py] the kind-B one, [java], [go], [rs], [c], [cpp], [h], [hpp] a
    record with empty lists and the answer of the probe, whatever the file
    holds; every other file gives [None], and so does a file that cannot be
    read. *)
Theorem analyze_file_by_extension (fs : FS) (parent : list str) (stem e : str) :
  stem <> [] -> e <> [] -> Forall (fun x : char => x <> 46%N) e ->
  Forall (fun c : char => (c < 128)%N) e ->
  analyze_file fs (mkPath parent (stem ++ lit "." ++ e))
  = if str_in (map ascii_lower e)
         (map lit ["ts"; "tsx"; "js"; "jsx"; "py"; "java"; "go"; "rs";
                   "c"; "cpp"; "h"; "hpp"]%string)
    then
      match read_text fs (mkPath parent (stem ++ lit "." ++ e)) with
      | None => Ok None
      | Some content =>
          if str_in (map ascii_lower e) (map lit ["ts"; "tsx"; "js"; "jsx"]%string) then
            a <- analyze_typescript_file fs content (mkPath parent (stem ++ lit "." ++ e)) ;;
            Ok (Some a)
          else if str_eqb (map ascii_lower e) (lit "py") then
            a <- analyze_python_file fs content (mkPath parent (stem ++ lit "." ++ e)) ;;
            Ok (Some a)
          else
            has <- check_has_tests fs (mkPath parent (stem ++ lit "." ++ e)) ;;
            Ok (Some (mkFileAnalysis [] [] [] [] [] has))
      end
    else Ok None.
Proof.
  intros Hs He Hd Ha. unfold analyze_file. cbv zeta.
  rewrite (suffix_of_dotted parent stem e Hs He Hd).
  assert (El : lower (lit "." ++ e) = lit "." ++ map ascii_lower e).
  { rewrite lower_ascii; [reflexivity|]. constructor; [reflexivity|exact Ha]. }
  rewrite El.
  change CODE_EXTENSIONS
    with (map (fun x => lit "." ++ x)
            (map lit ["ts"; "tsx"; "js"; "jsx"; "py"; "java"; "go"; "rs";
                      "c"; "cpp"; "h"; "hpp"]%string)).
  change (map lit [".ts"; ".tsx"; ".js"; ".jsx"]%string)
    with (map (fun x => lit "." ++ x) (map lit ["ts"; "tsx"; "js"; "jsx"]%string)).
  rewrite !str_in_dotted.
  change (str_eqb (lit "." ++ map ascii_lower e) (lit ".py"))
    with (str_eqb (map ascii_lower e) (lit "py")).
  destruct (str_in (map ascii_lower e) _); reflexivity.
Qed.

(** A name without a dot, or with its only dot first, is never analysed. *)
Lemma analyze_file_without_suffix fs parent (name : str) :
  Forall (fun x : char => x <> 46%N) name ->
  analyze_file fs (mkPath parent name) = Ok None /\
  analyze_file fs (mkPath parent (lit "." ++ name)) = Ok None.
Proof.
  intros H. unfold analyze_file, suffix. cbn [p_name].
  change (lit ".") with [46%N]. cbn [app rfind].
  rewrite (rfind_none 46%N name H). rewrite N.eqb_refl. cbn. split; reflexivity.
Qed.

(** * More of the file that is read *)

Lemma utf8_strict_then_ignore_upto n : forall b s,
  length b <= n -> utf8_decode Strict b = Some s -> utf8_decode Ignore b = Some s.
Proof.
  induction n as [|n IH]; intros b s Hb.
  - destruct b; [simpl; auto|simpl in Hb; lia].
  - destruct b as [|x0 t0]; [simpl; auto|]. simpl in Hb.
    cbn [utf8_decode].
    destruct (Byte.to_N x0 <? 128)%N.
    { destruct (utf8_decode Strict t0) as [s0|] eqn:E0; [|discriminate].
      rewrite (IH t0 s0) by (auto; lia). auto. }
    destruct ((194 <=? Byte.to_N x0) && (Byte.to_N x0 <=? 223))%N.
    { destruct t0 as [|x1 t1]; [discriminate|]. simpl in Hb.
      destruct (continuation (Byte.to_N x1)); [|discriminate].
      destruct (utf8_decode Strict t1) as [s1|] eqn:E1; [|discriminate].
      rewrite (IH t1 s1) by (auto; lia). auto. }
    destruct ((224 <=? Byte.to_N x0) && (Byte.to_N x0 <=? 239))%N.
    { destruct t0 as [|x1 t1]; [discriminate|]. simpl in Hb.
      destruct (second_of_3 (Byte.to_N x0) (Byte.to_N x1)); [|discriminate].
      destruct t1 as [|x2 t2]; [discriminate|]. simpl in Hb.
      destruct (continuation (Byte.to_N x2)); [|discriminate].
      destruct (utf8_decode Strict t2) as [s2|] eqn:E2; [|discriminate].
      rewrite (IH t2 s2) by (auto; lia). auto. }
    destruct ((240 <=? Byte.to_N x0) && (Byte.to_N x0 <=? 244))%N; [|discriminate].
    destruct t0 as [|x1 t1]; [discriminate|]. simpl in Hb.
    destruct (second_of_4 (Byte.to_N x0) (Byte.to_N x1)); [|discriminate].
    destruct t1 as [|x2 t2]; [discriminate|]. simpl in Hb.
    destruct (continuation (Byte.to_N x2)); [|discriminate].
    destruct t2 as [|x3 t3]; [discriminate|]. simpl in Hb.
    destruct (continuation (Byte.to_N x3)); [|discriminate].
    destruct (utf8_decode Strict t3) as [s3|] eqn:E3; [|discriminate].
    rewrite (IH t3 s3) by (auto; lia). auto.
Qed.

Lemma universal_newlines_no_cr_upto n : forall s,
  length s <= n -> ~ In 13%N (universal_newlines s).
Proof.
  induction n as [|n IH]; intros s Hs.
  - destruct s; [simpl; auto|simpl in Hs; lia].
  - destruct s as [|c s]; [simpl; auto|]. simpl in Hs. cbn [universal_newlines].
    destruct (N.eqb_spec c 13).
    + destruct s as [|d s]; [intros [H|[]]; discriminate|]. simpl in Hs.
      destruct (d =? 10)%N; intros [H|H]; try discriminate;
        revert H; apply IH; simpl; lia.
    + intros [H|H]; [congruence|]. revert H. apply IH. lia.
Qed.

(** X9: for a file whose bytes are valid UTF-8, the text that is analysed is
    their decoding with every line ending read as a line feed: ignoring
    decoding errors changes nothing there, and the text holds no carriage
    return. *)
Theorem read_text_of_valid_utf8 (fs : FS) (file_path : Path) (b : list Byte.byte)
    (s : str) :
  fs_read fs file_path = ReadBytes b -> utf8_decode Strict b = Some s ->
  read_text fs file_path = Some (universal_newlines s) /\
  ~ In 13%N (universal_newlines s).
Proof.
  intros Hr Hs. split.
  - unfold read_text. rewrite Hr.
    now rewrite (utf8_strict_then_ignore_upto (length b) b s (Nat.le_refl _) Hs).
  - apply (universal_newlines_no_cr_upto (length s)). lia.
Qed.

(** * The order of the walk *)

Lemma str_leb_refl a : str_leb a a = true.
Proof.
  induction a as [|x a IH]; simpl; [reflexivity|].
  now rewrite N.ltb_irrefl, N.eqb_refl.
Qed.

Lemma str_leb_total a : forall b, str_leb a b = false -> str_leb b a = true.
Proof.
  induction a as [|x a IH]; intros [|y b] H; simpl in *; try discriminate; auto.
  destruct (N.ltb_spec x y) as [Hlt|Hge]; [discriminate|].
  destruct (N.eqb_spec x y) as [->|Hne].
  - rewrite N.ltb_irrefl, N.eqb_refl. now apply IH.
  - replace (N.ltb y x) with true by (symmetry; apply N.ltb_lt; lia). reflexivity.
Qed.

Lemma str_leb_trans a : forall b c,
  str_leb a b = true -> str_leb b c = true -> str_leb a c = true.
Proof.
  induction a as [|x a IH]; intros [|y b] [|z c] H1 H2; simpl in *;
    try discriminate; auto.
  destruct (N.ltb_spec x y) as [Hxy|Hxy].
  - destruct (N.ltb_spec y z) as [Hyz|Hyz].
    + replace (N.ltb x z) with true by (symmetry; apply N.ltb_lt; lia). reflexivity.
    + destruct (N.eqb_spec y z) as [->|Hne]; [|discriminate].
      replace (N.ltb x z) with true by (symmetry; apply N.ltb_lt; lia). reflexivity.
  - destruct (N.eqb_spec x y) as [->|Hne]; [|discriminate].
    destruct (N.ltb_spec y z) as [Hyz|Hyz]; [reflexivity|].
    destruct (N.eqb_spec y z) as [->|Hne]; [|discriminate].
    eauto.
Qed.

Lemma key_leb_total k1 k2 : key_leb k1 k2 = false -> key_leb k2 k1 = true.
Proof.
  destruct k1 as [[|] a], k2 as [[|] b]; unfold key_leb; simpl; intros H;
    try discriminate; try reflexivity; now apply str_leb_total.
Qed.

Lemma key_leb_trans k1 k2 k3 :
  key_leb k1 k2 = true -> key_leb k2 k3 = true -> key_leb k1 k3 = true.
Proof.
  destruct k1 as [[|] a], k2 as [[|] b], k3 as [[|] c]; unfold key_leb; simpl;
    intros H1 H2; try discriminate; try reflexivity; eapply str_leb_trans; eauto.
Qed.

Section Sorting.
Variable A : Type.
Variable key : A -> bool * str.

Lemma insert_sorted_perm x l : Permutation (insert_sorted key x l) (x :: l).
Proof.
  induction l as [|y l IH]; simpl; [reflexivity|].
  destruct (key_leb (key x) (key y)); [reflexivity|].
  rewrite IH. apply perm_swap.
Qed.

Lemma sorted_perm l : Permutation (sorted key l) l.
Proof.
  induction l as [|x l IH]; simpl; [reflexivity|].
  rewrite insert_sorted_perm. now constructor.
Qed.

Lemma insert_sorted_sorted x l :
  StronglySorted (key_le key) l -> StronglySorted (key_le key) (insert_sorted key x l).
Proof.
  induction 1 as [|y l Hl IH Hy]; simpl; [repeat constructor|].
  destruct (key_leb (key x) (key y)) eqn:E.
  - constructor; [now constructor|]. constructor; [exact E|].
    revert Hy. apply Forall_impl. intros z Hz. unfold key_le in *.
    eapply key_leb_trans; eauto.
  - constructor; [exact IH|].
    apply Forall_forall. intros z Hz.
    apply (Permutation_in _ (insert_sorted_perm x l)) in Hz.
    destruct Hz as [<-|Hz]; [now apply key_leb_total|].
    rewrite Forall_forall in Hy. now apply Hy.
Qed.

Lemma sorted_sorted l : StronglySorted (key_le key) (sorted key l).
Proof.
  induction l as [|x l IH]; simpl; [constructor|]. now apply insert_sorted_sorted.
Qed.

Lemma insert_sorted_first x l :
  Forall (key_le key x) l -> insert_sorted key x l = x :: l.
Proof.
  destruct 1 as [|y l Hy _]; simpl; [reflexivity|]. unfold key_le in Hy. now rewrite Hy.
Qed.

(** Filtering a sorted list and sorting the filtered list give the same. *)
Lemma filter_insert_sorted (p : A -> bool) x l :
  StronglySorted (key_le key) l ->
  filter p (insert_sorted key x l)
  = if p x then insert_sorted key x (filter p l) else filter p l.
Proof.
  induction 1 as [|y l Hl IH Hy]; simpl; [now destruct (p x)|].
  destruct (key_leb (key x) (key y)) eqn:E.
  - cbn [filter]. destruct (p x); [|reflexivity].
    symmetry. change (if p y then y :: filter p l else filter p l) with (filter p (y :: l)).
    apply insert_sorted_first. apply incl_Forall with (l1 := y :: l).
    + intros z Hz. apply filter_In in Hz. tauto.
    + constructor; [exact E|]. revert Hy. apply Forall_impl. intros z Hz.
      unfold key_le in *. eapply key_leb_trans; eauto.
  - cbn [filter]. rewrite IH. destruct (p x), (p y); try reflexivity.
    simpl. now rewrite E.
Qed.

Lemma filter_sorted (p : A -> bool) l :
  filter p (sorted key l) = sorted key (filter p l).
Proof.
  induction l as [|x l IH]; simpl; [reflexivity|].
  rewrite filter_insert_sorted by apply sorted_sorted.
  rewrite IH. now destruct (p x).
Qed.

End Sorting.

Lemma insert_sorted_map A B (key : A -> bool * str) (f : B -> A) x l :
  insert_sorted key (f x) (map f l) = map f (insert_sorted (fun b => key (f b)) x l).
Proof.
  induction l as [|y l IH]; simpl; [reflexivity|].
  destruct (key_leb (key (f x)) (key (f y))); simpl; [reflexivity|]. now rewrite IH.
Qed.

(** Sorting the entries with what visiting them writes is sorting the
    entries. *)
Lemma sorted_with_visits (key : Entry -> bool * str)
    (visit : Entry -> list Output * option pyexn) l :
  sorted (fun p => key (fst p)) (map (fun e => (e, visit e)) l)
  = map (fun e => (e, visit e)) (sorted key l).
Proof.
  induction l as [|x l IH]; simpl; [reflexivity|].
  rewrite IH. apply (insert_sorted_map _ _ (fun p => key (fst p)) (fun e => (e, visit e))).
Qed.

(** The body of [generate_compact_index] as the script has it: the entries
    are sorted, the excluded ones left out, and the others visited in that
    order up to the first exception. *)
Lemma index_listing_eq visit directory children :
  index_listing visit directory (Some children)
  = except_PermissionError directory (run_entries (map visit (visited children))).
Proof.
  unfold index_listing, visited. cbv zeta.
  rewrite (sorted_with_visits sort_key visit children).
  f_equal. f_equal.
  induction (sorted sort_key children) as [|e l IH]; [reflexivity|].
  cbn [map filter fst]. destruct (negb _); cbn [map snd]; now rewrite IH.
Qed.

(** Induction on a tree, the entries of a listing included. *)
Lemma Entry_tree_ind (P : Entry -> Prop) :
  (forall name regular size, P (EFile name regular size)) ->
  (forall name, P (EDir name None)) ->
  (forall name children, Forall P children -> P (EDir name (Some children))) ->
  forall e, P e.
Proof.
  intros Hfile Hlocked Hdir. fix IH 1. intros [name regular size|name [children|]].
  - apply Hfile.
  - apply Hdir. induction children as [|c children IHc]; constructor; [apply IH|exact IHc].
  - apply Hlocked.
Qed.

Lemma StronglySorted_filter A (R : A -> A -> Prop) (p : A -> bool) l :
  StronglySorted R l -> StronglySorted R (filter p l).
Proof.
  induction 1 as [|x l Hl IH Hx]; simpl; [constructor|].
  destruct (p x); [|exact IH]. constructor; [exact IH|].
  apply incl_Forall with (l1 := l); [|exact Hx].
  intros z Hz. apply filter_In in Hz. tauto.
Qed.

(** In a list sorted by the key of the walk the directories come first. *)
Lemma sorted_dirs_first l :
  StronglySorted (key_le sort_key) l ->
  l = filter is_dir l ++ filter (fun e => negb (is_dir e)) l.
Proof.
  induction 1 as [|y l Hl IH Hy]; [reflexivity|]. cbn [filter].
  destruct (is_dir y) eqn:Ey; cbn [negb app]; [now rewrite <- IH|].
  assert (Hf : Forall (fun e => is_dir e = false) l).
  { revert Hy. apply Forall_impl. intros z Hz. unfold key_le, sort_key, key_leb in Hz.
    cbn [fst snd] in Hz. rewrite Ey in Hz. cbn [negb] in Hz.
    destruct (is_dir z); [discriminate|reflexivity]. }
  assert (E1 : filter is_dir l = []).
  { clear - Hf. induction Hf as [|z l Hz _ IHf]; [reflexivity|]. simpl. now rewrite Hz. }
  assert (E2 : filter (fun e => negb (is_dir e)) l = l).
  { clear - Hf. induction Hf as [|z l Hz _ IHf]; [reflexivity|]. simpl.
    rewrite Hz. simpl. now rewrite IHf. }
  now rewrite E1, E2.
Qed.

Lemma filter_filter_comm A (p q : A -> bool) l :
  filter p (filter q l) = filter q (filter p l).
Proof.
  induction l as [|x l IH]; [reflexivity|]. simpl.
  destruct (p x) eqn:Ep, (q x) eqn:Eq; simpl; rewrite ?Ep, ?Eq, IH; reflexivity.
Qed.

(** X10: the walk visits the entries of a directory that are not left out,
    the directories first and then the other entries, each of the two groups
    in the order of the names in lower case. *)
Theorem walk_visits_directories_first (children : list Entry) :
  visited children
  = visited (filter is_dir children)
    ++ visited (filter (fun e => negb (is_dir e)) children) /\
  Forall (fun e => is_dir e = true) (visited (filter is_dir children)) /\
  Forall (fun e => is_dir e = false)
    (visited (filter (fun e => negb (is_dir e)) children)) /\
  StronglySorted by_name (visited (filter is_dir children)) /\
  StronglySorted by_name (visited (filter (fun e => negb (is_dir e)) children)) /\
  Permutation (visited children) (filter kept children).
Proof.
  unfold visited. fold kept.
  assert (Hs := sorted_sorted Entry sort_key children).
  split; [|split; [|split; [|split; [|split]]]].
  - rewrite (sorted_dirs_first _ Hs) at 1. rewrite filter_app.
    now rewrite !(filter_sorted Entry sort_key).
  - apply Forall_forall. intros e He. apply filter_In in He. destruct He as (He & _).
    apply (Permutation_in _ (sorted_perm Entry sort_key _)) in He.
    apply filter_In in He. tauto.
  - apply Forall_forall. intros e He. apply filter_In in He. destruct He as (He & _).
    apply (Permutation_in _ (sorted_perm Entry sort_key _)) in He.
    apply filter_In in He. destruct He as (_ & He). now destruct (is_dir e).
  - apply StronglySorted_filter.
    assert (Hd : Forall (fun e => is_dir e = true) (sorted sort_key (filter is_dir children))).
    { apply Forall_forall. intros e He.
      apply (Permutation_in _ (sorted_perm Entry sort_key _)) in He.
      apply filter_In in He. tauto. }
    pose proof (sorted_sorted Entry sort_key (filter is_dir children)) as Hss.
    induction Hss as [|x l Hl IH Hx]; [constructor|].
    inversion Hd as [|? ? Hxd Hld]; subst. constructor; [now apply IH|].
    apply Forall_forall. intros z Hz. rewrite Forall_forall in Hx, Hld.
    specialize (Hx z Hz). specialize (Hld z Hz).
    unfold key_le, sort_key, key_leb in Hx. cbn [fst snd] in Hx.
    rewrite Hxd, Hld in Hx. exact Hx.
  - apply StronglySorted_filter.
    assert (Hd : Forall (fun e => is_dir e = false)
                   (sorted sort_key (filter (fun e => negb (is_dir e)) children))).
    { apply Forall_forall. intros e He.
      apply (Permutation_in _ (sorted_perm Entry sort_key _)) in He.
      apply filter_In in He. destruct He as (_ & He). now destruct (is_dir e). }
    pose proof (sorted_sorted Entry sort_key (filter (fun e => negb (is_dir e)) children))
      as Hss.
    induction Hss as [|x l Hl IH Hx]; [constructor|].
    inversion Hd as [|? ? Hxd Hld]; subst. constructor; [now apply IH|].
    apply Forall_forall. intros z Hz. rewrite Forall_forall in Hx, Hld.
    specialize (Hx z Hz). specialize (Hld z Hz).
    unfold key_le, sort_key, key_leb in Hx. cbn [fst snd] in Hx.
    rewrite Hxd, Hld in Hx. exact Hx.
  - rewrite (filter_sorted Entry sort_key). apply sorted_perm.
Qed.

(** * The walk when the probe answers *)

Lemma check_has_tests_answers fs (present : Path -> bool) file_path :
  p_name file_path <> [] -> (forall p, fs_exists fs p = Ok (present p)) ->
  exists has, check_has_tests fs file_path = Ok has.
Proof.
  intros Hn Hex. unfold check_has_tests, with_suffix.
  destruct (p_name file_path) eqn:E; [contradiction|]. cbn [bind].
  rewrite (any_exists_total fs present _ Hex). eauto.
Qed.

Lemma analyze_file_answers fs (present : Path -> bool) file_path :
  (forall p, fs_exists fs p = Ok (present p)) -> exists a, analyze_file fs file_path = Ok a.
Proof.
  intros Hex. unfold analyze_file. cbv zeta.
  destruct (str_in (lower (suffix file_path)) CODE_EXTENSIONS) eqn:Ec; cbn [negb]; [|eauto].
  destruct (read_text fs file_path) as [content|]; [|eauto].
  assert (Hn : p_name file_path <> []).
  { intros E. unfold suffix in Ec. rewrite E in Ec. discriminate Ec. }
  destruct (check_has_tests_answers fs present file_path Hn Hex) as (has & Hhas).
  destruct (analysis_returns_when_probe_does fs content file_path has Hhas)
    as ((r1 & H1 & _) & (r2 & H2 & _)).
  rewrite H1, H2, Hhas. cbn [bind].
  repeat match goal with |- context [if ?b then _ else _] => destruct b end; eauto.
Qed.

Lemma run_entries_all A (v : A -> list Output * option pyexn) l :
  Forall (fun e => snd (v e) = None) l ->
  run_entries (map v l) = (flat_map (fun e => fst (v e)) l, None).
Proof.
  induction 1 as [|e l He _ IH]; [reflexivity|]. cbn [map run_entries flat_map].
  destruct (v e) as (out, r). cbn [snd] in He. subst r. rewrite IH. reflexivity.
Qed.

Lemma run_entries_stops A (v : A -> list Output * option pyexn) l1 x l2 exn :
  Forall (fun e => snd (v e) = None) l1 -> snd (v x) = Some exn ->
  run_entries (map v (l1 ++ x :: l2))
  = (flat_map (fun e => fst (v e)) l1 ++ fst (v x), Some exn).
Proof.
  intros H Hx. induction H as [|e l He _ IH]; cbn [app map run_entries flat_map].
  - destruct (v x) as (out, r). cbn [snd] in Hx. subst r. reflexivity.
  - destruct (v e) as (out, r). cbn [snd] in He. subst r. rewrite IH.
    cbn [fst]. now rewrite app_assoc.
Qed.

Lemma visit_file_answers fs (present : Path -> bool) project_root directory name size :
  (forall p, fs_exists fs p = Ok (present p)) ->
  snd (visit_file fs project_root directory name size) = None.
Proof.
  intros Hex. unfold visit_file, index_file.
  destruct (analyze_file_answers fs present (mkPath directory name) Hex) as (a & ->).
  reflexivity.
Qed.

(** When the probe answers, no exception leaves the visit of an entry. *)
Lemma visit_entry_answers fs (present : Path -> bool) project_root :
  (forall p, fs_exists fs p = Ok (present p)) ->
  forall e directory, snd (visit_entry fs project_root directory e) = None.
Proof.
  intros Hex e.
  induction e as [name regular size|name|name children IH] using Entry_tree_ind;
    intros directory.
  - apply (visit_file_answers fs present); exact Hex.
  - reflexivity.
  - cbn [visit_entry]. rewrite index_listing_eq. rewrite run_entries_all; [reflexivity|].
    apply Forall_forall. intros e He. rewrite Forall_forall in IH. apply IH.
    unfold visited in He. apply filter_In in He. destruct He as (He & _).
    apply (Permutation_in _ (sorted_perm Entry sort_key _)) in He. exact He.
Qed.



(** X12: a [PermissionError] of the probe for a file ends the walk of the
    directory of the file: what the entries before the file wrote stays, the
    file gets no line, one ERROR line with the path of the directory follows,
    the entries after the file are not visited, and no exception leaves the
    walk. *)
Theorem probe_error_ends_directory (fs : FS) (project_root directory : list str)
    (children before after : list Entry) (name : str) (regular : bool) (size : nat) :
  visited children = before ++ EFile name regular size :: after ->
  Forall (fun e => snd (visit_entry fs project_root directory e) = None) before ->
  analyze_file fs (mkPath directory name) = Raise PermissionError ->
  generate_compact_index fs project_root directory (Some children)
  = (flat_map (fun e => fst (visit_entry fs project_root directory e)) before
       ++ [ERROR (path_str directory)], None).
Proof.
  intros Hv Hb Ha. unfold generate_compact_index. rewrite index_listing_eq, Hv.
  rewrite (run_entries_stops _ _ _ _ _ PermissionError Hb).
  - cbn [visit_entry]. unfold visit_file, index_file. rewrite Ha. cbn [bind fst].
    unfold except_PermissionError. now rewrite app_nil_r.
  - cbn [visit_entry]. unfold visit_file, index_file. rewrite Ha. reflexivity.
Qed.

(** * The counts of the header and the walk *)

Lemma count_entry_excluded totals e : kept e = false -> count_entry totals e = totals.
Proof.
  unfold kept. intros H. apply negb_false_iff in H.
  destruct e; cbn [count_entry]; cbn [entry_name is_dir] in H |- *; now rewrite H.
Qed.

Lemma list_sum_cons x l : list_sum (x :: l) = x + list_sum l.
Proof. reflexivity. Qed.

Lemma fold_count_entry l :
  Forall (fun e => forall f d,
            count_entry (f, d) e
            = (f + fst (count_entry (0, 0) e), d + snd (count_entry (0, 0) e))) l ->
  forall f d,
    fold_left count_entry l (f, d)
    = (f + list_sum (map (fun e => fst (count_entry (0, 0) e)) l),
       d + list_sum (map (fun e => snd (count_entry (0, 0) e)) l)).
Proof.
  induction 1 as [|e l He _ IH]; intros f d; cbn [fold_left map].
  - cbn. now rewrite !Nat.add_0_r.
  - rewrite He, IH, !list_sum_cons. f_equal; lia.
Qed.

(** The totals after an entry are the totals before it and what the entry
    alone adds. *)
Lemma count_entry_add e : forall f d,
  count_entry (f, d) e
  = (f + fst (count_entry (0, 0) e), d + snd (count_entry (0, 0) e)).
Proof.
  induction e as [name regular size|name|name children IH] using Entry_tree_ind;
    intros f d; cbn [count_entry entry_name is_dir fst snd].
  - destruct (should_exclude name false); [|destruct regular]; cbn [fst snd]; f_equal; lia.
  - destruct (should_exclude name true); cbn [fst snd]; f_equal; lia.
  - destruct (should_exclude name true); [cbn [fst snd]; f_equal; lia|].
    rewrite !(fold_count_entry children IH). cbn [fst snd]. f_equal; lia.
Qed.

Lemma count_items_sums children :
  count_items (Some children)
  = (list_sum (map (fun e => fst (count_entry (0, 0) e)) children),
     list_sum (map (fun e => snd (count_entry (0, 0) e)) children)).
Proof.
  unfold count_items, count_recursive. rewrite fold_count_entry; [reflexivity|].
  apply Forall_forall. intros e _. apply count_entry_add.
Qed.

Lemma list_sum_perm l l' : Permutation l l' -> list_sum l = list_sum l'.
Proof. induction 1; rewrite ?list_sum_cons; lia. Qed.

Lemma list_sum_filter (g : Entry -> nat) (p : Entry -> bool) l :
  (forall e, p e = false -> g e = 0) ->
  list_sum (map g (filter p l)) = list_sum (map g l).
Proof.
  intros H. induction l as [|e l IH]; [reflexivity|]. cbn [filter map].
  destruct (p e) eqn:E; cbn [map]; rewrite ?list_sum_cons; [lia|].
  rewrite (H e E). lia.
Qed.

Lemma list_sum_visited (g : Entry -> nat) children :
  (forall e, kept e = false -> g e = 0) ->
  list_sum (map g (visited children)) = list_sum (map g children).
Proof.
  intros H. unfold visited. fold kept. rewrite (list_sum_filter g kept _ H).
  apply list_sum_perm, Permutation_map, sorted_perm.
Qed.

Lemma visited_In e children : In e (visited children) -> In e children /\ kept e = true.
Proof.
  unfold visited. fold kept. intros H. apply filter_In in H. destruct H as (H & K).
  split; [|exact K]. apply (Permutation_in _ (sorted_perm Entry sort_key _)) in H. exact H.
Qed.

Lemma count_written_app t a b :
  count_written t (a ++ b) = count_written t a + count_written t b.
Proof. unfold count_written. now rewrite filter_app, length_app. Qed.

Lemma count_errors_app a b : count_errors (a ++ b) = count_errors a + count_errors b.
Proof. unfold count_errors. now rewrite filter_app, length_app. Qed.

Lemma count_written_lines t ls : count_written t (map Written ls) = count_lines t ls.
Proof.
  unfold count_written, count_lines. induction ls as [|l ls IH]; [reflexivity|].
  cbn [map filter]. destruct (tag_eqb (tag_of l) t); cbn [length]; now rewrite IH.
Qed.

Lemma count_errors_lines ls : count_errors (map Written ls) = 0.
Proof. unfold count_errors. induction ls as [|l ls IH]; [reflexivity|exact IH]. Qed.

Lemma count_written_flat_map A t (g : A -> list Output) l :
  count_written t (flat_map g l) = list_sum (map (fun e => count_written t (g e)) l).
Proof.
  induction l as [|e l IH]; [reflexivity|]. cbn [flat_map map].
  now rewrite count_written_app, IH, list_sum_cons.
Qed.

Lemma count_errors_flat_map A (g : A -> list Output) l :
  count_errors (flat_map g l) = list_sum (map (fun e => count_errors (g e)) l).
Proof.
  induction l as [|e l IH]; [reflexivity|]. cbn [flat_map map].
  now rewrite count_errors_app, IH, list_sum_cons.
Qed.

Lemma list_sum_map_ext_in A (g h : A -> nat) l :
  (forall e, In e l -> g e = h e) -> list_sum (map g l) = list_sum (map h l).
Proof. intros H. f_equal. apply map_ext_in, H. Qed.

Lemma list_sum_map_le A (g h : A -> nat) l :
  (forall e, In e l -> g e <= h e) -> list_sum (map g l) <= list_sum (map h l).
Proof.
  induction l as [|e l IH]; intros H; cbn [map]; rewrite ?list_sum_cons; [cbn; lia|].
  assert (g e <= h e) by (apply H; now left).
  assert (list_sum (map g l) <= list_sum (map h l)) by (apply IH; intros; apply H; now right).
  lia.
Qed.

Lemma count_file_lines rel size analysis :
  count_lines TFILE (file_lines rel size analysis) = 1.
Proof.
  unfold file_lines. change (FILE ?p ?n ?e :: ?l) with ([FILE p n e] ++ l).
  rewrite count_lines_app. destruct analysis as [a|]; [|reflexivity].
  now rewrite (count_lines_analysis TFILE rel a) by discriminate.
Qed.

(** The FILE and ERROR lines of the walk of a listing, from those of the
    visits of its entries. *)
Lemma counts_of_listing fs (present : Path -> bool) project_root directory children :
  (forall p, fs_exists fs p = Ok (present p)) ->
  Forall (fun e => forall directory, kept e = true -> all_regular e = true ->
            count_written TFILE (fst (visit_entry fs project_root directory e))
            = fst (count_entry (0, 0) e) /\
            count_errors (fst (visit_entry fs project_root directory e))
            <= snd (count_entry (0, 0) e)) children ->
  forallb all_regular children = true ->
  count_written TFILE
    (fst (index_listing (visit_entry fs project_root directory) directory (Some children)))
  = list_sum (map (fun e => fst (count_entry (0, 0) e)) children) /\
  count_errors
    (fst (index_listing (visit_entry fs project_root directory) directory (Some children)))
  <= list_sum (map (fun e => snd (count_entry (0, 0) e)) children).
Proof.
  intros Hex IH Hr. rewrite index_listing_eq. rewrite run_entries_all.
  2:{ apply Forall_forall. intros e _. apply (visit_entry_answers fs present _ Hex). }
  cbn [except_PermissionError fst]. rewrite Forall_forall in IH.
  rewrite forallb_forall in Hr.
  rewrite count_written_flat_map, count_errors_flat_map.
  rewrite <- (list_sum_visited (fun e => fst (count_entry (0, 0) e)) children)
    by (intros e He; now rewrite count_entry_excluded).
  rewrite <- (list_sum_visited (fun e => snd (count_entry (0, 0) e)) children)
    by (intros e He; now rewrite count_entry_excluded).
  split.
  - apply list_sum_map_ext_in. intros e He. apply visited_In in He.
    destruct He as (He & Hk). apply (IH e He directory Hk (Hr e He)).
  - apply list_sum_map_le. intros e He. apply visited_In in He.
    destruct He as (He & Hk). apply (IH e He directory Hk (Hr e He)).
Qed.

Lemma counts_of_entry fs (present : Path -> bool) project_root :
  (forall p, fs_exists fs p = Ok (present p)) ->
  forall e directory, kept e = true -> all_regular e = true ->
    count_written TFILE (fst (visit_entry fs project_root directory e))
    = fst (count_entry (0, 0) e) /\
    count_errors (fst (visit_entry fs project_root directory e))
    <= snd (count_entry (0, 0) e).
Proof.
  intros Hex e.
  induction e as [name regular size|name|name children IH] using Entry_tree_ind;
    intros directory Hk Hr; unfold kept in Hk; apply negb_true_iff in Hk;
    cbn [entry_name is_dir] in Hk; cbn [all_regular] in Hr;
    cbn [count_entry entry_name is_dir]; rewrite Hk.
  - subst regular. cbn [visit_entry fst snd]. unfold visit_file, index_file.
    destruct (analyze_file_answers fs present (mkPath directory name) Hex) as (a & ->).
    cbn [bind fst]. rewrite count_written_lines, count_errors_lines, count_file_lines.
    split; lia.
  - cbn [visit_entry index_listing fst snd]. split; [reflexivity|].
    unfold count_errors. cbn. lia.
  - cbn [visit_entry fst snd].
    rewrite (fold_count_entry children)
      by (apply Forall_forall; intros e _; apply count_entry_add).
    cbn [fst snd].
    destruct (counts_of_listing fs present project_root (directory ++ [name]) children Hex IH Hr)
      as (H1 & H2).
    split; [exact H1|lia].
Qed.

(** X13: when [exists()] answers for every path and every entry that is no
    directory is a regular file, the walk writes as many FILE lines as
    [count_items] counts files, and at most as many ERROR lines as it counts
    directories. *)
Theorem header_counts_match_walk (fs : FS) (present : Path -> bool)
    (project_root directory : list str) (children : list Entry) :
  (forall p, fs_exists fs p = Ok (present p)) ->
  forallb all_regular children = true ->
  count_written TFILE
    (fst (generate_compact_index fs project_root directory (Some children)))
  = fst (count_items (Some children)) /\
  count_errors (fst (generate_compact_index fs project_root directory (Some children)))
  <= snd (count_items (Some children)).
Proof.
  intros Hex Hr. rewrite count_items_sums. cbn [fst snd]. unfold generate_compact_index.
  apply (counts_of_listing fs present project_root directory children Hex); [|exact Hr].
  apply Forall_forall. intros e _ d. apply (counts_of_entry fs present project_root Hex).
Qed.

(** * Names that are left out *)

Lemma filter_idem A (p : A -> bool) l : filter p (filter p l) = filter p l.
Proof.
  induction l as [|x l IH]; [reflexivity|]. cbn [filter].
  destruct (p x) eqn:E; [cbn [filter]; now rewrite E, IH|exact IH].
Qed.

Lemma fold_count_entry_filter l : forall totals,
  fold_left count_entry (filter kept l) totals = fold_left count_entry l totals.
Proof.
  induction l as [|e l IH]; intros totals; [reflexivity|]. cbn [filter fold_left].
  destruct (kept e) eqn:E; [apply IH|]. rewrite (count_entry_excluded totals e E). apply IH.
Qed.

(** X14: an entry that [should_exclude] names has no effect: with these
    entries taken out of the listing of a directory, whatever they are and
    whatever is under them, the walk of the directory writes the same and
    ends the same, and [count_items] gives the same counts. *)
Theorem excluded_entries_have_no_effect (fs : FS) (project_root directory : list str)
    (children : list Entry) :
  generate_compact_index fs project_root directory (Some children)
  = generate_compact_index fs project_root directory (Some (filter kept children)) /\
  count_items (Some children) = count_items (Some (filter kept children)).
Proof.
  split.
  - unfold generate_compact_index. rewrite !index_listing_eq. unfold visited. fold kept.
    now rewrite <- (filter_sorted Entry sort_key kept children), filter_idem.
  - unfold count_items, count_recursive. now rewrite fold_count_entry_filter.
Qed.

(** * The order of the lines of a file *)

Lemma rank_le_segment k l rest :
  Forall (fun x => group_rank (tag_of x) = k) l ->
  StronglySorted rank_le rest ->
  Forall (fun x => k <= group_rank (tag_of x)) rest ->
  StronglySorted rank_le (l ++ rest) /\
  Forall (fun x => k <= group_rank (tag_of x)) (l ++ rest).
Proof.
  intros Hl Hs Hr. induction Hl as [|x l Hx _ (IH1 & IH2)]; cbn [app]; [now split|].
  split.
  - constructor; [exact IH1|]. revert IH2. apply Forall_impl. intros y Hy.
    unfold rank_le. lia.
  - constructor; [lia|exact IH2].
Qed.

Lemma Forall_weaken_rank k k' (l : list Line) :
  k' <= k -> Forall (fun x => k <= group_rank (tag_of x)) l ->
  Forall (fun x => k' <= group_rank (tag_of x)) l.
Proof. intros H. apply Forall_impl. intros x Hx. lia. Qed.

Lemma rank_class_lines rel cs :
  Forall (fun x => group_rank (tag_of x) = 4) (flat_map (class_lines rel) cs).
Proof.
  induction cs as [|c cs IH]; [constructor|]. cbn [flat_map]. apply Forall_app. split.
  - unfold class_lines. constructor; [reflexivity|].
    apply Forall_forall. intros x Hx. apply in_map_iff in Hx. now destruct Hx as (m & <- & _).
  - exact IH.
Qed.

Lemma path_class_lines rel cs :
  Forall (fun x => line_path x = rel) (flat_map (class_lines rel) cs).
Proof.
  induction cs as [|c cs IH]; [constructor|]. cbn [flat_map]. apply Forall_app. split.
  - unfold class_lines. constructor; [reflexivity|].
    apply Forall_forall. intros x Hx. apply in_map_iff in Hx. now destruct Hx as (m & <- & _).
  - exact IH.
Qed.

Lemma Forall_map_const A (P : Line -> Prop) (f : A -> Line) l :
  (forall x, P (f x)) -> Forall P (map f l).
Proof. intros H. apply Forall_forall. intros y Hy. apply in_map_iff in Hy.
  destruct Hy as (x & <- & _). apply H. Qed.

(** X15: the lines of a file come in the order of their kinds: the FILE line
    first and only once, then the IMPORT lines, the EXPORT lines, the TYPE
    lines, the classes (each CLASS line with its METHOD lines) and the FUNC
    lines; and every one of them carries the path of the file. *)
Theorem file_lines_in_order_of_kinds (rel : str) (size : nat)
    (analysis : option FileAnalysis) :
  (exists has rest,
     file_lines rel size analysis = FILE rel size has :: rest /\
     Forall (fun l => tag_of l <> TFILE) rest) /\
  StronglySorted rank_le (file_lines rel size analysis) /\
  Forall (fun l => line_path l = rel) (file_lines rel size analysis).
Proof.
  assert (S5 : forall a : FileAnalysis,
            StronglySorted rank_le
              (map (fun f => FUNC rel (fn_name f) (fn_is_async f) (fn_is_exported f))
                 (firstn 15 (functions a)) ++ []) /\
            Forall (fun x => 5 <= group_rank (tag_of x))
              (map (fun f => FUNC rel (fn_name f) (fn_is_async f) (fn_is_exported f))
                 (firstn 15 (functions a)) ++ [])).
  { intros a. apply rank_le_segment; [|constructor|constructor].
    apply Forall_map_const. reflexivity. }
  assert (SA : forall a : FileAnalysis,
            StronglySorted rank_le (analysis_lines rel a) /\
            Forall (fun x => 1 <= group_rank (tag_of x)) (analysis_lines rel a)).
  { intros a. destruct (S5 a) as (A5 & B5). rewrite app_nil_r in A5, B5.
    unfold analysis_lines.
    assert (R3 : Forall (fun x => group_rank (tag_of x) = 3)
                   (map (fun t => TYPE rel (ty_name t) (ty_kind t) (ty_is_exported t))
                      (types a))) by (apply Forall_map_const; reflexivity).
    assert (R2 : Forall (fun x => group_rank (tag_of x) = 2)
                   (map (EXPORT rel) (firstn 10 (exports a))))
      by (apply Forall_map_const; reflexivity).
    assert (R1 : Forall (fun x => group_rank (tag_of x) = 1)
                   (map (IMPORT rel) (firstn 5 (imports a))))
      by (apply Forall_map_const; reflexivity).
    destruct (rank_le_segment 4 _ _ (rank_class_lines rel (classes a)) A5
                (Forall_weaken_rank 5 4 _ ltac:(lia) B5)) as (A4 & B4).
    destruct (rank_le_segment 3 _ _ R3 A4 (Forall_weaken_rank 4 3 _ ltac:(lia) B4))
      as (A3 & B3).
    destruct (rank_le_segment 2 _ _ R2 A3 (Forall_weaken_rank 3 2 _ ltac:(lia) B3))
      as (A2 & B2).
    apply (rank_le_segment 1 _ _ R1 A2 (Forall_weaken_rank 2 1 _ ltac:(lia) B2)). }
  assert (PA : forall a : FileAnalysis,
            Forall (fun l => line_path l = rel) (analysis_lines rel a)).
  { intros a. unfold analysis_lines. repeat (apply Forall_app; split);
      try (apply Forall_map_const; reflexivity). apply path_class_lines. }
  unfold file_lines. split; [|split].
  - eexists _, _. split; [reflexivity|]. destruct analysis as [a|]; [|constructor].
    destruct (SA a) as (_ & B). revert B. apply Forall_impl. intros x Hx E.
    rewrite E in Hx. cbn in Hx. lia.
  - constructor.
    + destruct analysis as [a|]; [apply SA|constructor].
    + destruct analysis as [a|]; [|constructor].
      destruct (SA a) as (_ & B). revert B. apply Forall_impl. intros x Hx.
      unfold rank_le. cbn [tag_of group_rank]. lia.
  - constructor; [reflexivity|]. destruct analysis as [a|]; [apply PA|constructor].
Qed.

(** * The flag of the FILE line *)


(** * The counts of the header and the output file *)

Lemma list_sum_app_map (g : Entry -> nat) l1 l2 :
  list_sum (map g (l1 ++ l2)) = list_sum (map g l1) + list_sum (map g l2).
Proof. now rewrite map_app, list_sum_app. Qed.

Lemma forallb_middle (p : Entry -> bool) l1 x l2 :
  forallb p (l1 ++ l2) = true -> p x = true -> forallb p (l1 ++ x :: l2) = true.
Proof.
  rewrite !forallb_app. cbn [forallb]. intros H Hx. apply andb_true_iff in H.
  destruct H as (H1 & H2). now rewrite H1, H2, Hx.
Qed.

(** X17: [main] counts the files before it opens the output file in the
    project root, and walks the root after: when [exists()] answers for every
    path and every entry that is no directory is a regular file, the header
    is followed by as many FILE lines as its total of files when the output
    file was there before the run, and by one more when the run creates
    it. *)
Theorem main_counts_before_output_file (fs : FS) (present : Path -> bool)
    (project_root : list str) (pre post : list Entry) (old : option nat) (size : nat) :
  (forall p, fs_exists fs p = Ok (present p)) ->
  forallb all_regular (pre ++ post) = true ->
  exists total_files total_dirs index,
    main fs project_root
      (Some (pre ++ match old with
                    | Some size0 => EFile output_name true size0 :: post
                    | None => post
                    end))
      (Some (pre ++ EFile output_name true size :: post))
    = (header project_root total_dirs total_files, (index, None)) /\
    count_written TFILE index
    = total_files + match old with Some _ => 0 | None => 1 end.
Proof.
  intros Hex Hr. unfold main. rewrite count_items_sums.
  assert (Hr' : forallb all_regular (pre ++ EFile output_name true size :: post) = true)
    by (apply forallb_middle; [exact Hr|reflexivity]).
  destruct (counts_of_listing fs present project_root project_root
              (pre ++ EFile output_name true size :: post) Hex) as (Hc & _);
    [|exact Hr'|].
  { apply Forall_forall. intros e _ d. apply (counts_of_entry fs present project_root Hex). }
  unfold generate_compact_index. rewrite index_listing_eq in Hc |- *.
  rewrite run_entries_all in Hc |- *
    by (apply Forall_forall; intros e _; apply (visit_entry_answers fs present _ Hex)).
  cbn [except_PermissionError fst] in Hc |- *.
  eexists _, _, _. split; [reflexivity|]. rewrite Hc.
  rewrite list_sum_app_map. cbn [map]. rewrite list_sum_cons.
  change (fst (count_entry (0, 0) (EFile output_name true size))) with 1.
  destruct old as [size0|]; rewrite list_sum_app_map.
  - cbn [map]. rewrite list_sum_cons.
    change (fst (count_entry (0, 0) (EFile output_name true size0))) with 1. lia.
  - lia.
Qed.

End Extractor.

(** * Closed instances

    The statements above hold for every character database; the instances
    below are stated with the Latin-1 one. *)

Lemma extraction_deterministic_witness :
  analyze_typescript_file latin1_alnum
    no_files (lit "export function foo(a: number): string {}") (mkPath [lit "src"] (lit "a.ts"))
  = analyze_typescript_file latin1_alnum
      (mkFS (fun _ => Ok false) (fun _ => ReadBytes []))
      (lit "export function foo(a: number): string {}") (mkPath [] (lit "b.ts")) /\
  analyze_python_file latin1_alnum
    no_files (lit "export function foo(a: number): string {}") (mkPath [lit "src"] (lit "a.ts"))
  = analyze_python_file latin1_alnum
      (mkFS (fun _ => Ok false) (fun _ => ReadBytes []))
      (lit "export function foo(a: number): string {}") (mkPath [] (lit "b.ts")).
Proof.
  apply (extraction_deterministic latin1_alnum). reflexivity.
Defined.

Lemma py_init_kept_dunder_dropped_witness :
  exists r, analyze_python_file latin1_alnum no_files sample_module a_py = Ok r /\
  Forall2 (fun c m =>
      (forall mm, In mm (finditer latin1_alnum def_pattern (class_section sample_module m)) ->
         group 1 mm = Some (lit "__init__") ->
         exists f, In f (cl_methods c) /\ py_def_describes f mm) /\
      (forall f name, In f (cl_methods c) -> fn_name f = Some name ->
         startswith name (lit "__") = true -> name = lit "__init__"))
    (classes r) (finditer latin1_alnum py_class_pattern sample_module).
Proof.
  eexists. split; [reflexivity|].
  apply (py_init_kept_dunder_dropped latin1_alnum no_files sample_module a_py).
  reflexivity.
Defined.

Lemma py_functions_exclude_method_names_witness :
  exists r, analyze_python_file latin1_alnum no_files sample_module a_py = Ok r /\
  (Forall2 py_def_describes (functions r)
     (filter (fun m => negb (pyval_in (group 1 m) (method_names r)))
        (finditer latin1_alnum def_pattern sample_module)) /\
   (forall f, In f (functions r) -> ~ In (fn_name f) (method_names r)) /\
   (forall m, In m (finditer latin1_alnum def_pattern sample_module) ->
      ~ In (group 1 m) (method_names r) ->
      exists f, In f (functions r) /\ py_def_describes f m)).
Proof.
  eexists. split; [reflexivity|].
  apply (py_functions_exclude_method_names latin1_alnum no_files sample_module a_py).
  reflexivity.
Defined.

Lemma py_is_async_by_substring_witness :
  exists r,
    analyze_python_file latin1_alnum no_files (lit "def run(async_mode): pass") a_py = Ok r /\
    functions r = [mkFunctionInfo (Some (lit "run")) (lit "(async_mode)") true false] /\
    ((forall f, In f (functions r) ->
        exists m, In m (finditer latin1_alnum def_pattern (lit "def run(async_mode): pass")) /\
          fn_name f = group 1 m /\
          (fn_is_async f = true <-> exists a b, group0 m = a ++ lit "async" ++ b)) /\
     (forall c f, In c (classes r) -> In f (cl_methods c) ->
        exists cm mm,
          In cm (finditer latin1_alnum py_class_pattern (lit "def run(async_mode): pass")) /\
          In mm (finditer latin1_alnum def_pattern
                   (class_section (lit "def run(async_mode): pass") cm)) /\
          fn_name f = group 1 mm /\
          (fn_is_async f = true <-> exists a b, group0 mm = a ++ lit "async" ++ b)) /\
     (exists m0,
        finditer latin1_alnum def_pattern (lit "def run(async_mode): pass") = [m0] /\
        group0 m0 = lit "def run(async_mode):" /\
        contains (group0 m0) (lit "async") = true)).
Proof.
  eexists. split; [reflexivity|]. split; [vm_compute; reflexivity|].
  apply (py_is_async_by_substring latin1_alnum no_files
           (lit "def run(async_mode): pass") a_py).
  reflexivity.
Defined.

Lemma ts_imports_are_relative_paths_witness :
  exists r, analyze_typescript_file latin1_alnum no_files sample_imports a_ts = Ok r /\
  imports r = [Some (lit "./util")] /\
  (imports r = map (group 1) (finditer latin1_alnum ts_import_pattern sample_imports) /\
   (forall p, In p (imports r) ->
      exists pre ws1 binding ws2 ws3 q1 rest q2 post,
        sample_imports
        = pre ++ lit "import" ++ ws1 ++ binding ++ ws2 ++ lit "from" ++ ws3
          ++ [q1] ++ (lit "." ++ rest) ++ [q2] ++ post /\
        p = Some (lit "." ++ rest) /\
        rest <> [] /\ Forall (fun c => is_quote c = false) rest /\
        is_quote q1 = true /\ is_quote q2 = true) /\
   finditer latin1_alnum ts_import_pattern (lit "import x from 'package'") = []).
Proof.
  eexists. split; [reflexivity|]. split; [vm_compute; reflexivity|].
  apply (ts_imports_are_relative_paths latin1_alnum no_files sample_imports a_ts).
  reflexivity.
Defined.

(** C2 as the spec has it fails: the record of a class with eleven methods
    holds the eleven. *)
Lemma ts_record_holds_eleven_methods :
  exists r c,
    analyze_typescript_file latin1_alnum no_files eleven_methods a_ts = Ok r /\
    classes r = [c] /\ length (cl_methods c) = 11 /\
    map fn_name (skipn 10 (cl_methods c)) = [Some (lit "k")].
Proof.
  eexists. eexists. split; [reflexivity|]. split; [vm_compute; reflexivity|].
  split; reflexivity.
Qed.

Lemma ts_class_methods_capped_when_written_witness :
  exists r, analyze_typescript_file latin1_alnum no_files eleven_methods a_ts = Ok r /\
  Forall2 (fun c m =>
      cl_name c = group 2 m /\
      Forall2 ts_method_describes (cl_methods c)
        (filter (ts_keeps (group 2 m))
           (finditer latin1_alnum ts_method_pattern (class_section eleven_methods m))) /\
      length (cl_methods c) <= 500 /\
      forall rel, count_lines TMETHOD (class_lines rel c)
                  = Nat.min 10 (length (cl_methods c)))
    (classes r) (finditer latin1_alnum ts_class_pattern eleven_methods).
Proof.
  eexists. split; [reflexivity|].
  apply (ts_class_methods_capped_when_written latin1_alnum no_files eleven_methods a_ts).
  reflexivity.
Defined.

(** C7 as the spec has it fails: after the text [function g(] the
    declaration is read as the parameters of [g], and no function [foo] is
    recorded. *)
Lemma ts_declaration_swallowed_by_earlier_match :
  analyze_typescript_file latin1_alnum no_files (lit "function g(" ++ foo_declaration) a_ts
  = Ok (mkFileAnalysis [] [Some (lit "foo")] []
          [mkFunctionInfo (Some (lit "g"))
             (lit "(export function foo(a: number): string") false false]
          [] false) /\
  ~ In foo_info
      [mkFunctionInfo (Some (lit "g"))
         (lit "(export function foo(a: number): string") false false].
Proof.
  split; [vm_compute; reflexivity|].
  intros [H|[]]. discriminate H.
Qed.

Lemma ts_exported_function_recorded_witness :
  exists r,
    analyze_typescript_file latin1_alnum no_files
      (lit "const x = 1; " ++ foo_declaration ++ lit " // end") a_ts = Ok r /\
    In foo_info (functions r).
Proof.
  eexists. split; [reflexivity|].
  apply (ts_exported_function_recorded latin1_alnum no_files
           (lit "const x = 1; ") (lit " // end") a_ts).
  - intros i len g Hi Hm.
    do 13 (destruct i as [|i]; [vm_compute in Hm; discriminate Hm|]).
    simpl in Hi. lia.
  - reflexivity.
Defined.

(** C1 as the spec has it fails: a file with a byte that is no UTF-8 is
    analysed all the same, the byte dropped, and has its test file seen. *)
Lemma undecodable_file_is_analysed :
  utf8_decode Strict (Byte.xff :: list_byte_of_string "def f(): pass") = None /\
  index_file latin1_alnum latin1_lower undecodable_py a_py (lit "src/a.py") 14
  = Ok [FILE (lit "src/a.py") 14 true;
        FUNC (lit "src/a.py") (Some (lit "f")) false false].
Proof. split; reflexivity. Qed.

Lemma arrow_functions_read_as_declarations_witness :
  exists r,
    analyze_typescript_file latin1_alnum no_files
      (lit "export const f = async (x) => 1; const g = (y: number): string => y") a_ts
    = Ok r /\
    functions r = [mkFunctionInfo (Some (lit "async ")) (lit "(x)") true true;
                   mkFunctionInfo None (lit "(y: number): string") true false] /\
    (ngroups function_pattern = 5 /\ ngroups arrow_pattern = 5 /\
     exists declared bound,
       functions r = declared ++ bound /\
       Forall2 ts_function_describes declared
         (finditer latin1_alnum function_pattern
            (lit "export const f = async (x) => 1; const g = (y: number): string => y")) /\
       Forall2 (fun f m =>
                  fn_name f = group 3 m /\ fn_is_async f = true /\
                  (group 3 m = None \/ exists ws, group 3 m = Some (lit "async" ++ ws)))
         bound
         (finditer latin1_alnum arrow_pattern
            (lit "export const f = async (x) => 1; const g = (y: number): string => y"))).
Proof.
  eexists. split; [reflexivity|]. split; [vm_compute; reflexivity|].
  apply (arrow_functions_read_as_declarations latin1_alnum no_files
           (lit "export const f = async (x) => 1; const g = (y: number): string => y") a_ts).
  reflexivity.
Defined.

Lemma ts_exports_named_then_default_witness :
  exists r,
    analyze_typescript_file latin1_alnum no_files sample_declarations a_ts = Ok r /\
    exports r = map (fun s => Some (lit s)) ["a"; "Props"; "E"; "Foo"; "default: App"]%string /\
    exists named defaults,
      exports r = map Some named ++ map (fun d => Some (lit "default: " ++ d)) defaults /\
      Forall (identifier latin1_alnum) named /\
      Forall (identifier latin1_alnum) defaults /\
      map Some named = map (group 1) (finditer latin1_alnum export_pattern sample_declarations) /\
      map Some defaults
      = map (group 1) (finditer latin1_alnum default_export_pattern sample_declarations).
Proof.
  eexists. split; [reflexivity|]. split; [vm_compute; reflexivity|].
  apply (ts_exports_named_then_default latin1_alnum no_files sample_declarations a_ts).
  reflexivity.
Defined.

Lemma ts_types_grouped_by_kind_witness :
  exists r,
    analyze_typescript_file latin1_alnum no_files sample_declarations a_ts = Ok r /\
    types r = [mkTypeInfo (Some (lit "Props")) KInterface true;
               mkTypeInfo (Some (lit "T")) KType false;
               mkTypeInfo (Some (lit "E")) KEnum true] /\
    exists interfaces aliases enums,
      types r = interfaces ++ aliases ++ enums /\
      Forall2 (type_describes latin1_alnum KInterface) interfaces
        (finditer latin1_alnum interface_pattern sample_declarations) /\
      Forall2 (type_describes latin1_alnum KType) aliases
        (finditer latin1_alnum type_pattern sample_declarations) /\
      Forall2 (type_describes latin1_alnum KEnum) enums
        (finditer latin1_alnum enum_pattern sample_declarations).
Proof.
  eexists. split; [reflexivity|]. split; [vm_compute; reflexivity|].
  apply (ts_types_grouped_by_kind latin1_alnum no_files sample_declarations a_ts).
  reflexivity.
Defined.

Lemma ts_classes_without_constructor_witness :
  exists r,
    analyze_typescript_file latin1_alnum no_files sample_declarations a_ts = Ok r /\
    map (fun c => (cl_name c, map fn_name (cl_methods c))) (classes r)
    = [(Some (lit "Foo"), [Some (lit "bar")])] /\
    Forall2 (fun c m =>
        (exists name ws,
           cl_name c = Some name /\ identifier latin1_alnum name /\ white ws /\
           ((cl_is_exported c = false /\ group0 m = lit "class" ++ ws ++ name) \/
            (cl_is_exported c = true /\
             exists ws1, white ws1 /\
               group0 m = lit "export" ++ ws1 ++ lit "class" ++ ws ++ name))) /\
        (forall f, In f (cl_methods c) ->
           fn_name f <> Some (lit "constructor") /\ fn_name f <> cl_name c /\
           fn_is_exported f = false /\
           exists name, fn_name f = Some name /\ identifier latin1_alnum name))
      (classes r) (finditer latin1_alnum ts_class_pattern sample_declarations).
Proof.
  eexists. split; [reflexivity|]. split; [vm_compute; reflexivity|].
  apply (ts_classes_without_constructor latin1_alnum no_files sample_declarations a_ts).
  reflexivity.
Defined.

Lemma py_record_shape_witness :
  exists r,
    analyze_python_file latin1_alnum no_files sample_module a_py = Ok r /\
    exports r = [] /\ types r = [] /\
    (forall p, In p (imports r) ->
       exists rest, p = Some (lit "." ++ rest) /\ rest <> [] /\
                    Forall (fun c => is_space c = false) rest) /\
    (forall c, In c (classes r) ->
       cl_is_exported c = false /\
       (exists name, cl_name c = Some name /\ identifier latin1_alnum name) /\
       (forall f, In f (cl_methods c) ->
          fn_is_exported f = false /\
          exists name, fn_name f = Some name /\ identifier latin1_alnum name)) /\
    (forall f, In f (functions r) ->
       fn_is_exported f = false /\
       exists name, fn_name f = Some name /\ identifier latin1_alnum name) /\
    finditer latin1_alnum py_import_pattern (lit "from . import x") = [].
Proof.
  eexists. split; [reflexivity|].
  apply (py_record_shape latin1_alnum no_files sample_module a_py).
  reflexivity.
Defined.

Lemma probe_candidates_witness :
  check_has_tests tests_dir_fs (mkPath [lit "src"] (lit "b.ts")) = Ok true /\
  check_has_tests no_files (mkPath [lit "src"] (lit "b.ts")) = Ok false.
Proof.
  split.
  - apply (probe_candidates tests_dir_fs under_tests_dir [lit "src"] (lit "b") (lit "ts")).
    + discriminate.
    + discriminate.
    + repeat constructor; discriminate.
    + reflexivity.
  - apply (probe_candidates no_files (fun _ => false) [lit "src"] (lit "b") (lit "ts")).
    + discriminate.
    + discriminate.
    + repeat constructor; discriminate.
    + reflexivity.
Defined.

Lemma probe_stops_at_first_witness :
  check_has_tests guarded_fs (mkPath [lit "src"] (lit "b.ts")) = Ok true /\
  check_has_tests guarded_fs (mkPath [lit "src"] []) = Raise ValueError.
Proof.
  apply (probe_stops_at_first guarded_fs [lit "src"] (lit "b") (lit "ts")).
  - discriminate.
  - discriminate.
  - repeat constructor; discriminate.
  - reflexivity.
Defined.

Lemma analyze_file_by_extension_witness :
  analyze_file latin1_alnum latin1_lower tests_dir_fs (mkPath [] (lit "Main.JAVA"))
  = Ok (Some (mkFileAnalysis [] [] [] [] [] true)).
Proof.
  apply (analyze_file_by_extension latin1_alnum latin1_lower tests_dir_fs []
           (lit "Main") (lit "JAVA")).
  - discriminate.
  - discriminate.
  - repeat constructor; discriminate.
  - repeat constructor.
Defined.

Lemma read_text_of_valid_utf8_witness :
  universal_newlines [97; 13; 10; 98]%N = [97; 10; 98]%N /\
  read_text crlf_file a_ts = Some (universal_newlines [97; 13; 10; 98]%N) /\
  ~ In 13%N (universal_newlines [97; 13; 10; 98]%N).
Proof.
  split; [reflexivity|].
  apply (read_text_of_valid_utf8 crlf_file a_ts crlf_bytes [97; 13; 10; 98]%N).
  - reflexivity.
  - reflexivity.
Defined.


Lemma probe_error_ends_directory_witness :
  generate_compact_index latin1_alnum latin1_lower locked_probe [lit "p"]
    [lit "p"; lit "src"] (Some three_files)
  = ([Written (FILE (lit "src/a.md") 1 false); ERROR (lit "p/src")], None).
Proof.
  apply (probe_error_ends_directory latin1_alnum latin1_lower locked_probe [lit "p"]
           [lit "p"; lit "src"] three_files
           [EFile (lit "a.md") true 1] [EFile (lit "c.ts") true 3] (lit "b.ts") true 2).
  - vm_compute; reflexivity.
  - repeat constructor.
  - vm_compute; reflexivity.
Defined.

Lemma header_counts_match_walk_witness :
  count_items (Some sample_tree) = (3, 2) /\
  count_written TFILE
    (fst (generate_compact_index latin1_alnum latin1_lower no_files [lit "/"; lit "p"]
            [lit "/"; lit "p"] (Some sample_tree)))
  = fst (count_items (Some sample_tree)) /\
  count_errors
    (fst (generate_compact_index latin1_alnum latin1_lower no_files [lit "/"; lit "p"]
            [lit "/"; lit "p"] (Some sample_tree)))
  <= snd (count_items (Some sample_tree)).
Proof.
  split; [reflexivity|].
  apply (header_counts_match_walk latin1_alnum latin1_lower no_files (fun _ => false)
           [lit "/"; lit "p"] [lit "/"; lit "p"] sample_tree).
  - reflexivity.
  - reflexivity.
Defined.


Lemma main_counts_before_output_file_witness :
  exists total_files total_dirs index,
    main latin1_alnum latin1_lower no_files [lit "/"; lit "p"]
      (Some (sample_tree ++ []))
      (Some (sample_tree ++ [EFile output_name true 0]))
    = (header [lit "/"; lit "p"] total_dirs total_files, (index, None)) /\
    count_written TFILE index = total_files + 1.
Proof.
  apply (main_counts_before_output_file latin1_alnum latin1_lower no_files (fun _ => false)
           [lit "/"; lit "p"] sample_tree [] None 0).
  - reflexivity.
  - reflexivity.
Defined.
